(** * LiteMark: bookmark ordering, persistence and backup

    A shallow embedding of the bookmark store of LiteMark:

    - [VercelDb]  : src/vercel/_lib/db.ts      (relational backend)
    - [ApiDb]     : src/api/_lib/db.ts         (JSON document backend)
    - [Backend]   : src/backend/index.js       (express server, JSON files)
    - [ImportApi] : src/vercel/backup/import.ts (import endpoint)

    JavaScript strings are sequences of UTF-16 code units; SQL tables are
    lists of rows; asynchronous functions that touch the database are
    computations in a state-and-exception monad over the server's world. *)

From Stdlib Require Import List NArith ZArith Lia Bool String Ascii.
From Stdlib Require Import Permutation.
Import ListNotations.

Set Implicit Arguments.

(** ** JavaScript values and strings *)

Module JS.

(** A string is its sequence of UTF-16 code units. *)
Definition jsstring := list N.

(** An ASCII literal of the source. *)
Definition lit (s : string) : jsstring :=
  List.map N_of_ascii (list_ascii_of_string s).

Definition eqb (a b : jsstring) : bool :=
  if list_eq_dec N.eq_dec a b then true else false.

Definition isEmpty (s : jsstring) : bool :=
  match s with [] => true | _ :: _ => false end.

(** WhiteSpace and LineTerminator code points, the ones
    String.prototype.trim strips. *)
Definition isWhiteSpace (c : N) : bool :=
  ((c =? 9) || (c =? 10) || (c =? 11) || (c =? 12) || (c =? 13) ||
   (c =? 32) || (c =? 160) || (c =? 5760) ||
   ((8192 <=? c) && (c <=? 8202)) ||
   (c =? 8232) || (c =? 8233) || (c =? 8239) || (c =? 8287) ||
   (c =? 12288) || (c =? 65279))%N.

Fixpoint trimStart (s : jsstring) : jsstring :=
  match s with
  | [] => []
  | c :: rest => if isWhiteSpace c then trimStart rest else s
  end.

Definition trimEnd (s : jsstring) : jsstring := rev (trimStart (rev s)).

Definition trim (s : jsstring) : jsstring := trimEnd (trimStart s).

Fixpoint startsWith (prefix s : jsstring) : bool :=
  match prefix, s with
  | [], _ => true
  | _ :: _, [] => false
  | p :: prefix', c :: s' => (p =? c)%N && startsWith prefix' s'
  end.

(** A value as a request body carries it.  [VOther] stands for numbers,
    arrays and objects: what the code observes of them is their
    truthiness and the result of [String(v)]. *)
Inductive value :=
| VUndefined
| VNull
| VBool (b : bool)
| VString (s : jsstring)
| VOther (truthy : bool) (toString : jsstring).

(** [!v] is [negb (toBoolean v)]. *)
Definition toBoolean (v : value) : bool :=
  match v with
  | VUndefined | VNull => false
  | VBool b => b
  | VString s => negb (isEmpty s)
  | VOther t _ => t
  end.

(** [String(v)] *)
Definition String_ (v : value) : jsstring :=
  match v with
  | VUndefined => lit "undefined"
  | VNull => lit "null"
  | VBool true => lit "true"
  | VBool false => lit "false"
  | VString s => s
  | VOther _ s => s
  end.

(** [a ?? b] on an optional value. *)
Definition nullish {A} (a : option A) (b : A) : A :=
  match a with Some x => x | None => b end.

(** [Array.prototype.includes] on an array of strings. *)
Definition includes (k : jsstring) (l : list jsstring) : bool :=
  existsb (eqb k) l.

End JS.

Import JS.

(** ** The relational backend: src/vercel/_lib/db.ts *)

Module VercelDb.

Record BookmarkRecord := mkBookmark {
  id : jsstring;
  title : jsstring;
  url : jsstring;
  category : option jsstring;
  description : option jsstring;
  visible : bool
}.

Record BookmarkInput := mkInput {
  in_title : jsstring;
  in_url : jsstring;
  in_category : option jsstring;
  in_description : option jsstring;
  in_visible : bool
}.

Record SettingsData := mkSettings {
  theme : jsstring;
  siteTitle : jsstring;
  siteIcon : jsstring
}.

(** [Partial<SettingsData>] *)
Record PartialSettings := mkPartial {
  p_theme : option jsstring;
  p_siteTitle : option jsstring;
  p_siteIcon : option jsstring
}.

Definition DEFAULT_SETTINGS : SettingsData :=
  {| theme := lit "light";
     siteTitle := [20010; 20154; 20070; 31614]%N;
     siteIcon := [55357; 56598]%N |}.

Definition normalizeCategoryValue (value : option jsstring) : option jsstring :=
  match value with
  | None => None
  | Some v =>
      if isEmpty v then None
      else let trimmed := trim v in
           if isEmpty trimmed then None else Some trimmed
  end.

Definition bookmarkCategoryKey (bookmark : BookmarkRecord) : jsstring :=
  nullish (normalizeCategoryValue (category bookmark)) [].

Definition normalizeCategoryKeyInput (v : JS.value) : jsstring :=
  match v with
  | VString s => trim s
  | _ => []
  end.

(** *** Tables *)

(** A row of table [bookmarks]. *)
Record Row := mkRow {
  row_id : jsstring;
  row_title : jsstring;
  row_url : jsstring;
  row_category : option jsstring;
  row_description : option jsstring;
  row_visible : bool;
  row_order : Z;
  row_created_at : Z
}.

Definition set_order (r : Row) (o : Z) : Row :=
  {| row_id := row_id r; row_title := row_title r; row_url := row_url r;
     row_category := row_category r; row_description := row_description r;
     row_visible := row_visible r; row_order := o;
     row_created_at := row_created_at r |}.

(** [ORDER BY "order" ASC, created_at ASC], as a stable sort: rows that
    agree on both columns come out in the order the table holds them. *)
Definition row_le (a b : Row) : bool :=
  (row_order a <? row_order b)%Z ||
  ((row_order a =? row_order b)%Z && (row_created_at a <=? row_created_at b)%Z).

Fixpoint insertRow (r : Row) (l : list Row) : list Row :=
  match l with
  | [] => [r]
  | x :: xs => if row_le r x then r :: l else x :: insertRow r xs
  end.

Definition orderBy (l : list Row) : list Row := fold_right insertRow [] l.

(** The clause gives rows that agree on both columns no order of their
    own, and an UPDATE may move a row in the table: the list [orderBy]
    gives is the one the server gives when no two rows agree on both. *)
Definition sortKey (r : Row) : Z * Z := (row_order r, row_created_at r).

Definition untied (t : list Row) : Prop := NoDup (List.map sortKey t).

(** [SELECT id, title, url, category, description, visible FROM bookmarks
     ORDER BY "order" ASC, created_at ASC] *)
Definition sql_select_all (t : list Row) : list Row := orderBy t.

(** [SELECT ... FROM bookmarks WHERE id = ${id}] *)
Definition sql_select_by_id (i : jsstring) (t : list Row) : list Row :=
  filter (fun r => eqb (row_id r) i) t.

(** [UPDATE bookmarks SET "order" = ${i} WHERE id = ${id}] *)
Definition sql_update_order (i : Z) (ident : jsstring) (t : list Row) : list Row :=
  List.map (fun r => if eqb (row_id r) ident then set_order r i else r) t.

(** [UPDATE bookmarks SET title = .., url = .., category = ..,
     description = .., visible = .. WHERE id = ${id}] *)
Definition sql_update_fields (ident : jsstring) (ti ur : jsstring)
    (ca de : option jsstring) (vi : bool) (t : list Row) : list Row :=
  List.map (fun r =>
    if eqb (row_id r) ident then
      {| row_id := row_id r; row_title := ti; row_url := ur;
         row_category := ca; row_description := de; row_visible := vi;
         row_order := row_order r; row_created_at := row_created_at r |}
    else r) t.

(** [DELETE FROM bookmarks WHERE id = ${id}] *)
Definition sql_delete (ident : jsstring) (t : list Row) : list Row :=
  filter (fun r => negb (eqb (row_id r) ident)) t.

(** [SELECT COALESCE(MAX("order"), -1) + 1 as next_order FROM bookmarks] *)
Definition sql_max_order (t : list Row) : option Z :=
  match t with
  | [] => None
  | r :: rest => Some (fold_left (fun m x => Z.max m (row_order x)) rest (row_order r))
  end.

Definition sql_next_order (t : list Row) : Z :=
  (nullish (sql_max_order t) (-1) + 1)%Z.

(** *** What the columns hold

    Column ["order"] is a 32-bit INTEGER: a statement that computes or
    stores an order outside its range throws.  A TEXT column takes no
    code unit 0, and the driver sends a string as UTF-8, which replaces a
    surrogate that stands outside a pair.  The statements above are the
    ones of values the columns hold as they are given: orders up to
    [INT4_MAX] and strings for which [pgText] holds. *)
Definition INT4_MAX : Z := 2147483647%Z.

Definition isHighSurrogate (c : N) : bool := ((55296 <=? c) && (c <=? 56319))%N.
Definition isLowSurrogate (c : N) : bool := ((56320 <=? c) && (c <=? 57343))%N.

Fixpoint pgText (s : jsstring) : bool :=
  match s with
  | [] => true
  | c :: rest =>
      if (c =? 0)%N || (65535 <? c)%N then false
      else if isHighSurrogate c then
        match rest with
        | lo :: rest' => isLowSurrogate lo && pgText rest'
        | [] => false
        end
      else if isLowSurrogate c then false
      else pgText rest
  end.

Definition pgTextOpt (o : option jsstring) : bool :=
  match o with
  | Some s => pgText s
  | None => true
  end.

Definition rowToRecord (row : Row) : BookmarkRecord :=
  {| id := row_id row;
     title := row_title row;
     url := row_url row;
     category := normalizeCategoryValue (row_category row);
     description := row_description row;
     visible := row_visible row |}.

(** *** The world of the server process *)

Inductive BackupKey := KBookmarks | KSettings.

Inductive BackupPayload :=
| PBookmarks (l : list BookmarkRecord)
| PSettings (s : SettingsData).

Inductive Error :=
| UniqueViolation (ident : jsstring)
| NotNullViolation
| DataException
| BackupWriteError
| TypeError.

Inductive LogLine :=
| LogInitFailed (e : Error)
| LogBackupFailed (k : BackupKey) (e : Error)
| LogReorderFailed (e : Error)
| LogReorderCategoriesFailed (e : Error).

Definition BackupStore := list (BackupKey * BackupPayload).

Record World := mkWorld {
  bookmarks : list Row;               (* table bookmarks *)
  settings : option SettingsData;     (* row 'default' of table settings *)
  tablesInitialized : bool;           (* module variable *)
  BACKUP_STORAGE_DRIVER : option jsstring;  (* process.env *)
  backupStore : BackupStore;          (* the secondary store *)
  console : list LogLine              (* console.error *)
}.

Definition with_bookmarks (w : World) (t : list Row) : World :=
  {| bookmarks := t; settings := settings w;
     tablesInitialized := tablesInitialized w;
     BACKUP_STORAGE_DRIVER := BACKUP_STORAGE_DRIVER w;
     backupStore := backupStore w; console := console w |}.

Definition with_settings (w : World) (s : option SettingsData) : World :=
  {| bookmarks := bookmarks w; settings := s;
     tablesInitialized := tablesInitialized w;
     BACKUP_STORAGE_DRIVER := BACKUP_STORAGE_DRIVER w;
     backupStore := backupStore w; console := console w |}.

Definition with_initialized (w : World) (b : bool) : World :=
  {| bookmarks := bookmarks w; settings := settings w;
     tablesInitialized := b;
     BACKUP_STORAGE_DRIVER := BACKUP_STORAGE_DRIVER w;
     backupStore := backupStore w; console := console w |}.

Definition with_backupStore (w : World) (s : BackupStore) : World :=
  {| bookmarks := bookmarks w; settings := settings w;
     tablesInitialized := tablesInitialized w;
     BACKUP_STORAGE_DRIVER := BACKUP_STORAGE_DRIVER w;
     backupStore := s; console := console w |}.

Definition with_log (w : World) (l : LogLine) : World :=
  {| bookmarks := bookmarks w; settings := settings w;
     tablesInitialized := tablesInitialized w;
     BACKUP_STORAGE_DRIVER := BACKUP_STORAGE_DRIVER w;
     backupStore := backupStore w; console := console w ++ [l] |}.

(** *** Promises: state and exceptions *)

Inductive Outcome (A : Type) :=
| Returned (a : A)
| Thrown (e : Error).
Arguments Thrown {A} e.

Definition M (A : Type) := World -> Outcome A * World.

Definition ret {A} (a : A) : M A := fun w => (Returned a, w).

Definition bind {A B} (m : M A) (k : A -> M B) : M B :=
  fun w => match m w with
           | (Returned a, w') => k a w'
           | (Thrown e, w') => (Thrown e, w')
           end.

Definition throw {A} (e : Error) : M A := fun w => (Thrown e, w).

Definition tryCatch {A} (m : M A) (handler : Error -> M A) : M A :=
  fun w => match m w with
           | (Returned a, w') => (Returned a, w')
           | (Thrown e, w') => handler e w'
           end.

Definition gets {A} (f : World -> A) : M A := fun w => (Returned (f w), w).

Definition modify (f : World -> World) : M unit := fun w => (Returned tt, f w).

Definition console_error (l : LogLine) : M unit := modify (fun w => with_log w l).

Declare Scope promise_scope.
Delimit Scope promise_scope with promise.
Notation "x <- c ;; k" := (bind c (fun x => k))
  (at level 61, c at next level, right associativity) : promise_scope.
Notation "c ;; k" := (bind c (fun _ => k))
  (at level 61, right associativity) : promise_scope.
Local Open Scope promise_scope.

(** [sql] statements as promises.  A statement throws when it breaks a
    constraint of the schema, here the primary key of [bookmarks]; the
    [order] column is an integer, a [Z] (see [INT4_MAX]), and [created_at] a
    timestamp, the [Z] that [NOW()] gave. *)
Definition sql_query {A} (q : list Row -> A) : M A :=
  gets (fun w => q (bookmarks w)).

Definition sql_exec (q : list Row -> list Row) : M unit :=
  modify (fun w => with_bookmarks w (q (bookmarks w))).

(** [INSERT INTO bookmarks (...) VALUES (...)]: [id] is the primary key. *)
Definition sql_insert (r : Row) : M unit :=
  fun w =>
    if existsb (fun x => eqb (row_id x) (row_id r)) (bookmarks w)
    then (Thrown (UniqueViolation (row_id r)), w)
    else (Returned tt, with_bookmarks w (bookmarks w ++ [r])).

Definition ensureTables : M unit :=
  initialized <- gets tablesInitialized ;;
  if initialized then ret tt
  else
    tryCatch
      ((* CREATE TABLE IF NOT EXISTS bookmarks, settings;
          INSERT INTO settings ... ON CONFLICT (id) DO NOTHING *)
       modify (fun w =>
         match settings w with
         | Some _ => w
         | None => with_settings w (Some DEFAULT_SETTINGS)
         end) ;;
       modify (fun w => with_initialized w true))
      (fun error => console_error (LogInitFailed error) ;; throw error).

(** The type of [backupWriteJson] of ./storage.js: given key, data and
    driver it writes to the secondary store, or throws ([None]). *)
Definition BackupWriter : Type :=
  BackupKey -> BackupPayload -> jsstring -> BackupStore -> option BackupStore.

Section WithBackupStorage.

Variable backupWriteJson : BackupWriter.

Definition backupWrite (key : BackupKey) (data : BackupPayload)
    (driver : jsstring) : M unit :=
  fun w => match backupWriteJson key data driver (backupStore w) with
           | Some s => (Returned tt, with_backupStore w s)
           | None => (Thrown BackupWriteError, w)
           end.

Definition backupData (key : BackupKey) (data : BackupPayload) : M unit :=
  tryCatch
    (backupDriver <- gets BACKUP_STORAGE_DRIVER ;;
     match backupDriver with
     | None => ret tt
     | Some d =>
         if isEmpty d || eqb d (lit "none") then ret tt
         else backupWrite key data d
     end)
    (fun error => console_error (LogBackupFailed key error)).

Definition readBookmarksFromDb : M (list BookmarkRecord) :=
  ensureTables ;;
  rows <- sql_query sql_select_all ;;
  ret (List.map rowToRecord rows).

Definition readSettingsFromDb : M SettingsData :=
  ensureTables ;;
  row <- gets settings ;;
  match row with
  | None => ret DEFAULT_SETTINGS
  | Some r => ret r
  end.

Definition writeSettingsToDb (s : SettingsData) : M unit :=
  ensureTables ;;
  modify (fun w => with_settings w (Some s)) ;;
  backupData KSettings (PSettings s).

Definition getSettings : M SettingsData := readSettingsFromDb.

Definition mergeSettings (current : SettingsData) (partial : PartialSettings)
    : SettingsData :=
  {| theme := nullish (p_theme partial) (theme current);
     siteTitle := nullish (p_siteTitle partial) (siteTitle current);
     siteIcon := nullish (p_siteIcon partial) (siteIcon current) |}.

Definition updateSettings (partial : PartialSettings) : M SettingsData :=
  current <- readSettingsFromDb ;;
  let next := mergeSettings current partial in
  writeSettingsToDb next ;;
  ret next.

Definition listBookmarks : M (list BookmarkRecord) := readBookmarksFromDb.

(** [uuid] is the result of [randomUUID()], [now] the value of [NOW()]
    the insert gets as [created_at]. *)
Definition createBookmark (uuid : jsstring) (now : Z) (data : BookmarkInput)
    : M BookmarkRecord :=
  ensureTables ;;
  let bookmark :=
    {| id := uuid;
       title := in_title data;
       url := in_url data;
       category := normalizeCategoryValue (in_category data);
       description := in_description data;
       visible := in_visible data |} in
  nextOrder <- sql_query sql_next_order ;;
  sql_insert
    {| row_id := id bookmark; row_title := title bookmark;
       row_url := url bookmark; row_category := category bookmark;
       row_description := description bookmark;
       row_visible := visible bookmark;
       row_order := nextOrder; row_created_at := now |} ;;
  allBookmarks <- readBookmarksFromDb ;;
  backupData KBookmarks (PBookmarks allBookmarks) ;;
  ret bookmark.

(** The [for] loop of [UPDATE]s, from index [i] on. *)
Fixpoint update_orders (i : Z) (ids : list jsstring) : M unit :=
  match ids with
  | [] => ret tt
  | x :: rest => sql_exec (sql_update_order i x) ;; update_orders (i + 1) rest
  end.

Definition reorderBookmarks (order : list jsstring) : M (list BookmarkRecord) :=
  ensureTables ;;
  tryCatch (update_orders 0 order)
    (fun error => console_error (LogReorderFailed error) ;; throw error) ;;
  reordered <- readBookmarksFromDb ;;
  backupData KBookmarks (PBookmarks reordered) ;;
  ret reordered.

(** A [Map<string, BookmarkRecord[]>]: entries in insertion order. *)
Definition CategoryMap := list (jsstring * list BookmarkRecord).

Fixpoint map_has (k : jsstring) (m : CategoryMap) : bool :=
  match m with
  | [] => false
  | (k', _) :: rest => eqb k' k || map_has k rest
  end.

Fixpoint map_get (k : jsstring) (m : CategoryMap) : option (list BookmarkRecord) :=
  match m with
  | [] => None
  | (k', v) :: rest => if eqb k' k then Some v else map_get k rest
  end.

Fixpoint map_set (k : jsstring) (v : list BookmarkRecord) (m : CategoryMap)
    : CategoryMap :=
  match m with
  | [] => [(k, v)]
  | (k', v') :: rest =>
      if eqb k' k then (k', v) :: rest else (k', v') :: map_set k v rest
  end.

(** [categoryMap.get(key)!.push(bookmark)] *)
Fixpoint map_push (k : jsstring) (b : BookmarkRecord) (m : CategoryMap)
    : CategoryMap :=
  match m with
  | [] => []
  | (k', v') :: rest =>
      if eqb k' k then (k', v' ++ [b]) :: rest else (k', v') :: map_push k b rest
  end.

(** The body of [bookmarks.forEach]. *)
Definition groupStep (st : CategoryMap * list jsstring) (bookmark : BookmarkRecord)
    : CategoryMap * list jsstring :=
  let '(categoryMap, originalOrder) := st in
  let key := bookmarkCategoryKey bookmark in
  let '(categoryMap, originalOrder) :=
    if negb (map_has key categoryMap)
    then (map_set key [] categoryMap, originalOrder ++ [key])
    else (categoryMap, originalOrder) in
  (map_push key bookmark categoryMap, originalOrder).

Definition groupByCategory (bs : list BookmarkRecord)
    : CategoryMap * list jsstring :=
  fold_left groupStep bs ([], []).

(** The body of [order.forEach]. *)
Definition requestStep (categoryMap : CategoryMap) (requestedOrder : list jsstring)
    (v : JS.value) : list jsstring :=
  let key := normalizeCategoryKeyInput v in
  if map_has key categoryMap && negb (includes key requestedOrder)
  then requestedOrder ++ [key]
  else requestedOrder.

(** The body of [originalOrder.forEach]. *)
Definition remainingStep (requestedOrder : list jsstring) (key : jsstring)
    : list jsstring :=
  if negb (includes key requestedOrder)
  then requestedOrder ++ [key]
  else requestedOrder.

(** The body of [requestedOrder.forEach]. *)
Definition concatStep (categoryMap : CategoryMap) (reordered : list BookmarkRecord)
    (key : jsstring) : list BookmarkRecord :=
  match map_get key categoryMap with
  | Some items => reordered ++ items
  | None => reordered
  end.

(** The list [reordered] the function builds from what it read. *)
Definition reorderedByCategories (order : list JS.value)
    (bs : list BookmarkRecord) : list BookmarkRecord :=
  let '(categoryMap, originalOrder) := groupByCategory bs in
  let requestedOrder := fold_left (requestStep categoryMap) order [] in
  let requestedOrder := fold_left remainingStep originalOrder requestedOrder in
  fold_left (concatStep categoryMap) requestedOrder [].

Definition reorderBookmarkCategories (order : list JS.value)
    : M (list BookmarkRecord) :=
  ensureTables ;;
  bs <- readBookmarksFromDb ;;
  let reordered := reorderedByCategories order bs in
  tryCatch (update_orders 0 (List.map id reordered))
    (fun error => console_error (LogReorderCategoriesFailed error) ;; throw error) ;;
  backupData KBookmarks (PBookmarks reordered) ;;
  ret reordered.

Definition updateBookmark (ident : jsstring) (data : BookmarkInput)
    : M (option BookmarkRecord) :=
  ensureTables ;;
  existingResult <- sql_query (sql_select_by_id ident) ;;
  match existingResult with
  | [] => ret None
  | _ :: _ =>
      sql_exec (sql_update_fields ident (in_title data) (in_url data)
                  (normalizeCategoryValue (in_category data))
                  (in_description data) (in_visible data)) ;;
      updatedResult <- sql_query (sql_select_by_id ident) ;;
      match updatedResult with
      | [] => throw TypeError  (* [row.id] of an absent [rows[0]] *)
      | row :: _ =>
          let updated := rowToRecord row in
          allBookmarks <- readBookmarksFromDb ;;
          backupData KBookmarks (PBookmarks allBookmarks) ;;
          ret (Some updated)
      end
  end.

Definition deleteBookmark (ident : jsstring) : M (option BookmarkRecord) :=
  ensureTables ;;
  existingResult <- sql_query (sql_select_by_id ident) ;;
  match existingResult with
  | [] => ret None
  | row :: _ =>
      let removed := rowToRecord row in
      sql_exec (sql_delete ident) ;;
      allBookmarks <- readBookmarksFromDb ;;
      backupData KBookmarks (PBookmarks allBookmarks) ;;
      ret (Some removed)
  end.

End WithBackupStorage.

End VercelDb.

(** ** The JSON document backend: src/api/_lib/db.ts *)

Module ApiDb.

Record BookmarkRecord := mkBookmark {
  id : jsstring;
  title : jsstring;
  url : jsstring;
  category : option jsstring;
  description : option jsstring;
  visible : bool;
  createdAt : jsstring;
  updatedAt : jsstring
}.

Definition BookmarkInput := VercelDb.BookmarkInput.
Definition SettingsData := VercelDb.SettingsData.
Definition PartialSettings := VercelDb.PartialSettings.
Definition DEFAULT_SETTINGS : SettingsData := VercelDb.DEFAULT_SETTINGS.

(** Modelled from the spec: ./storage.js ([readJson], [writeJson]) is not
    among the sources.  The spec describes a single JSON document per
    collection, read whole and overwritten whole; [readJson key fallback]
    gives the fallback when the document is absent. *)
Record Store := mkStore {
  bookmarksDoc : option (list BookmarkRecord);
  settingsDoc : option SettingsData
}.

Definition loadBookmarks (s : Store) : list BookmarkRecord :=
  nullish (bookmarksDoc s) [].

Definition saveBookmarks (bs : list BookmarkRecord) (s : Store) : Store :=
  {| bookmarksDoc := Some bs; settingsDoc := settingsDoc s |}.

Definition loadSettings (s : Store) : SettingsData :=
  nullish (settingsDoc s) DEFAULT_SETTINGS.

Definition saveSettings (v : SettingsData) (s : Store) : Store :=
  {| bookmarksDoc := bookmarksDoc s; settingsDoc := Some v |}.

Definition getSettings (s : Store) : SettingsData := loadSettings s.

Definition updateSettings (partial : PartialSettings) (s : Store)
    : SettingsData * Store :=
  let current := loadSettings s in
  let next :=
    {| VercelDb.theme := nullish (VercelDb.p_theme partial) (VercelDb.theme current);
       VercelDb.siteTitle :=
         nullish (VercelDb.p_siteTitle partial) (VercelDb.siteTitle current);
       VercelDb.siteIcon :=
         nullish (VercelDb.p_siteIcon partial) (VercelDb.siteIcon current) |} in
  (next, saveSettings next s).

Definition listBookmarks (s : Store) : list BookmarkRecord := loadBookmarks s.

(** [uuid] is the result of [randomUUID()], [now] of
    [new Date().toISOString()]. *)
Definition createBookmark (uuid now : jsstring) (data : BookmarkInput) (s : Store)
    : BookmarkRecord * Store :=
  let bs := loadBookmarks s in
  let bookmark :=
    {| id := uuid;
       title := VercelDb.in_title data;
       url := VercelDb.in_url data;
       category := VercelDb.in_category data;
       description := VercelDb.in_description data;
       visible := VercelDb.in_visible data;
       createdAt := now;
       updatedAt := now |} in
  (* bookmarks.unshift(bookmark) *)
  let bs := bookmark :: bs in
  (bookmark, saveBookmarks bs s).

(** [bookmarks.findIndex((item) => item.id === id)]: [None] is -1. *)
Fixpoint findIndex (ident : jsstring) (l : list BookmarkRecord) : option nat :=
  match l with
  | [] => None
  | item :: rest =>
      if eqb (id item) ident then Some 0%nat
      else option_map S (findIndex ident rest)
  end.

(** [bookmarks[index] = updated], for an index inside the array. *)
Fixpoint setAt (index : nat) (x : BookmarkRecord) (l : list BookmarkRecord)
    : list BookmarkRecord :=
  match l, index with
  | [], _ => []
  | _ :: rest, O => x :: rest
  | y :: rest, S i => y :: setAt i x rest
  end.

(** [bookmarks.splice(index, 1)]: what is left in the array. *)
Fixpoint spliceAt (index : nat) (l : list BookmarkRecord) : list BookmarkRecord :=
  match l, index with
  | [], _ => []
  | _ :: rest, O => rest
  | y :: rest, S i => y :: spliceAt i rest
  end.

(** [now] is the result of [new Date().toISOString()]. *)
Definition updateBookmark (ident now : jsstring) (data : BookmarkInput) (s : Store)
    : option BookmarkRecord * Store :=
  let bs := loadBookmarks s in
  match findIndex ident bs with
  | None => (None, s)
  | Some index =>
      match nth_error bs index with
      | None => (None, s)  (* no element at an index [findIndex] gave *)
      | Some existing =>
          let updated :=
            {| id := id existing;
               title := VercelDb.in_title data;
               url := VercelDb.in_url data;
               category := VercelDb.in_category data;
               description := VercelDb.in_description data;
               visible := VercelDb.in_visible data;
               createdAt := createdAt existing;
               updatedAt := now |} in
          (Some updated, saveBookmarks (setAt index updated bs) s)
      end
  end.

Definition deleteBookmark (ident : jsstring) (s : Store)
    : option BookmarkRecord * Store :=
  let bs := loadBookmarks s in
  match findIndex ident bs with
  | None => (None, s)
  | Some index =>
      (nth_error bs index, saveBookmarks (spliceAt index bs) s)
  end.

End ApiDb.

(** ** The express server over JSON files: src/backend/index.js *)

Module Backend.

Record Bookmark := mkBookmark {
  id : jsstring;
  title : option jsstring;
  url : jsstring;
  category : option jsstring;
  description : option jsstring;
  visible : bool;
  createdAt : jsstring;
  updatedAt : jsstring
}.

(** [req.body ?? {}], destructured: an absent key is [VUndefined]. *)
Record Body := mkBody {
  b_title : JS.value;
  b_url : JS.value;
  b_category : JS.value;
  b_description : JS.value;
  b_visible : JS.value
}.

(** data/bookmarks.json: [None] when the file cannot be read or parsed;
    [writable] tells whether [fs.writeFile] succeeds. *)
Record Files := mkFiles {
  bookmarksFile : option (list Bookmark);
  writable : bool
}.

Inductive Response :=
| Status201 (b : Bookmark)
| Status400
| Status500.

Definition sanitizeText (v : JS.value) : option jsstring :=
  match v with
  | VNull | VUndefined => None
  | _ => let trimmed := trim (String_ v) in
         if isEmpty trimmed then None else Some trimmed
  end.

Definition sanitizeUrl (v : JS.value) : jsstring :=
  trim (match v with
        | VNull | VUndefined => []
        | _ => String_ v
        end).

(** [readJson(bookmarksFile, [])] *)
Definition readJson (fs : Files) : list Bookmark :=
  nullish (bookmarksFile fs) [].

(** [writeJson(bookmarksFile, data)]: [None] when it throws. *)
Definition writeJson (data : list Bookmark) (fs : Files) : option Files :=
  if writable fs
  then Some {| bookmarksFile := Some data; writable := writable fs |}
  else None.

(** [typeof visible === 'boolean' ? visible : true] *)
Definition visibleOrTrue (v : JS.value) : bool :=
  match v with
  | VBool b => b
  | _ => true
  end.

(** The handler of [POST /api/bookmarks], behind [authenticate].
    [uuid] is the result of [randomUUID()], [now] of
    [new Date().toISOString()]. *)
Definition postBookmark (uuid now : jsstring) (body : Body) (fs : Files)
    : Response * Files :=
  if negb (toBoolean (b_title body)) || negb (toBoolean (b_url body))
  then (Status400, fs)
  else
    let newBookmark :=
      {| id := uuid;
         title := sanitizeText (b_title body);
         url := sanitizeUrl (b_url body);
         category := sanitizeText (b_category body);
         description := sanitizeText (b_description body);
         visible := visibleOrTrue (b_visible body);
         createdAt := now;
         updatedAt := now |} in
    let bookmarks := readJson fs in
    (* bookmarks.push(newBookmark) *)
    let bookmarks := bookmarks ++ [newBookmark] in
    match writeJson bookmarks fs with
    | Some fs' => (Status201 newBookmark, fs')
    | None => (Status500, fs)
    end.

(** *** The other handlers *)

Inductive Reply (A : Type) :=
| Ok200 (a : A)
| BadRequest400
| Unauthorized401
| NotFound404
| ServerError500.
Arguments BadRequest400 {A}.
Arguments Unauthorized401 {A}.
Arguments NotFound404 {A}.
Arguments ServerError500 {A}.

(** [bookmarks.findIndex((item) => item.id === id)]: [None] is -1. *)
Fixpoint findIndex (ident : jsstring) (l : list Bookmark) : option nat :=
  match l with
  | [] => None
  | item :: rest =>
      if eqb (id item) ident then Some 0%nat
      else option_map S (findIndex ident rest)
  end.

(** [bookmarks[index] = updated], for an index inside the array. *)
Fixpoint setAt (index : nat) (x : Bookmark) (l : list Bookmark) : list Bookmark :=
  match l, index with
  | [], _ => []
  | _ :: rest, O => x :: rest
  | y :: rest, S i => y :: setAt i x rest
  end.

(** [bookmarks.splice(index, 1)]: what is left in the array. *)
Fixpoint spliceAt (index : nat) (l : list Bookmark) : list Bookmark :=
  match l, index with
  | [], _ => []
  | _ :: rest, O => rest
  | y :: rest, S i => y :: spliceAt i rest
  end.

(** The handler of [PUT /api/bookmarks/:id], behind [authenticate]. *)
Definition putBookmark (now : jsstring) (ident : jsstring) (body : Body) (fs : Files)
    : Reply Bookmark * Files :=
  if negb (toBoolean (b_title body)) || negb (toBoolean (b_url body))
  then (BadRequest400, fs)
  else
    let bookmarks := readJson fs in
    match findIndex ident bookmarks with
    | None => (NotFound404, fs)
    | Some index =>
        match nth_error bookmarks index with
        | None => (ServerError500, fs)  (* no element at an index [findIndex] gave *)
        | Some existing =>
            let updated :=
              {| id := id existing;
                 title := sanitizeText (b_title body);
                 url := sanitizeUrl (b_url body);
                 category := sanitizeText (b_category body);
                 description := sanitizeText (b_description body);
                 visible := match b_visible body with
                            | VBool v => v
                            | _ => negb (Bool.eqb (visible existing) false)
                            end;
                 createdAt := createdAt existing;
                 updatedAt := now |} in
            match writeJson (setAt index updated bookmarks) fs with
            | Some fs' => (Ok200 updated, fs')
            | None => (ServerError500, fs)
            end
        end
    end.

(** The handler of [DELETE /api/bookmarks/:id], behind [authenticate]. *)
Definition deleteBookmark (ident : jsstring) (fs : Files) : Reply Bookmark * Files :=
  let bookmarks := readJson fs in
  match findIndex ident bookmarks with
  | None => (NotFound404, fs)
  | Some index =>
      match nth_error bookmarks index with
      | None => (ServerError500, fs)  (* no element at an index [findIndex] gave *)
      | Some removed =>
          match writeJson (spliceAt index bookmarks) fs with
          | Some fs' => (Ok200 removed, fs')
          | None => (ServerError500, fs)
          end
      end
  end.

(** The handler of [GET /api/bookmarks]. *)
Definition getBookmarks (fs : Files) : Reply (list Bookmark) * Files :=
  (Ok200 (readJson fs), fs).

(** *** Settings *)

Definition THEMES : list jsstring := [lit "light"; lit "twilight"; lit "dark"].

(** data/settings.json: an object with a [theme] and whatever other keys
    the file holds. *)
Record Settings := mkSettings {
  s_theme : JS.value;
  s_others : list (jsstring * JS.value)
}.

Record SettingsFiles := mkSettingsFiles {
  settingsFile : option Settings;   (* [None]: cannot be read or parsed *)
  settingsWritable : bool
}.

(** [THEMES.includes(v)]: strict equality with one of the strings. *)
Definition isTheme (v : JS.value) : bool :=
  match v with
  | VString s => includes s THEMES
  | _ => false
  end.

(** [readJson(settingsFile, { theme: THEMES[0] })] *)
Definition readSettings (fs : SettingsFiles) : Settings :=
  nullish (settingsFile fs) {| s_theme := VString (lit "light"); s_others := [] |}.

(** The handler of [GET /api/settings]. *)
Definition getSettings (fs : SettingsFiles) : Reply Settings * SettingsFiles :=
  let settings := readSettings fs in
  let settings :=
    if negb (isTheme (s_theme settings))
    then {| s_theme := VString (lit "light"); s_others := s_others settings |}
    else settings in
  (Ok200 settings, fs).

(** The handler of [PUT /api/settings/theme], behind [authenticate]. *)
Definition putTheme (theme : JS.value) (fs : SettingsFiles)
    : Reply Settings * SettingsFiles :=
  if negb (toBoolean theme) || negb (includes (String_ theme) THEMES)
  then (BadRequest400, fs)
  else
    let settings := readSettings fs in
    let settings :=
      {| s_theme := VString (String_ theme); s_others := s_others settings |} in
    if settingsWritable fs
    then (Ok200 settings,
          {| settingsFile := Some settings; settingsWritable := settingsWritable fs |})
    else (ServerError500, fs).

(** *** Login and the bearer token *)

(** [process.env.ADMIN_USERNAME || 'admin'] and the like. *)
Definition envOr (v : option jsstring) (default : jsstring) : jsstring :=
  match v with
  | Some s => if isEmpty s then default else s
  | None => default
  end.

Record Env := mkEnv {
  ADMIN_USERNAME : option jsstring;
  ADMIN_PASSWORD : option jsstring
}.

Definition adminUsername (env : Env) : jsstring :=
  envOr (ADMIN_USERNAME env) (lit "admin").

Definition adminPassword (env : Env) : jsstring :=
  envOr (ADMIN_PASSWORD env) (lit "admin123").

Section WithJwt.

(** [jwt.sign({ username }, JWT_SECRET, { expiresIn })] and
    [jwt.verify(token, JWT_SECRET)] of the jsonwebtoken package; [verify]
    gives [None] when it throws. *)
Variable sign : jsstring -> jsstring.
Variable verify : jsstring -> option jsstring.

(** The handler of [POST /api/auth/login]: the token and the username. *)
Definition login (env : Env) (username password : JS.value)
    : Reply (jsstring * jsstring) :=
  if negb (toBoolean username) || negb (toBoolean password)
  then BadRequest400
  else if negb (eqb (String_ username) (adminUsername env)) ||
          negb (eqb (String_ password) (adminPassword env))
  then Unauthorized401
  else Ok200 (sign (adminUsername env), adminUsername env).

(** [authHeader.slice(7)] *)
Definition slice7 (s : jsstring) : jsstring := skipn 7 s.

(** The middleware [authenticate]: the payload it puts in [req.user]
    before it calls [next], or the 401 it sends.  [authorization] is
    [req.get('Authorization')]. *)
Definition authenticate (authorization : option jsstring) : Reply jsstring :=
  let authHeader := envOr authorization [] in
  let token :=
    if startsWith (lit "Bearer ") authHeader then Some (slice7 authHeader)
    else None in
  match token with
  | None => Unauthorized401
  | Some t =>
      if isEmpty t then Unauthorized401
      else match verify t with
           | Some payload => Ok200 payload
           | None => Unauthorized401
           end
  end.

End WithJwt.

End Backend.

(** ** The import endpoint: src/vercel/backup/import.ts *)

Module ImportApi.

Import VercelDb.
Local Open Scope promise_scope.

(** An element of [ImportRequestBody.bookmarks].  [title] and [url] are
    tested for presence by the handler. *)
(** A value of the parsed body that the handler does not look into.  A
    number comes with the text [n.toString()] gives. *)
Inductive JsonValue :=
| JNull
| JBool (b : bool)
| JNumber (text : jsstring)
| JString (s : jsstring)
| JArray
| JObject.

Record BookmarkData := mkData {
  d_id : option jsstring;
  d_title : option jsstring;
  d_url : option jsstring;
  d_category : option jsstring;
  d_description : option jsstring;
  d_visible : option JsonValue   (* [None]: no such key, [undefined] *)
}.

Inductive ImportError :=
| SkippedEmpty
| SkippedBadUrl (title : jsstring)
| CreateFailed (label : jsstring) (e : Error).

(** [/^https?:\/\//i.test(s)] *)
Definition ciEq (c lower : N) : bool := ((c =? lower) || (c =? lower - 32))%N.

Definition hasHttpScheme (s : jsstring) : bool :=
  match s with
  | h :: t1 :: t2 :: p :: rest =>
      ciEq h 104 && ciEq t1 116 && ciEq t2 116 && ciEq p 112 &&
      (match rest with
       | c :: rest' => ciEq c 115 && startsWith (lit "://") rest'
       | [] => false
       end || startsWith (lit "://") rest)
  | _ => false
  end.

Definition sanitizeUrl (url : jsstring) : jsstring :=
  let trimmed := trim url in
  if isEmpty trimmed then []
  else if hasHttpScheme trimmed then trimmed
  else lit "https://" ++ trimmed.

(** [s?.trim() || undefined] *)
Definition trimOrUndefined (s : option jsstring) : option jsstring :=
  match s with
  | None => None
  | Some v => let t := trim v in if isEmpty t then None else Some t
  end.

Definition truthy (s : option jsstring) : bool :=
  match s with
  | None => false
  | Some v => negb (isEmpty v)
  end.

(** *** A parameter for column [visible BOOLEAN NOT NULL]

    The handler's items are typed [visible?: boolean], but the body is
    parsed JSON and nothing checks it: a [visible] that is no boolean
    reaches the INSERT of [createBookmark] as it is.  The driver sends a
    number or a string as its text, an array or an object as a text that
    starts with an opening brace, and [null] as NULL; the server reads
    the text as a boolean ([boolin]) or throws. *)

(** C's [isspace]. *)
Definition isspace (c : N) : bool := ((c =? 32) || ((9 <=? c) && (c <=? 13)))%N.

Fixpoint skipSpaces (s : jsstring) : jsstring :=
  match s with
  | [] => []
  | c :: rest => if isspace c then skipSpaces rest else s
  end.

Definition trimSpaces (s : jsstring) : jsstring :=
  rev (skipSpaces (rev (skipSpaces s))).

(** [pg_strncasecmp(value, word, len) == 0] for [len] the length of
    [value] and a [word] in lower case. *)
Fixpoint isPrefixCi (value word : jsstring) : bool :=
  match value, word with
  | [], _ => true
  | _ :: _, [] => false
  | c :: value', l :: word' => ciEq c l && isPrefixCi value' word'
  end.

(** [parse_bool_with_len] *)
Definition parse_bool (value : jsstring) : option bool :=
  match value with
  | [] => None
  | c :: rest =>
      if ciEq c 116 then
        if isPrefixCi value (lit "true") then Some true else None
      else if ciEq c 102 then
        if isPrefixCi value (lit "false") then Some false else None
      else if ciEq c 121 then
        if isPrefixCi value (lit "yes") then Some true else None
      else if ciEq c 110 then
        if isPrefixCi value (lit "no") then Some false else None
      else if ciEq c 111 then
        if negb (isEmpty rest) && isPrefixCi value (lit "on") then Some true
        else if negb (isEmpty rest) && isPrefixCi value (lit "off") then Some false
        else None
      else if (c =? 49)%N then
        if isEmpty rest then Some true else None
      else if (c =? 48)%N then
        if isEmpty rest then Some false else None
      else None
  end.

(** [boolin] *)
Definition boolin (text : jsstring) : Outcome bool :=
  match parse_bool (trimSpaces text) with
  | Some b => Returned b
  | None => Thrown DataException
  end.

Definition sqlBoolean (v : JsonValue) : Outcome bool :=
  match v with
  | JBool b => Returned b
  | JNull => Thrown NotNullViolation
  | JNumber text => boolin text
  | JString s => boolin s
  | JArray | JObject => Thrown DataException
  end.

Section WithBackupStorage.

Variable backupWriteJson : BackupWriter.

(** [bookmarkData.visible !== undefined ? bookmarkData.visible : true] *)
Definition visibleOf (bookmarkData : BookmarkData) : JsonValue :=
  match d_visible bookmarkData with
  | Some v => v
  | None => JBool true
  end.

(** The input the handler passes to [createBookmark], with the boolean
    its [visible] is for the INSERT. *)
Definition toInput (bookmarkData : BookmarkData) (url : jsstring) (visible : bool)
    : BookmarkInput :=
  {| in_title := trim (nullish (d_title bookmarkData) []);
     in_url := url;
     in_category := trimOrUndefined (d_category bookmarkData);
     in_description := trimOrUndefined (d_description bookmarkData);
     in_visible := visible |}.

(** One turn of [for (const bookmarkData of body.bookmarks)]: the
    error it pushes, if any. *)
Definition importOne (uuid : jsstring) (now : Z) (bookmarkData : BookmarkData)
    : M (option ImportError) :=
  if negb (truthy (d_title bookmarkData)) || negb (truthy (d_url bookmarkData))
  then ret (Some SkippedEmpty)
  else
    let url := sanitizeUrl (nullish (d_url bookmarkData) []) in
    if isEmpty url
    then ret (Some (SkippedBadUrl (nullish (d_title bookmarkData) [])))
    else
      tryCatch
        (match sqlBoolean (visibleOf bookmarkData) with
         | Returned visible =>
             createBookmark backupWriteJson uuid now
               (toInput bookmarkData url visible) ;;
             ret None
         | Thrown error =>
             (* [createBookmark] as far as its INSERT, which throws on the
                parameter for [visible] *)
             ensureTables ;;
             sql_query sql_next_order ;;
             throw error
         end)
        (fun error =>
           ret (Some (CreateFailed (nullish (d_title bookmarkData) []) error))).

(** The loop, from item [i] on; [uuidAt i] and [nowAt i] are what
    [randomUUID()] and [NOW()] give for item [i]. *)
Fixpoint importBookmarks (uuidAt : nat -> jsstring) (nowAt : nat -> Z) (i : nat)
    (items : list BookmarkData) (importedBookmarks : nat)
    (errors : list ImportError) : M (nat * list ImportError) :=
  match items with
  | [] => ret (importedBookmarks, errors)
  | bookmarkData :: rest =>
      r <- importOne (uuidAt i) (nowAt i) bookmarkData ;;
      match r with
      | None =>
          importBookmarks uuidAt nowAt (S i) rest (S importedBookmarks) errors
      | Some e =>
          importBookmarks uuidAt nowAt (S i) rest importedBookmarks (errors ++ [e])
      end
  end.

End WithBackupStorage.

(** *** The handler, from the parsed body on *)

Record ImportSettings := mkImportSettings {
  s_theme : option jsstring;
  s_siteTitle : option jsstring;
  s_siteIcon : option jsstring
}.

Record ImportRequestBody := mkBody {
  r_bookmarks : option (list BookmarkData);
  r_settings : option ImportSettings;
  r_overwrite : option bool
}.

(** What the handler pushes to [errors]. *)
Inductive HandlerError :=
| ClearFailed (e : Error)
| ItemError (e : ImportError)
| SettingsFailed (e : Error).

Record ImportResult := mkResult {
  success : bool;
  importedBookmarks : nat;
  updatedSettings : bool;
  totalBookmarks : nat;
  errors : option (list HandlerError)
}.

Inductive ImportReply :=
| Reply200 (r : ImportResult)
| Reply400
| Reply500 (e : Error).

(** [body.settings.theme] and the like, kept when truthy. *)
Definition whenTruthy (v : option jsstring) : option jsstring :=
  if truthy v then v else None.

Definition settingsUpdates (s : ImportSettings) : PartialSettings :=
  {| p_theme := whenTruthy (s_theme s);
     p_siteTitle := whenTruthy (s_siteTitle s);
     p_siteIcon := whenTruthy (s_siteIcon s) |}.

(** [Object.keys(updates).length > 0] *)
Definition hasKeys (u : PartialSettings) : bool :=
  match p_theme u, p_siteTitle u, p_siteIcon u with
  | None, None, None => false
  | _, _, _ => true
  end.

Section Handler.

Variable backupWriteJson : BackupWriter.

(** [for (const bookmark of existingBookmarks)]: the ids whose deletion
    threw, which the loop writes to the console. *)
Fixpoint deleteExisting (existing : list BookmarkRecord) (failed : list jsstring)
    : M (list jsstring) :=
  match existing with
  | [] => ret failed
  | bookmark :: rest =>
      failed' <- tryCatch
                   (deleteBookmark backupWriteJson (id bookmark) ;; ret failed)
                   (fun _ => ret (failed ++ [id bookmark])) ;;
      deleteExisting rest failed'
  end.

(** [if (body.overwrite && body.bookmarks) { ... }] *)
Definition clearExisting (body : ImportRequestBody) (errs : list HandlerError)
    : M (list HandlerError * list jsstring) :=
  match r_overwrite body, r_bookmarks body with
  | Some true, Some _ =>
      tryCatch
        (existingBookmarks <- listBookmarks ;;
         failed <- deleteExisting existingBookmarks [] ;;
         ret (errs, failed))
        (fun error => ret (errs ++ [ClearFailed error], []))
  | _, _ => ret (errs, [])
  end.

(** [if (body.settings) { ... }] *)
Definition importSettings (body : ImportRequestBody) (errs : list HandlerError)
    : M (bool * list HandlerError) :=
  match r_settings body with
  | None => ret (false, errs)
  | Some s =>
      tryCatch
        (let updates := settingsUpdates s in
         if hasKeys updates
         then updateSettings backupWriteJson updates ;; ret (true, errs)
         else ret (false, errs))
        (fun error => ret (false, errs ++ [SettingsFailed error]))
  end.

(** The handler of [POST /api/backup/import] after [requireAuth] and
    [parseJsonBody]: the reply, and the ids the clearing loop wrote to the
    console. *)
Definition importData (uuidAt : nat -> jsstring) (nowAt : nat -> Z)
    (body : ImportRequestBody) : M (ImportReply * list jsstring) :=
  tryCatch
    (match r_bookmarks body, r_settings body with
     | None, None => ret (Reply400, [])
     | _, _ =>
         cleared <- clearExisting body [] ;;
         imported <- importBookmarks backupWriteJson uuidAt nowAt 0
                       (nullish (r_bookmarks body) []) 0 [] ;;
         let errs := fst cleared ++ List.map ItemError (snd imported) in
         settled <- importSettings body errs ;;
         ret (Reply200
                {| success := true;
                   importedBookmarks := fst imported;
                   updatedSettings := fst settled;
                   totalBookmarks :=
                     List.length (nullish (r_bookmarks body) []);
                   errors := match snd settled with
                             | [] => None
                             | _ :: _ => Some (snd settled)
                             end |},
              snd cleared)
     end)
    (fun error => ret (Reply500 error, [])).

End Handler.

End ImportApi.

(** ** The export endpoint (src/unnamed/part_000) *)

Module ExportApi.

Import VercelDb.
Local Open Scope promise_scope.

Record ExportData := mkExport {
  e_bookmarks : list BookmarkRecord;
  e_settings : SettingsData
}.

(** [s || undefined] *)
Definition orUndefined (s : option jsstring) : option jsstring :=
  match s with
  | Some v => if isEmpty v then None else Some v
  | None => None
  end.

(** The handler after [requireAuth]: the payload it sends. *)
Definition exportData : M ExportData :=
  bookmarks <- listBookmarks ;;
  settings <- getSettings ;;
  ret {| e_bookmarks :=
           List.map (fun bookmark =>
                  {| id := id bookmark;
                     title := title bookmark;
                     url := url bookmark;
                     category := orUndefined (category bookmark);
                     description := orUndefined (description bookmark);
                     visible := visible bookmark |}) bookmarks;
         e_settings :=
           {| theme := theme settings;
              siteTitle := siteTitle settings;
              siteIcon := siteIcon settings |} |}.

(** The payload as the import endpoint parses it back. *)
Definition asImportBody (d : ExportData) (overwrite : bool)
    : ImportApi.ImportRequestBody :=
  {| ImportApi.r_bookmarks :=
       Some (List.map (fun b =>
               {| ImportApi.d_id := Some (id b);
                  ImportApi.d_title := Some (title b);
                  ImportApi.d_url := Some (url b);
                  ImportApi.d_category := category b;
                  ImportApi.d_description := description b;
                  ImportApi.d_visible := Some (ImportApi.JBool (visible b)) |}) (e_bookmarks d));
     ImportApi.r_settings :=
       Some {| ImportApi.s_theme := Some (theme (e_settings d));
               ImportApi.s_siteTitle := Some (siteTitle (e_settings d));
               ImportApi.s_siteIcon := Some (siteIcon (e_settings d)) |};
     ImportApi.r_overwrite := Some overwrite |}.

End ExportApi.

(** * Properties *)

Unset Implicit Arguments.

Import VercelDb.
Local Open Scope promise_scope.

(** ** Auxiliary definitions *)

(** What [ensureTables] leaves behind. *)
Definition initTables (w : World) : World :=
  if tablesInitialized w then w
  else with_initialized
         (match settings w with
          | Some _ => w
          | None => with_settings w (Some DEFAULT_SETTINGS)
          end) true.

(** Two worlds with the same database. *)
Definition same_db (w w' : World) : Prop :=
  bookmarks w' = bookmarks w /\ settings w' = settings w /\
  tablesInitialized w' = tablesInitialized w.

(** The loop of [UPDATE]s as a function on the table. *)
Fixpoint assign_orders (i : Z) (ids : list jsstring) (t : list Row) : list Row :=
  match ids with
  | [] => t
  | x :: rest => assign_orders (i + 1) rest (sql_update_order i x t)
  end.

Ltac run :=
  unfold bind, ret, gets, modify, tryCatch, throw, console_error,
    sql_query, sql_exec; simpl.

(** The row the loop leaves where [r] was. *)
Fixpoint final_row (i : Z) (ids : list jsstring) (r : Row) : Row :=
  match ids with
  | [] => r
  | x :: rest =>
      final_row (i + 1) rest (if eqb (row_id r) x then set_order r i else r)
  end.

(** [s], [s'], ... with [order] set to [i], [i+1], ... *)
Fixpoint number (i : Z) (l : list Row) : list Row :=
  match l with
  | [] => []
  | r :: rest => set_order r i :: number (i + 1) rest
  end.

(** The loop's [UPDATE] statements: index and id. *)
Fixpoint indexed (i : Z) (ids : list jsstring) : list (Z * jsstring) :=
  match ids with
  | [] => []
  | x :: rest => (i, x) :: indexed (i + 1) rest
  end.

Definition run_updates (us : list (Z * jsstring)) (t : list Row) : list Row :=
  fold_left (fun t u => sql_update_order (fst u) (snd u) t) us t.

(** Whether a bookmark of that id is stored. *)
Definition stored (t : list Row) (x : jsstring) : bool :=
  existsb (fun r => eqb (row_id r) x) t.

(** Two rows that agree on every column but [order]. *)
Definition same_but_order (r r' : Row) : Prop :=
  row_id r' = row_id r /\ row_title r' = row_title r /\
  row_url r' = row_url r /\ row_category r' = row_category r /\
  row_description r' = row_description r /\ row_visible r' = row_visible r /\
  row_created_at r' = row_created_at r.

(** *** A small database for concrete runs *)

Definition backupOk : BackupWriter :=
  fun k d _ s => Some (s ++ [(k, d)]).

Definition backupDown : BackupWriter :=
  fun _ _ _ _ => None.

Definition sampleRow (name cat : string) (o c : Z) : Row :=
  {| row_id := lit name; row_title := lit name;
     row_url := lit "https://" ++ lit name ++ lit ".example";
     row_category := Some (lit cat); row_description := None;
     row_visible := true; row_order := o; row_created_at := c |}.

Definition rowA : Row := sampleRow "a" "news" 0 100.
Definition rowB : Row := sampleRow "b" "tools" 1 101.
Definition rowC : Row := sampleRow "c" "news" 2 102.

Definition sampleWorld : World :=
  {| bookmarks := [rowA; rowB; rowC];
     settings := None;
     tablesInitialized := false;
     BACKUP_STORAGE_DRIVER := Some (lit "s3");
     backupStore := [];
     console := [] |}.

(** *** Category groups, by the keys the function computes *)

(** The values of a list, each once, in first-seen order. *)
Definition pushUnique (acc : list jsstring) (k : jsstring) : list jsstring :=
  if includes k acc then acc else acc ++ [k].

Definition distinct (l : list jsstring) : list jsstring :=
  fold_left pushUnique l [].

(** The elements of [l] whose key is [k], in the order [l] has them. *)
Definition group {A} (kf : A -> jsstring) (k : jsstring) (l : list A) : list A :=
  filter (fun a => eqb (kf a) k) l.

(** The bookmarks of category [k]. *)
Definition categoryGroup (k : jsstring) (bs : list BookmarkRecord)
    : list BookmarkRecord :=
  group bookmarkCategoryKey k bs.

(** The categories the bookmarks have, in first-seen order. *)
Definition existingCategories (bs : list BookmarkRecord) : list jsstring :=
  distinct (List.map bookmarkCategoryKey bs).

(** The requested names, normalized, those that match an existing
    category, each once. *)
Definition requestedCategories (order : list JS.value) (bs : list BookmarkRecord)
    : list jsstring :=
  distinct (filter (fun k => includes k (existingCategories bs))
                   (List.map normalizeCategoryKeyInput order)).

(** The target sequence: the requested categories, then the existing
    categories not mentioned, in their first-seen order. *)
Definition targetSequence (order : list JS.value) (bs : list BookmarkRecord)
    : list jsstring :=
  requestedCategories order bs ++
  filter (fun k => negb (includes k (requestedCategories order bs)))
         (existingCategories bs).

(** The bookmarks, group by group in the target sequence. *)
Definition groupedByTarget (order : list JS.value) (bs : list BookmarkRecord)
    : list BookmarkRecord :=
  flat_map (fun k => categoryGroup k bs) (targetSequence order bs).

(** *** Category groups, in the words of the specification *)

(** The category of a bookmark, normalized: its name without the white
    space around it.  A bookmark with no category, or a blank one, is in
    the default category, the empty name. *)
Definition categoryName (b : BookmarkRecord) : jsstring :=
  match category b with
  | Some c => trim c
  | None => []
  end.

(** The bookmarks of category [k], in the order the list has them. *)
Definition inCategory (k : jsstring) (bs : list BookmarkRecord)
    : list BookmarkRecord :=
  filter (fun b => eqb (categoryName b) k) bs.

(** The categories of the list, each once, in first-seen order. *)
Definition categoriesOf (bs : list BookmarkRecord) : list jsstring :=
  distinct (List.map categoryName bs).

(** The names of the sequence, trimmed, those that are a category of the
    list, each once, in the order given. *)
Definition requestedFirst (order : list jsstring) (bs : list BookmarkRecord)
    : list jsstring :=
  distinct (filter (fun k => includes k (categoriesOf bs)) (List.map trim order)).

(** The target sequence: these, then the categories not mentioned, in
    their first-seen order. *)
Definition categorySequence (order : list jsstring) (bs : list BookmarkRecord)
    : list jsstring :=
  requestedFirst order bs ++
  filter (fun k => negb (includes k (requestedFirst order bs))) (categoriesOf bs).

(** The bookmarks, group by group in the target sequence. *)
Definition groupsInSequence (order : list jsstring) (bs : list BookmarkRecord)
    : list BookmarkRecord :=
  flat_map (fun k => inCategory k bs) (categorySequence order bs).

(** [a] comes before [b] in [l]. *)
Definition precedes {A} (a b : A) (l : list A) : Prop :=
  exists l1 l2 l3, l = l1 ++ a :: l2 ++ b :: l3.

(** *** What [createBookmark] builds *)

Definition newBookmarkOf (uuid : jsstring) (data : BookmarkInput) : BookmarkRecord :=
  {| id := uuid;
     title := in_title data;
     url := in_url data;
     category := normalizeCategoryValue (in_category data);
     description := in_description data;
     visible := in_visible data |}.

Definition newRowOf (uuid : jsstring) (now : Z) (data : BookmarkInput)
    (t : list Row) : Row :=
  {| row_id := uuid;
     row_title := in_title data;
     row_url := in_url data;
     row_category := normalizeCategoryValue (in_category data);
     row_description := in_description data;
     row_visible := in_visible data;
     row_order := sql_next_order t;
     row_created_at := now |}.

Definition sampleInput : BookmarkInput :=
  {| in_title := lit "d"; in_url := lit "https://d.example";
     in_category := Some (lit " news "); in_description := None;
     in_visible := true |}.

Definition sampleStore : ApiDb.Store :=
  {| ApiDb.bookmarksDoc :=
       Some [ {| ApiDb.id := lit "a"; ApiDb.title := lit "a";
                 ApiDb.url := lit "https://a.example";
                 ApiDb.category := None; ApiDb.description := None;
                 ApiDb.visible := true;
                 ApiDb.createdAt := lit "2025-01-01T00:00:00.000Z";
                 ApiDb.updatedAt := lit "2025-01-01T00:00:00.000Z" |} ];
     ApiDb.settingsDoc := None |}.

(** *** Settings *)

(** What [getSettings] reads in a world. *)
Definition currentSettings (w : World) : SettingsData :=
  nullish (settings (initTables w)) DEFAULT_SETTINGS.

(** [{theme: "dark"}] *)
Definition themeDark : PartialSettings :=
  {| p_theme := Some (lit "dark"); p_siteTitle := None; p_siteIcon := None |}.

(** A partial update takes a field from the update where it has one. *)
Definition merged (current next : SettingsData) (partial : PartialSettings) : Prop :=
  theme next = match p_theme partial with Some v => v | None => theme current end /\
  siteTitle next =
    match p_siteTitle partial with Some v => v | None => siteTitle current end /\
  siteIcon next =
    match p_siteIcon partial with Some v => v | None => siteIcon current end.

(** *** Backup *)

(** Whether [BACKUP_STORAGE_DRIVER] names a backup store. *)
Definition backupConfigured (w : World) : bool :=
  match BACKUP_STORAGE_DRIVER w with
  | None => false
  | Some d => negb (isEmpty d || eqb d (lit "none"))
  end.

(** An operation whose result and database are the ones it has when the
    backup store works, whatever the backup store does. *)
Definition unaffected_by_backup {A} (op : BackupWriter -> M A) : Prop :=
  forall (bw : BackupWriter) (w : World),
    fst (op bw w) = fst (op backupOk w) /\
    same_db (snd (op backupOk w)) (snd (op bw w)).

(** An operation that returns, whatever the backup store does. *)
Definition always_returns {A} (op : BackupWriter -> M A) : Prop :=
  forall (bw : BackupWriter) (w : World),
    exists v w', op bw w = (Returned v, w').

(** *** Requests for concrete runs *)

Definition sampleFiles : Backend.Files :=
  {| Backend.bookmarksFile := Some []; Backend.writable := true |}.

Definition bodyOf (title url : JS.value) : Backend.Body :=
  {| Backend.b_title := title; Backend.b_url := url;
     Backend.b_category := VUndefined; Backend.b_description := VUndefined;
     Backend.b_visible := VUndefined |}.

Definition sampleData : ImportApi.BookmarkData :=
  {| ImportApi.d_id := None;
     ImportApi.d_title := Some (lit "Example");
     ImportApi.d_url := Some (lit "example.com");
     ImportApi.d_category := None;
     ImportApi.d_description := None;
     ImportApi.d_visible := None |}.

(** *** Items of an import *)

(** An item the import takes: title and url are there and not empty, and
    the url is not blank. *)
Definition importable (d : ImportApi.BookmarkData) : Prop :=
  ImportApi.truthy (ImportApi.d_title d) = true /\
  ImportApi.truthy (ImportApi.d_url d) = true /\
  trim (nullish (ImportApi.d_url d) []) <> [].

(** An item of the declared type: its [visible] is absent or a boolean. *)
Definition typedVisible (d : ImportApi.BookmarkData) : Prop :=
  match ImportApi.d_visible d with
  | None | Some (ImportApi.JBool _) => True
  | Some _ => False
  end.

(** The [visible] of such an item, [true] when it has none. *)
Definition givenOrTrue (d : ImportApi.BookmarkData) : bool :=
  match ImportApi.d_visible d with
  | Some (ImportApi.JBool b) => b
  | _ => true
  end.

(** The row for item [d] under id [ident], on order [o], with [visible]
    as [v]. *)
Definition itemRow (ident : jsstring) (now o : Z) (d : ImportApi.BookmarkData)
    (v : bool) : Row :=
  {| row_id := ident;
     row_title := trim (nullish (ImportApi.d_title d) []);
     row_url := ImportApi.sanitizeUrl (nullish (ImportApi.d_url d) []);
     row_category := ImportApi.trimOrUndefined (ImportApi.d_category d);
     row_description := ImportApi.trimOrUndefined (ImportApi.d_description d);
     row_visible := v;
     row_order := o;
     row_created_at := now |}.

(** The rows for the items under the ids [uuidAt i], [uuidAt (i+1)], ...
    on the orders [o], [o+1], ... *)
Fixpoint itemRows (uuidAt : nat -> jsstring) (nowAt : nat -> Z)
    (vis : ImportApi.BookmarkData -> bool) (i : nat) (o : Z)
    (items : list ImportApi.BookmarkData) : list Row :=
  match items with
  | [] => []
  | d :: rest =>
      itemRow (uuidAt i) (nowAt i) o d (vis d) ::
      itemRows uuidAt nowAt vis (S i) (o + 1) rest
  end.

(** The values of an item that reach TEXT columns are ones the columns
    hold as they are. *)
Definition itemText (d : ImportApi.BookmarkData) : Prop :=
  pgTextOpt (ImportApi.d_title d) = true /\
  pgTextOpt (ImportApi.d_url d) = true /\
  pgTextOpt (ImportApi.d_category d) = true /\
  pgTextOpt (ImportApi.d_description d) = true.

(** The same for the fields of a [BookmarkInput]. *)
Definition inputText (data : BookmarkInput) : Prop :=
  pgText (in_title data) = true /\ pgText (in_url data) = true /\
  pgTextOpt (in_category data) = true /\ pgTextOpt (in_description data) = true.

(** An item with a [visible] of its own. *)
Definition sampleDataWith (v : ImportApi.JsonValue) : ImportApi.BookmarkData :=
  {| ImportApi.d_id := None;
     ImportApi.d_title := Some (lit "Example");
     ImportApi.d_url := Some (lit "example.com");
     ImportApi.d_category := None;
     ImportApi.d_description := None;
     ImportApi.d_visible := Some v |}.

(** A create request with a [visible] of its own. *)
Definition bodyVisible (title url visible : JS.value) : Backend.Body :=
  {| Backend.b_title := title; Backend.b_url := url;
     Backend.b_category := VUndefined; Backend.b_description := VUndefined;
     Backend.b_visible := visible |}.

(** Ids for concrete runs: "id-a", "id-b", ... *)
Definition sampleIdAt (i : nat) : jsstring := lit "id-" ++ [(97 + N.of_nat i)%N].

(** ** More of the code: auxiliary definitions *)

From Stdlib Require Import Sorted.

(** Rows in the order of [ORDER BY "order" ASC, created_at ASC]. *)
Definition rows_sorted (l : list Row) : Prop :=
  StronglySorted (fun a b => row_le a b = true) l.

(** The record [updateBookmark] answers for [data] on id [ident]. *)
Definition updatedRecord (ident : jsstring) (data : BookmarkInput) : BookmarkRecord :=
  {| id := ident;
     title := in_title data;
     url := in_url data;
     category := normalizeCategoryValue (in_category data);
     description := in_description data;
     visible := in_visible data |}.

(** A text field as the express handlers store it: absent, or not empty
    and without white space at either end. *)
Definition clean (o : option jsstring) : Prop :=
  match o with
  | None => True
  | Some t => t <> [] /\ trim t = t
  end.

Definition sampleFiles2 : Backend.Files :=
  {| Backend.bookmarksFile :=
       Some [ {| Backend.id := lit "a"; Backend.title := Some (lit "A");
                 Backend.url := lit "https://a.example";
                 Backend.category := None; Backend.description := None;
                 Backend.visible := false;
                 Backend.createdAt := lit "2025-01-01T00:00:00.000Z";
                 Backend.updatedAt := lit "2025-01-01T00:00:00.000Z" |} ];
     Backend.writable := true |}.

(** An import request with bookmarks and no settings. *)
Definition bookmarksBody (items : list ImportApi.BookmarkData)
    (overwrite : option bool) : ImportApi.ImportRequestBody :=
  {| ImportApi.r_bookmarks := Some items;
     ImportApi.r_settings := None;
     ImportApi.r_overwrite := overwrite |}.

(** Whether the handler clears the table first. *)
Definition overwrites (body : ImportApi.ImportRequestBody) : bool :=
  match ImportApi.r_overwrite body, ImportApi.r_bookmarks body with
  | Some true, Some _ => true
  | _, _ => false
  end.

(** The partial update the handler sends to [updateSettings], if any. *)
Definition importedSettings (body : ImportApi.ImportRequestBody)
    : option PartialSettings :=
  match ImportApi.r_settings body with
  | Some s =>
      if ImportApi.hasKeys (ImportApi.settingsUpdates s)
      then Some (ImportApi.settingsUpdates s) else None
  | None => None
  end.

Definition sampleUuidAt (i : nat) : jsstring := lit "new-" ++ [(48 + N.of_nat i)%N].
Definition sampleNowAt (i : nat) : Z := (200 + Z.of_nat i)%Z.



Definition blankUrlData : ImportApi.BookmarkData :=
  {| ImportApi.d_id := None;
     ImportApi.d_title := Some (lit "Example");
     ImportApi.d_url := Some (lit "   ");
     ImportApi.d_category := None;
     ImportApi.d_description := None;
     ImportApi.d_visible := None |}.

(** *** Export and import *)

(** A bookmark that the import stores as it finds it: title and
    description trimmed and not empty, url trimmed, not empty and with its
    scheme. *)
Definition importClean (b : BookmarkRecord) : Prop :=
  title b <> [] /\ trim (title b) = title b /\
  url b <> [] /\ ImportApi.sanitizeUrl (url b) = url b /\
  ImportApi.trimOrUndefined (description b) = description b.

(** The bookmarks under the ids [uuidAt i], [uuidAt (i+1)], ... *)
Fixpoint reidentified (uuidAt : nat -> jsstring) (i : nat) (l : list BookmarkRecord)
    : list BookmarkRecord :=
  match l with
  | [] => []
  | b :: rest =>
      {| id := uuidAt i; title := title b; url := url b;
         category := category b; description := description b;
         visible := visible b |} :: reidentified uuidAt (S i) rest
  end.

(** An exported bookmark as an item of the import request. *)
Definition dataOf (b : BookmarkRecord) : ImportApi.BookmarkData :=
  {| ImportApi.d_id := Some (id b);
     ImportApi.d_title := Some (title b);
     ImportApi.d_url := Some (url b);
     ImportApi.d_category := category b;
     ImportApi.d_description := description b;
     ImportApi.d_visible := Some (ImportApi.JBool (visible b)) |}.

Definition cleanRow (name cat : string) (o c : Z) : Row :=
  {| row_id := lit name; row_title := lit name;
     row_url := lit "https://" ++ lit name ++ lit ".example";
     row_category := Some (lit cat); row_description := Some (lit "about");
     row_visible := false; row_order := o; row_created_at := c |}.

Definition cleanWorld : World :=
  {| bookmarks := [cleanRow "a" "news" 5 100; cleanRow "b" "tools" 2 101];
     settings := Some {| theme := lit "dark"; siteTitle := lit "Marks";
                         siteIcon := [] |};
     tablesInitialized := true;
     BACKUP_STORAGE_DRIVER := None;
     backupStore := [];
     console := [] |}.

Definition cleanList : list BookmarkRecord :=
  List.map rowToRecord [cleanRow "b" "tools" 2 101; cleanRow "a" "news" 5 100].

(** *** Values the columns hold *)

(** What [createBookmark] is about to store are values the columns hold
    as they are: see [pgText] and [INT4_MAX]. *)
Definition insertable (uuid : jsstring) (data : BookmarkInput) (t : list Row)
    : Prop :=
  pgText uuid = true /\ inputText data /\ (sql_next_order t <= INT4_MAX)%Z.

(** A bookmark as the express handlers store it. *)
Definition cleanBookmark (b : Backend.Bookmark) : Prop :=
  clean (Backend.title b) /\ clean (Backend.category b) /\
  clean (Backend.description b) /\ trim (Backend.url b) = Backend.url b.

(** ** Strings *)

Lemma eqb_eq (a b : jsstring) : eqb a b = true <-> a = b.
Proof.
  unfold eqb. destruct (list_eq_dec N.eq_dec a b); split; congruence.
Qed.

Lemma eqb_neq (a b : jsstring) : eqb a b = false <-> a <> b.
Proof.
  unfold eqb. destruct (list_eq_dec N.eq_dec a b); split; congruence.
Qed.

Lemma eqb_refl (a : jsstring) : eqb a a = true.
Proof. now apply eqb_eq. Qed.

Lemma eqb_sym (a b : jsstring) : eqb a b = eqb b a.
Proof.
  destruct (eqb b a) eqn:E.
  - apply eqb_eq in E. subst. apply eqb_refl.
  - apply eqb_neq in E. apply eqb_neq. congruence.
Qed.

Lemma includes_In (k : jsstring) (l : list jsstring) :
  includes k l = true <-> In k l.
Proof.
  unfold includes. rewrite existsb_exists. split.
  - intros [x [Hx He]]. apply eqb_eq in He. now subst.
  - intros H. exists k. split; [assumption | apply eqb_refl].
Qed.

Lemma includes_not_In (k : jsstring) (l : list jsstring) :
  includes k l = false <-> ~ In k l.
Proof.
  rewrite <- includes_In. destruct (includes k l); split; congruence.
Qed.

(** ** Running the promises of db.ts *)


Lemma ensureTables_run (w : World) :
  ensureTables w = (Returned tt, initTables w).
Proof.
  unfold ensureTables, initTables. run.
  destruct (tablesInitialized w); reflexivity.
Qed.

Lemma initTables_bookmarks (w : World) : bookmarks (initTables w) = bookmarks w.
Proof.
  unfold initTables. destruct (tablesInitialized w); [reflexivity|].
  destruct (settings w); reflexivity.
Qed.

Lemma initTables_initialized (w : World) : tablesInitialized (initTables w) = true.
Proof.
  unfold initTables. destruct (tablesInitialized w) eqn:E; [assumption|reflexivity].
Qed.

Lemma initTables_idem (w : World) : initTables (initTables w) = initTables w.
Proof.
  unfold initTables at 1. now rewrite initTables_initialized.
Qed.

Lemma initTables_settings (w : World) :
  settings (initTables w) =
  if tablesInitialized w then settings w
  else Some (nullish (settings w) DEFAULT_SETTINGS).
Proof.
  unfold initTables. destruct (tablesInitialized w); [reflexivity|].
  destruct (settings w) eqn:E; simpl; [exact E | reflexivity].
Qed.

Lemma initTables_with_bookmarks (w : World) (t : list Row) :
  initTables (with_bookmarks w t) = with_bookmarks (initTables w) t.
Proof.
  unfold initTables. simpl. destruct (tablesInitialized w); [reflexivity|].
  destruct (settings w); reflexivity.
Qed.

Lemma update_orders_run (ids : list jsstring) (i : Z) (w : World) :
  update_orders i ids w =
  (Returned tt, with_bookmarks w (assign_orders i ids (bookmarks w))).
Proof.
  revert i w. induction ids as [|x rest IH]; intros i w; simpl.
  - unfold ret. destruct w; reflexivity.
  - run. rewrite IH. simpl. reflexivity.
Qed.

Section Runs.

Variable bw : BackupWriter.

Lemma backupData_run (k : BackupKey) (d : BackupPayload) (w : World) :
  exists w', backupData bw k d w = (Returned tt, w') /\ same_db w w'.
Proof.
  unfold backupData, backupWrite, same_db. run.
  destruct (BACKUP_STORAGE_DRIVER w) as [drv|].
  - destruct (isEmpty drv || eqb drv (lit "none")).
    + eexists; split; [reflexivity|]. auto.
    + destruct (bw k d drv (backupStore w)); eexists; (split; [reflexivity|]);
        simpl; auto.
  - eexists; split; [reflexivity|]. auto.
Qed.

Lemma readBookmarksFromDb_run (w : World) :
  readBookmarksFromDb w =
  (Returned (List.map rowToRecord (orderBy (bookmarks w))), initTables w).
Proof.
  unfold readBookmarksFromDb. unfold bind at 1. rewrite ensureTables_run.
  run. unfold sql_select_all. now rewrite initTables_bookmarks.
Qed.

Lemma reorderBookmarks_run (order : list jsstring) (w : World) :
  exists w',
    reorderBookmarks bw order w =
    (Returned (List.map rowToRecord
                 (orderBy (assign_orders 0 order (bookmarks w)))), w') /\
    same_db (with_bookmarks (initTables w)
               (assign_orders 0 order (bookmarks w))) w'.
Proof.
  unfold reorderBookmarks. unfold bind at 1. rewrite ensureTables_run.
  unfold bind at 1. unfold tryCatch. rewrite update_orders_run.
  unfold bind at 1. rewrite readBookmarksFromDb_run.
  rewrite initTables_with_bookmarks, initTables_idem, initTables_bookmarks.
  simpl bookmarks.
  unfold bind at 1.
  destruct (backupData_run KBookmarks
    (PBookmarks (List.map rowToRecord (orderBy (assign_orders 0 order (bookmarks w)))))
    (with_bookmarks (initTables w) (assign_orders 0 order (bookmarks w))))
    as [w' [Hrun Hsame]].
  rewrite Hrun. exists w'. split; [reflexivity | exact Hsame].
Qed.

End Runs.

(** ** The loop of [UPDATE]s, row by row *)


Lemma assign_orders_map (ids : list jsstring) (i : Z) (t : list Row) :
  assign_orders i ids t = List.map (final_row i ids) t.
Proof.
  revert i t. induction ids as [|x rest IH]; intros i t; simpl.
  - now rewrite map_id.
  - rewrite IH. unfold sql_update_order. now rewrite map_map.
Qed.

Lemma final_row_id (ids : list jsstring) (i : Z) (r : Row) :
  row_id (final_row i ids r) = row_id r.
Proof.
  revert i r. induction ids as [|x rest IH]; intros i r; simpl; [reflexivity|].
  rewrite IH. destruct (eqb (row_id r) x); reflexivity.
Qed.

Lemma final_row_not_in (ids : list jsstring) (i : Z) (r : Row) :
  ~ In (row_id r) ids -> final_row i ids r = r.
Proof.
  revert i r. induction ids as [|x rest IH]; intros i r Hn; simpl; [reflexivity|].
  destruct (eqb (row_id r) x) eqn:E.
  - apply eqb_eq in E. exfalso. apply Hn. now left.
  - apply IH. intro H. apply Hn. now right.
Qed.

Lemma set_order_set_order (r : Row) (a b : Z) :
  set_order (set_order r a) b = set_order r b.
Proof. reflexivity. Qed.

Lemma set_order_same (r : Row) : set_order r (row_order r) = r.
Proof. destruct r; reflexivity. Qed.

(** The loop only ever sets the [order] column. *)
Lemma final_row_set_order (ids : list jsstring) (i : Z) (r : Row) :
  final_row i ids r = set_order r (row_order (final_row i ids r)).
Proof.
  revert i r. induction ids as [|x rest IH]; intros i r; simpl.
  - symmetry. apply set_order_same.
  - destruct (eqb (row_id r) x).
    + rewrite IH at 1. now rewrite set_order_set_order.
    + apply IH.
Qed.

(** Once an id is named, the order the row had before does not matter. *)
Lemma final_row_in (ids : list jsstring) (i o : Z) (r : Row) :
  In (row_id r) ids -> final_row i ids (set_order r o) = final_row i ids r.
Proof.
  revert i o r. induction ids as [|x rest IH]; intros i o r Hin; simpl.
  - destruct Hin.
  - change (row_id (set_order r o)) with (row_id r).
    destruct (eqb (row_id r) x) eqn:E.
    + now rewrite set_order_set_order.
    + apply IH. destruct Hin as [H|H]; [|assumption].
      apply eqb_neq in E. congruence.
Qed.

Lemma final_row_idem (ids : list jsstring) (i : Z) (r : Row) :
  final_row i ids (final_row i ids r) = final_row i ids r.
Proof.
  destruct (in_dec (list_eq_dec N.eq_dec) (row_id r) ids) as [Hin|Hn].
  - rewrite (final_row_set_order ids i r) at 1. now apply final_row_in.
  - rewrite (final_row_not_in ids i r Hn). now apply final_row_not_in.
Qed.

Lemma assign_orders_idem (ids : list jsstring) (i : Z) (t : list Row) :
  assign_orders i ids (assign_orders i ids t) = assign_orders i ids t.
Proof.
  rewrite !assign_orders_map, map_map. apply map_ext.
  intro r. apply final_row_idem.
Qed.

Lemma assign_orders_ids (ids : list jsstring) (i : Z) (t : list Row) :
  List.map row_id (assign_orders i ids t) = List.map row_id t.
Proof.
  rewrite assign_orders_map, map_map. apply map_ext.
  intro r. apply final_row_id.
Qed.

(** Naming the rows of [s] in their own order numbers them. *)
Lemma assign_orders_number (s : list Row) (i : Z) :
  NoDup (List.map row_id s) ->
  assign_orders i (List.map row_id s) s = number i s.
Proof.
  revert i. induction s as [|r rest IH]; intros i Hnd; simpl; [reflexivity|].
  inversion Hnd as [|? ? Hnotin Hnd']; subst.
  rewrite eqb_refl.
  assert (Hrest : sql_update_order i (row_id r) rest = rest).
  { unfold sql_update_order. rewrite <- (map_id rest) at 2.
    apply map_ext_in. intros x Hx.
    destruct (eqb (row_id x) (row_id r)) eqn:E; [|reflexivity].
    apply eqb_eq in E. exfalso. apply Hnotin. rewrite <- E.
    now apply in_map. }
  rewrite Hrest. rewrite assign_orders_map. simpl.
  rewrite final_row_not_in by exact Hnotin.
  f_equal. rewrite <- assign_orders_map. now apply IH.
Qed.

Lemma number_records (s : list Row) (i : Z) :
  List.map rowToRecord (number i s) = List.map rowToRecord s.
Proof.
  revert i. induction s as [|r rest IH]; intros i; simpl; [reflexivity|].
  now rewrite IH.
Qed.

Lemma number_orders (s : list Row) (i : Z) :
  List.map row_order (number i s) =
  List.map (fun k => (i + Z.of_nat k)%Z) (seq 0 (List.length s)).
Proof.
  revert i. induction s as [|r rest IH]; intros i; simpl; [reflexivity|].
  f_equal; [lia|]. rewrite IH, <- seq_shift, map_map.
  apply map_ext. intro k. lia.
Qed.

Lemma NoDup_map_inj {A B} (f : A -> B) (l : list A) :
  (forall a b, f a = f b -> a = b) -> NoDup l -> NoDup (List.map f l).
Proof.
  intros Hinj Hnd. induction Hnd as [|x l Hx Hnd IH]; simpl; constructor.
  - intro Hin. apply in_map_iff in Hin. destruct Hin as [y [Hy Hin]].
    apply Hinj in Hy. now subst.
  - exact IH.
Qed.

Lemma number_orders_NoDup (s : list Row) (i : Z) :
  NoDup (List.map row_order (number i s)).
Proof.
  rewrite number_orders. apply NoDup_map_inj.
  - intros a b H. lia.
  - apply seq_NoDup.
Qed.

(** ** [ORDER BY] *)

Lemma insertRow_comm (a b : Row) (l : list Row) :
  row_order a <> row_order b ->
  insertRow a (insertRow b l) = insertRow b (insertRow a l).
Proof.
  intro Hab. induction l as [|x xs IH]; simpl.
  - unfold row_le.
    destruct (Z.ltb_spec (row_order a) (row_order b));
    destruct (Z.ltb_spec (row_order b) (row_order a));
    destruct (Z.eqb_spec (row_order a) (row_order b));
    destruct (Z.eqb_spec (row_order b) (row_order a));
    simpl; try reflexivity; lia.
  - destruct (row_le b x) eqn:Ebx; destruct (row_le a x) eqn:Eax; simpl;
      rewrite ?Ebx, ?Eax;
      destruct (row_le a b) eqn:Eab; destruct (row_le b a) eqn:Eba;
      try reflexivity; try (now rewrite IH);
      exfalso; revert Ebx Eax Eab Eba; unfold row_le;
      destruct (Z.ltb_spec (row_order a) (row_order b));
      destruct (Z.ltb_spec (row_order b) (row_order a));
      destruct (Z.ltb_spec (row_order a) (row_order x));
      destruct (Z.ltb_spec (row_order b) (row_order x));
      destruct (Z.eqb_spec (row_order a) (row_order b));
      destruct (Z.eqb_spec (row_order b) (row_order a));
      destruct (Z.eqb_spec (row_order a) (row_order x));
      destruct (Z.eqb_spec (row_order b) (row_order x));
      simpl; try discriminate; try lia.
Qed.

Lemma insertRow_Permutation (r : Row) (l : list Row) :
  Permutation (insertRow r l) (r :: l).
Proof.
  induction l as [|x xs IH]; simpl; [reflexivity|].
  destruct (row_le r x); [reflexivity|].
  rewrite IH. apply perm_swap.
Qed.

Lemma orderBy_Permutation (l : list Row) : Permutation (orderBy l) l.
Proof.
  induction l as [|x xs IH]; simpl; [reflexivity|].
  rewrite insertRow_Permutation. now constructor.
Qed.

(** With no two rows on the same [order], the result does not depend on
    how the table holds its rows. *)
Lemma orderBy_perm (l l' : list Row) :
  Permutation l l' -> NoDup (List.map row_order l) -> orderBy l = orderBy l'.
Proof.
  induction 1 as [|x l l' Hp IH|x y l|l l' l'' Hp1 IH1 Hp2 IH2]; intro Hnd.
  - reflexivity.
  - simpl. simpl in Hnd. inversion Hnd; subst. now rewrite IH.
  - simpl. simpl in Hnd. apply insertRow_comm.
    inversion Hnd as [|? ? Hnotin _]; subst.
    intro E. apply Hnotin. left. now symmetry.
  - rewrite IH1 by assumption. apply IH2.
    eapply Permutation_NoDup; [|exact Hnd]. now apply Permutation_map.
Qed.

Lemma orderBy_number (s : list Row) (i : Z) : orderBy (number i s) = number i s.
Proof.
  revert i. induction s as [|r rest IH]; intros i; simpl; [reflexivity|].
  change (fold_right insertRow [] (number (i + 1) rest))
    with (orderBy (number (i + 1) rest)).
  rewrite IH. destruct rest as [|r' rest']; simpl; [reflexivity|].
  unfold row_le. simpl.
  destruct (Z.ltb_spec i (i + 1)); [reflexivity | lia].
Qed.

(** After the loop has named every row once, [ORDER BY] lists the rows in
    the order they were named. *)
Lemma orderBy_assign (t s : list Row) (i : Z) :
  Permutation t s -> NoDup (List.map row_id s) ->
  orderBy (assign_orders i (List.map row_id s) t) = number i s.
Proof.
  intros Hp Hnd.
  rewrite <- (orderBy_number s i).
  rewrite <- (assign_orders_number s i Hnd).
  assert (Hp' : Permutation (assign_orders i (List.map row_id s) s)
                            (assign_orders i (List.map row_id s) t)).
  { rewrite !assign_orders_map. apply Permutation_map. now symmetry. }
  symmetry. apply orderBy_perm; [exact Hp'|].
  rewrite assign_orders_number by exact Hnd. apply number_orders_NoDup.
Qed.

Lemma insertRow_snoc (x r : Row) (l : list Row) :
  (row_order x < row_order r)%Z ->
  insertRow x (l ++ [r]) = insertRow x l ++ [r].
Proof.
  intro Hlt. induction l as [|y ys IH]; simpl.
  - unfold row_le. destruct (Z.ltb_spec (row_order x) (row_order r)); [reflexivity|lia].
  - destruct (row_le x y); [reflexivity|]. now rewrite IH.
Qed.

(** A row above every stored [order] is listed last. *)
Lemma orderBy_snoc (l : list Row) (r : Row) :
  (forall x, In x l -> (row_order x < row_order r)%Z) ->
  orderBy (l ++ [r]) = orderBy l ++ [r].
Proof.
  induction l as [|x xs IH]; intro H; simpl; [reflexivity|].
  change (fold_right insertRow [] (xs ++ [r])) with (orderBy (xs ++ [r])).
  rewrite IH by (intros y Hy; apply H; now right).
  apply insertRow_snoc. apply H. now left.
Qed.

Lemma fold_max_ge (l : list Row) (m : Z) :
  (m <= fold_left (fun m x => Z.max m (row_order x)) l m)%Z /\
  (forall x, In x l -> (row_order x <= fold_left (fun m x => Z.max m (row_order x)) l m)%Z).
Proof.
  revert m. induction l as [|y ys IH]; intro m; simpl.
  - split; [lia | intros x []].
  - destruct (IH (Z.max m (row_order y))) as [H1 H2]. split; [lia|].
    intros x [E|Hin]; [subst; lia | now apply H2].
Qed.

Lemma sql_next_order_above (t : list Row) (x : Row) :
  In x t -> (row_order x < sql_next_order t)%Z.
Proof.
  unfold sql_next_order, sql_max_order. destruct t as [|r rest]; [intros []|].
  simpl. destruct (fold_max_ge rest (row_order r)) as [H1 H2].
  intros [E|Hin]; [subst; lia|]. specialize (H2 x Hin). lia.
Qed.

(** ** reorderBookmarks *)

Lemma stored_In (t : list Row) (x : jsstring) :
  stored t x = true <-> In x (List.map row_id t).
Proof.
  unfold stored. rewrite existsb_exists, in_map_iff. split.
  - intros [r [Hin E]]. apply eqb_eq in E. now exists r.
  - intros [r [E Hin]]. exists r. split; [assumption|]. now apply eqb_eq.
Qed.

Lemma sql_update_order_unmatched (i : Z) (x : jsstring) (t : list Row) :
  stored t x = false -> sql_update_order i x t = t.
Proof.
  intro H. unfold sql_update_order. rewrite <- (map_id t) at 2.
  apply map_ext_in. intros r Hr.
  destruct (eqb (row_id r) x) eqn:E; [|reflexivity].
  exfalso. assert (stored t x = true); [|congruence].
  unfold stored. apply existsb_exists. now exists r.
Qed.

Lemma stored_sql_update_order (i : Z) (x y : jsstring) (t : list Row) :
  stored (sql_update_order i x t) y = stored t y.
Proof.
  unfold stored, sql_update_order. induction t as [|r rest IH]; simpl; [reflexivity|].
  rewrite IH. destruct (eqb (row_id r) x); reflexivity.
Qed.

Lemma assign_orders_run_updates (ids : list jsstring) (i : Z) (t : list Row) :
  assign_orders i ids t = run_updates (indexed i ids) t.
Proof.
  revert i t. induction ids as [|x rest IH]; intros i t; simpl; [reflexivity|].
  now rewrite IH.
Qed.

Lemma run_updates_matched (us : list (Z * jsstring)) (t : list Row) :
  run_updates us t = run_updates (filter (fun u => stored t (snd u)) us) t.
Proof.
  revert t. induction us as [|[i x] rest IH]; intro t; simpl; [reflexivity|].
  destruct (stored t x) eqn:E; simpl.
  - unfold run_updates in *. rewrite IH. f_equal.
    apply filter_ext. intro u. apply stored_sql_update_order.
  - unfold run_updates in *. simpl.
    rewrite sql_update_order_unmatched by exact E. apply IH.
Qed.

Lemma final_row_same_but_order (ids : list jsstring) (i : Z) (r : Row) :
  same_but_order r (final_row i ids r).
Proof.
  rewrite final_row_set_order. unfold same_but_order. simpl. auto 10.
Qed.

(** C10: [reorderBookmarks] changes nothing but the [order] column: the
    table keeps its rows, each with the same id, title, url, category,
    description, visible and created_at; and the table it leaves is the
    one obtained by running only the UPDATEs whose id matches a stored
    bookmark, so an id that matches none changes nothing at all. *)
Theorem reorderBookmarks_only_order :
  forall bw (order : list jsstring) (w : World),
  exists v w',
    reorderBookmarks bw order w = (Returned v, w') /\
    Forall2 same_but_order (bookmarks w) (bookmarks w') /\
    List.map row_id (bookmarks w') = List.map row_id (bookmarks w) /\
    bookmarks w' =
      run_updates (filter (fun u => stored (bookmarks w) (snd u)) (indexed 0 order))
                  (bookmarks w).
Proof.
  intros bw order w.
  destruct (reorderBookmarks_run bw order w) as [w' [Hrun [Hb _]]].
  simpl in Hb. eexists; exists w'. split; [exact Hrun|]. rewrite Hb.
  split; [|split].
  - rewrite assign_orders_map. generalize (bookmarks w) as t. clear.
    induction t as [|r rest IH]; simpl; constructor.
    + apply final_row_same_but_order.
    + exact IH.
  - apply assign_orders_ids.
  - rewrite assign_orders_run_updates. apply run_updates_matched.
Qed.

(** C5: [reorderBookmarks] is idempotent.  With the ids of the current
    list, in their order, it returns that list and leaves it as the list;
    and called a second time with the same sequence it returns what it
    returned the first time. *)
Theorem reorderBookmarks_idempotent :
  forall bw (w : World),
    NoDup (List.map row_id (bookmarks w)) ->
    forall current w0,
      listBookmarks w = (Returned current, w0) ->
      (exists w1,
         reorderBookmarks bw (List.map id current) w0 = (Returned current, w1) /\
         fst (listBookmarks w1) = Returned current) /\
      (forall order : list jsstring,
         exists v w1 w2,
           reorderBookmarks bw order w0 = (Returned v, w1) /\
           reorderBookmarks bw order w1 = (Returned v, w2) /\
           fst (listBookmarks w2) = Returned v).
Proof.
  intros bw w Hpk current w0 Hlist.
  unfold listBookmarks in Hlist. rewrite readBookmarksFromDb_run in Hlist.
  inversion Hlist; subst current w0; clear Hlist.
  assert (Hids : List.map id (List.map rowToRecord (orderBy (bookmarks w)))
                 = List.map row_id (orderBy (bookmarks w))).
  { rewrite map_map. reflexivity. }
  assert (Hnd : NoDup (List.map row_id (orderBy (bookmarks w)))).
  { eapply Permutation_NoDup; [|exact Hpk].
    apply Permutation_map. symmetry. apply orderBy_Permutation. }
  split.
  - destruct (reorderBookmarks_run bw
               (List.map id (List.map rowToRecord (orderBy (bookmarks w))))
               (initTables w)) as [w1 [Hrun [Hb _]]].
    rewrite initTables_bookmarks in Hrun, Hb. simpl in Hb.
    rewrite Hids in Hrun, Hb.
    rewrite orderBy_assign in Hrun
      by (auto; symmetry; apply orderBy_Permutation).
    rewrite number_records in Hrun.
    exists w1. rewrite Hids. split; [exact Hrun|].
    unfold listBookmarks. rewrite readBookmarksFromDb_run. simpl.
    rewrite Hb, orderBy_assign by (auto; symmetry; apply orderBy_Permutation).
    now rewrite number_records.
  - intro order.
    destruct (reorderBookmarks_run bw order (initTables w)) as [w1 [Hrun1 [Hb1 _]]].
    destruct (reorderBookmarks_run bw order w1) as [w2 [Hrun2 [Hb2 _]]].
    simpl in Hb1, Hb2. rewrite Hb1 in Hrun2, Hb2.
    rewrite assign_orders_idem in Hrun2, Hb2.
    eexists; exists w1, w2. split; [exact Hrun1|]. split; [exact Hrun2|].
    unfold listBookmarks. rewrite readBookmarksFromDb_run. simpl.
    now rewrite Hb2.
Qed.

Lemma sampleWorld_ids : NoDup (List.map row_id (bookmarks sampleWorld)).
Proof.
  simpl. repeat constructor; simpl; intuition discriminate.
Qed.

Lemma reorderBookmarks_idempotent_witness :
  NoDup (List.map row_id (bookmarks sampleWorld)) /\
  listBookmarks sampleWorld =
    (Returned (List.map rowToRecord [rowA; rowB; rowC]), initTables sampleWorld) /\
  ((exists w1,
      reorderBookmarks backupDown
        (List.map id (List.map rowToRecord [rowA; rowB; rowC]))
        (initTables sampleWorld)
      = (Returned (List.map rowToRecord [rowA; rowB; rowC]), w1) /\
      fst (listBookmarks w1) = Returned (List.map rowToRecord [rowA; rowB; rowC])) /\
   (forall order : list jsstring,
      exists v w1 w2,
        reorderBookmarks backupDown order (initTables sampleWorld) = (Returned v, w1) /\
        reorderBookmarks backupDown order w1 = (Returned v, w2) /\
        fst (listBookmarks w2) = Returned v)).
Proof.
  split; [exact sampleWorld_ids|]. split; [reflexivity|].
  apply (reorderBookmarks_idempotent backupDown sampleWorld sampleWorld_ids
           (List.map rowToRecord [rowA; rowB; rowC]) (initTables sampleWorld)).
  reflexivity.
Defined.

(** When the sequence names every stored bookmark exactly once, the list
    comes out in the order of the sequence and the [order] column holds
    0, 1, ..., N-1. *)
Lemma reorderBookmarks_full_sequence :
  forall bw (order : list jsstring) (w : World),
    NoDup order ->
    Permutation order (List.map row_id (bookmarks w)) ->
    exists v w',
      reorderBookmarks bw order w = (Returned v, w') /\
      List.map id v = order /\
      List.map row_order (orderBy (bookmarks w')) =
        List.map Z.of_nat (seq 0 (List.length (bookmarks w))) /\
      Permutation v (List.map rowToRecord (bookmarks w)).
Proof.
  intros bw order w Hnd Hp.
  destruct (Permutation_map_inv _ _ Hp) as [s [Hs Hps]].
  destruct (reorderBookmarks_run bw order w) as [w' [Hrun [Hb _]]].
  simpl in Hb. subst order.
  rewrite orderBy_assign in Hrun by assumption.
  exists (List.map rowToRecord (number 0 s)), w'.
  split; [exact Hrun|]. split; [|split].
  - rewrite number_records, map_map. reflexivity.
  - rewrite Hb, orderBy_assign by assumption.
    rewrite number_orders. rewrite (Permutation_length Hps).
    apply map_ext. intro k. lia.
  - rewrite number_records. apply Permutation_map. now symmetry.
Qed.

(** C1, at a sequence that leaves bookmarks out: with a, b, c stored on
    orders 0, 1, 2, [reorderBookmarks(["c"])] lists a, c, b, on orders
    0, 0, 1.  The bookmark named is not first, and the orders repeat. *)
Theorem reorderBookmarks_partial_sequence :
  fst (reorderBookmarks backupOk [lit "c"] sampleWorld)
    = Returned (List.map rowToRecord [rowA; rowC; rowB]) /\
  List.map row_order
    (orderBy (bookmarks (snd (reorderBookmarks backupOk [lit "c"] sampleWorld))))
    = [0; 0; 1]%Z.
Proof.
  split; vm_compute; reflexivity.
Qed.

(** ** Grouping by key *)

Lemma fold_pushUnique_In (l acc : list jsstring) (k : jsstring) :
  In k (fold_left pushUnique l acc) <-> In k acc \/ In k l.
Proof.
  revert acc. induction l as [|x xs IH]; intro acc; simpl.
  - tauto.
  - rewrite IH. unfold pushUnique. destruct (includes x acc) eqn:E.
    + apply includes_In in E. split; [tauto|].
      intros [H|[H|H]]; subst; auto.
    + rewrite in_app_iff. simpl. tauto.
Qed.

Lemma fold_pushUnique_NoDup (l acc : list jsstring) :
  NoDup acc -> NoDup (fold_left pushUnique l acc).
Proof.
  revert acc. induction l as [|x xs IH]; intros acc Hnd; simpl; [assumption|].
  apply IH. unfold pushUnique. destruct (includes x acc) eqn:E; [assumption|].
  apply includes_not_In in E.
  apply NoDup_app; [assumption | repeat constructor; intros [] | ].
  intros y Hy [Hx|[]]. subst. contradiction.
Qed.

Lemma distinct_In (l : list jsstring) (k : jsstring) : In k (distinct l) <-> In k l.
Proof. unfold distinct. rewrite fold_pushUnique_In. simpl. tauto. Qed.

Lemma distinct_NoDup (l : list jsstring) : NoDup (distinct l).
Proof. apply fold_pushUnique_NoDup. constructor. Qed.

Lemma distinct_snoc (l : list jsstring) (k : jsstring) :
  distinct (l ++ [k]) = pushUnique (distinct l) k.
Proof. unfold distinct. now rewrite fold_left_app. Qed.

Section Groups.

Context {A : Type} (kf : A -> jsstring).

Lemma group_none (k : jsstring) (l : list A) :
  ~ In k (List.map kf l) -> group kf k l = [].
Proof.
  induction l as [|a rest IH]; intro Hn; simpl; [reflexivity|].
  destruct (eqb (kf a) k) eqn:E.
  - apply eqb_eq in E. exfalso. apply Hn. now left.
  - apply IH. intro H. apply Hn. now right.
Qed.

Lemma group_snoc (k : jsstring) (l : list A) (a : A) :
  group kf k (l ++ [a]) = group kf k l ++ (if eqb (kf a) k then [a] else []).
Proof. unfold group. rewrite filter_app. reflexivity. Qed.

Lemma group_group (k k0 : jsstring) (l : list A) :
  group kf k0 (group kf k l) = if eqb k k0 then group kf k l else [].
Proof.
  induction l as [|a rest IH]; simpl.
  - destruct (eqb k k0); reflexivity.
  - destruct (eqb (kf a) k) eqn:E; simpl.
    + apply eqb_eq in E. rewrite E. destruct (eqb k k0); [now rewrite IH|exact IH].
    + exact IH.
Qed.

Lemma group_flat_other (k0 : jsstring) (target : list jsstring) (l : list A) :
  ~ In k0 target ->
  group kf k0 (flat_map (fun k => group kf k l) target) = [].
Proof.
  induction target as [|k t IH]; intro Hn; simpl; [reflexivity|].
  unfold group at 1. rewrite filter_app. fold (group kf k0 (group kf k l)).
  fold (group kf k0 (flat_map (fun k => group kf k l) t)).
  rewrite group_group, IH by (intro H; apply Hn; now right).
  destruct (eqb k k0) eqn:E; [|reflexivity].
  apply eqb_eq in E. exfalso. apply Hn. now left.
Qed.

(** Within a group the order of the elements is the one they had. *)
Lemma group_flat (k0 : jsstring) (target : list jsstring) (l : list A) :
  NoDup target -> In k0 target ->
  group kf k0 (flat_map (fun k => group kf k l) target) = group kf k0 l.
Proof.
  induction target as [|k t IH]; intros Hnd Hin; simpl; [destruct Hin|].
  inversion Hnd as [|? ? Hnotin Hnd']; subst.
  unfold group at 1. rewrite filter_app. fold (group kf k0 (group kf k l)).
  fold (group kf k0 (flat_map (fun k => group kf k l) t)).
  rewrite group_group.
  destruct (eqb k k0) eqn:E.
  - apply eqb_eq in E. subst k0.
    rewrite group_flat_other by assumption. apply app_nil_r.
  - simpl. apply IH; [assumption|].
    destruct Hin as [H|H]; [|assumption]. apply eqb_neq in E. contradiction.
Qed.

Lemma filter_split_perm (k : jsstring) (t : list jsstring) (l : list A) :
  ~ In k t ->
  Permutation (filter (fun a => includes (kf a) (k :: t)) l)
              (group kf k l ++ filter (fun a => includes (kf a) t) l).
Proof.
  intro Hn. induction l as [|a rest IH]; simpl; [reflexivity|].
  destruct (eqb (kf a) k) eqn:E; simpl.
  - apply eqb_eq in E. destruct (includes (kf a) t) eqn:Ei.
    + apply includes_In in Ei. subst. contradiction.
    + now constructor.
  - destruct (includes (kf a) t); [|exact IH].
    rewrite IH. apply Permutation_middle.
Qed.

Lemma group_flat_filter_perm (target : list jsstring) (l : list A) :
  NoDup target ->
  Permutation (filter (fun a => includes (kf a) target) l)
              (flat_map (fun k => group kf k l) target).
Proof.
  induction target as [|k t IH]; intro Hnd; simpl.
  - induction l as [|a rest IHl]; simpl; [reflexivity | exact IHl].
  - inversion Hnd as [|? ? Hnotin Hnd']; subst.
    rewrite <- IH by assumption. now apply filter_split_perm.
Qed.

(** Nothing is dropped and nothing comes twice. *)
Lemma group_flat_perm (target : list jsstring) (l : list A) :
  NoDup target -> (forall a, In a l -> In (kf a) target) ->
  Permutation l (flat_map (fun k => group kf k l) target).
Proof.
  intros Hnd Hall. rewrite <- group_flat_filter_perm by assumption.
  assert (E : filter (fun a => includes (kf a) target) l = l).
  { clear Hnd. induction l as [|a rest IH]; simpl; [reflexivity|].
    assert (H : includes (kf a) target = true)
      by (apply includes_In, Hall; now left).
    rewrite H. f_equal. apply IH. intros b Hb. apply Hall. now right. }
  now rewrite E.
Qed.

End Groups.

(** ** reorderBookmarkCategories: the Map and the four loops *)

Section CategoryMapFacts.

Variable g : jsstring -> list BookmarkRecord.

Let entries (keys : list jsstring) : CategoryMap :=
  List.map (fun k => (k, g k)) keys.

Lemma map_has_entries (k : jsstring) (keys : list jsstring) :
  map_has k (entries keys) = includes k keys.
Proof.
  unfold entries. induction keys as [|k' rest IH]; simpl; [reflexivity|].
  now rewrite IH, (eqb_sym k' k).
Qed.

Lemma map_get_entries (k : jsstring) (keys : list jsstring) :
  In k keys -> map_get k (entries keys) = Some (g k).
Proof.
  unfold entries. induction keys as [|k' rest IH]; intro Hin; simpl; [destruct Hin|].
  destruct (eqb k' k) eqn:E.
  - apply eqb_eq in E. now subst.
  - apply IH. destruct Hin as [H|H]; [|assumption].
    apply eqb_neq in E. contradiction.
Qed.

End CategoryMapFacts.

Lemma map_set_absent (k : jsstring) (v : list BookmarkRecord) (m : CategoryMap) :
  map_has k m = false -> map_set k v m = m ++ [(k, v)].
Proof.
  induction m as [|[k' v'] rest IH]; simpl; intro H; [reflexivity|].
  apply orb_false_iff in H. destruct H as [H1 H2].
  rewrite H1. now rewrite IH.
Qed.

Lemma map_push_entries (g : jsstring -> list BookmarkRecord) (k0 : jsstring)
    (b : BookmarkRecord) (keys : list jsstring) :
  NoDup keys ->
  map_push k0 b (List.map (fun k => (k, g k)) keys) =
  List.map (fun k => (k, g k ++ (if eqb k0 k then [b] else []))) keys.
Proof.
  induction keys as [|k rest IH]; intro Hnd; simpl; [reflexivity|].
  inversion Hnd as [|? ? Hnotin Hnd']; subst.
  rewrite (eqb_sym k0 k). destruct (eqb k k0) eqn:E.
  - f_equal. apply map_ext_in. intros k' Hk'.
    destruct (eqb k0 k') eqn:E'; [|now rewrite app_nil_r].
    apply eqb_eq in E, E'. subst. contradiction.
  - rewrite app_nil_r. f_equal. now apply IH.
Qed.

Lemma groupStep_spec (pre : list BookmarkRecord) (b : BookmarkRecord) :
  groupStep
    (List.map (fun k => (k, categoryGroup k pre)) (existingCategories pre),
     existingCategories pre) b
  = (List.map (fun k => (k, categoryGroup k (pre ++ [b])))
       (existingCategories (pre ++ [b])),
     existingCategories (pre ++ [b])).
Proof.
  unfold groupStep. rewrite map_has_entries.
  assert (Hk : existingCategories (pre ++ [b])
               = pushUnique (existingCategories pre) (bookmarkCategoryKey b)).
  { unfold existingCategories. rewrite map_app. simpl. apply distinct_snoc. }
  assert (Hg : forall k, categoryGroup k (pre ++ [b])
               = categoryGroup k pre ++
                 (if eqb (bookmarkCategoryKey b) k then [b] else [])).
  { intro k. apply group_snoc. }
  rewrite Hk. unfold pushUnique.
  destruct (includes (bookmarkCategoryKey b) (existingCategories pre)) eqn:E;
    cbn [negb].
  - f_equal. rewrite map_push_entries by apply distinct_NoDup.
    apply map_ext. intro k. now rewrite Hg.
  - f_equal. rewrite map_set_absent by (now rewrite map_has_entries).
    assert (Hnone : categoryGroup (bookmarkCategoryKey b) pre = []).
    { apply group_none. apply includes_not_In in E.
      unfold existingCategories in E. now rewrite distinct_In in E. }
    assert (Hcut :
      List.map (fun k => (k, categoryGroup k pre)) (existingCategories pre) ++
        [(bookmarkCategoryKey b, [])]
      = List.map (fun k => (k, categoryGroup k pre))
          (existingCategories pre ++ [bookmarkCategoryKey b])).
    { rewrite map_app. simpl. now rewrite Hnone. }
    rewrite Hcut, map_push_entries.
    + apply map_ext. intro k. now rewrite Hg.
    + fold (pushUnique (existingCategories pre) (bookmarkCategoryKey b)) in Hk.
      assert (Hp : pushUnique (existingCategories pre) (bookmarkCategoryKey b)
                   = existingCategories pre ++ [bookmarkCategoryKey b])
        by (unfold pushUnique; now rewrite E).
      rewrite <- Hp, <- Hk. apply distinct_NoDup.
Qed.

Lemma groupByCategory_from (bs pre : list BookmarkRecord) :
  fold_left groupStep bs
    (List.map (fun k => (k, categoryGroup k pre)) (existingCategories pre),
     existingCategories pre)
  = (List.map (fun k => (k, categoryGroup k (pre ++ bs)))
       (existingCategories (pre ++ bs)),
     existingCategories (pre ++ bs)).
Proof.
  revert pre. induction bs as [|b rest IH]; intro pre; cbn [fold_left].
  - now rewrite app_nil_r.
  - rewrite groupStep_spec, IH, <- app_assoc. reflexivity.
Qed.

Lemma groupByCategory_spec (bs : list BookmarkRecord) :
  groupByCategory bs =
  (List.map (fun k => (k, categoryGroup k bs)) (existingCategories bs),
   existingCategories bs).
Proof.
  unfold groupByCategory. apply (groupByCategory_from bs []).
Qed.

Lemma requestStep_spec (m : CategoryMap) (order : list JS.value)
    (acc : list jsstring) :
  fold_left (requestStep m) order acc =
  fold_left pushUnique
    (filter (fun k => map_has k m) (List.map normalizeCategoryKeyInput order)) acc.
Proof.
  revert acc. induction order as [|v rest IH]; intro acc; simpl; [reflexivity|].
  rewrite IH. unfold requestStep.
  destruct (map_has (normalizeCategoryKeyInput v) m); simpl; [|reflexivity].
  unfold pushUnique.
  destruct (includes (normalizeCategoryKeyInput v) acc); reflexivity.
Qed.

Lemma remainingStep_spec (l acc : list jsstring) :
  NoDup l ->
  fold_left remainingStep l acc =
  acc ++ filter (fun k => negb (includes k acc)) l.
Proof.
  revert acc. induction l as [|k rest IH]; intros acc Hnd; simpl.
  - now rewrite app_nil_r.
  - inversion Hnd as [|? ? Hnotin Hnd']; subst.
    rewrite IH by assumption. unfold remainingStep.
    destruct (includes k acc) eqn:E; simpl; [reflexivity|].
    rewrite <- app_assoc. simpl. do 2 f_equal.
    apply filter_ext_in. intros x Hx. f_equal.
    unfold includes. rewrite existsb_app. simpl.
    destruct (eqb x k) eqn:Exk; [|now rewrite !orb_false_r].
    apply eqb_eq in Exk. subst. contradiction.
Qed.

Lemma concatStep_spec (m : CategoryMap) (g : jsstring -> list BookmarkRecord)
    (target : list jsstring) (acc : list BookmarkRecord) :
  (forall k, In k target -> map_get k m = Some (g k)) ->
  fold_left (concatStep m) target acc = acc ++ flat_map g target.
Proof.
  revert acc. induction target as [|k rest IH]; intros acc H; simpl.
  - now rewrite app_nil_r.
  - rewrite IH by (intros k' Hk'; apply H; now right).
    unfold concatStep. rewrite (H k) by now left.
    now rewrite <- app_assoc.
Qed.

Lemma targetSequence_NoDup (order : list JS.value) (bs : list BookmarkRecord) :
  NoDup (targetSequence order bs).
Proof.
  unfold targetSequence. apply NoDup_app.
  - apply distinct_NoDup.
  - apply NoDup_filter, distinct_NoDup.
  - intros k Hk Hf. apply filter_In in Hf. destruct Hf as [_ Hf].
    apply negb_true_iff, includes_not_In in Hf. contradiction.
Qed.

Lemma targetSequence_In (order : list JS.value) (bs : list BookmarkRecord)
    (k : jsstring) :
  In k (targetSequence order bs) <-> In k (existingCategories bs).
Proof.
  unfold targetSequence. rewrite in_app_iff, filter_In. split.
  - intros [H|[H _]]; [|assumption].
    unfold requestedCategories in H. apply distinct_In, filter_In in H.
    destruct H as [_ H]. now apply includes_In.
  - intro H.
    destruct (includes k (requestedCategories order bs)) eqn:E.
    + left. now apply includes_In.
    + right. split; [assumption | reflexivity].
Qed.

(** The list the function builds is the groups in the target sequence. *)
Lemma reorderedByCategories_spec (order : list JS.value) (bs : list BookmarkRecord) :
  reorderedByCategories order bs = groupedByTarget order bs.
Proof.
  unfold reorderedByCategories. rewrite groupByCategory_spec.
  rewrite requestStep_spec.
  rewrite (filter_ext _ (fun k => includes k (existingCategories bs)))
    by (intro k; apply map_has_entries).
  fold (distinct (filter (fun k => includes k (existingCategories bs))
                   (List.map normalizeCategoryKeyInput order))).
  fold (requestedCategories order bs).
  rewrite remainingStep_spec by apply distinct_NoDup.
  fold (targetSequence order bs).
  rewrite (concatStep_spec _ (fun k => categoryGroup k bs)).
  - reflexivity.
  - intros k Hk. apply map_get_entries. now apply targetSequence_In in Hk.
Qed.

Lemma filter_split {A} (p : A -> bool) (l x y : list A) (a : A) :
  filter p l = x ++ a :: y ->
  exists l1 l2, l = l1 ++ a :: l2 /\ filter p l1 = x /\ filter p l2 = y.
Proof.
  revert x. induction l as [|c rest IH]; intros x H; simpl in H.
  - destruct x; discriminate.
  - destruct (p c) eqn:E.
    + destruct x as [|c' x']; simpl in H; inversion H; subst.
      * exists [], rest. auto.
      * destruct (IH x' H2) as [l1 [l2 [H1 [H3 H4]]]]. subst rest.
        exists (c' :: l1), l2. simpl. rewrite E. subst x'. auto.
    + destruct (IH x H) as [l1 [l2 [H1 [H3 H4]]]]. subst rest.
      exists (c :: l1), l2. simpl. rewrite E. auto.
Qed.

(** Equal groups keep every pair of a group in its order. *)
Lemma group_precedes {A} (kf : A -> jsstring) (l l' : list A) (a b : A) :
  kf a = kf b ->
  group kf (kf a) l' = group kf (kf a) l ->
  precedes a b l -> precedes a b l'.
Proof.
  intros Hk Hg [l1 [l2 [l3 Hl]]]. subst l.
  unfold group in Hg. rewrite filter_app in Hg. simpl in Hg.
  rewrite eqb_refl, filter_app in Hg. simpl in Hg.
  rewrite <- Hk, eqb_refl in Hg.
  destruct (filter_split _ _ _ _ _ Hg) as [m1 [m2 [H1 [_ H2]]]].
  destruct (filter_split _ _ _ _ _ H2) as [n1 [n2 [H3 _]]].
  exists m1, n1, n2. now subst.
Qed.

Lemma map_flat_map_comm {A B C} (f : B -> C) (g : A -> list B) (l : list A) :
  List.map f (flat_map g l) = flat_map (fun a => List.map f (g a)) l.
Proof.
  induction l as [|a rest IH]; simpl; [reflexivity|].
  now rewrite map_app, IH.
Qed.

Lemma group_map {A B} (f : A -> B) (kf : B -> jsstring) (k : jsstring) (l : list A) :
  List.map f (group (fun a => kf (f a)) k l) = group kf k (List.map f l).
Proof.
  induction l as [|a rest IH]; simpl; [reflexivity|].
  destruct (eqb (kf (f a)) k); simpl; now rewrite IH.
Qed.

Section RunsCategories.

Variable bw : BackupWriter.

Lemma reorderBookmarkCategories_run (order : list JS.value) (w : World) :
  exists w',
    reorderBookmarkCategories bw order w =
    (Returned (reorderedByCategories order
                 (List.map rowToRecord (orderBy (bookmarks w)))), w') /\
    same_db (with_bookmarks (initTables w)
               (assign_orders 0
                  (List.map id (reorderedByCategories order
                     (List.map rowToRecord (orderBy (bookmarks w)))))
                  (bookmarks w))) w'.
Proof.
  unfold reorderBookmarkCategories. unfold bind at 1. rewrite ensureTables_run.
  unfold bind at 1. rewrite readBookmarksFromDb_run.
  rewrite initTables_idem, initTables_bookmarks.
  unfold bind at 1. unfold tryCatch. rewrite update_orders_run.
  rewrite initTables_bookmarks.
  unfold bind at 1.
  match goal with
  | |- context [backupData bw ?k ?d ?w0] =>
      destruct (backupData_run bw k d w0) as [w' [Hrun Hsame]]
  end.
  rewrite Hrun. exists w'. split; [reflexivity | exact Hsame].
Qed.

End RunsCategories.

(** What [reorderBookmarkCategories] returns, and leaves as the list, by
    the keys the function computes. *)
Lemma reorderBookmarkCategories_by_keys :
  forall bw (order : list JS.value) (w : World),
    NoDup (List.map row_id (bookmarks w)) ->
    forall before w0,
      listBookmarks w = (Returned before, w0) ->
      exists after w1,
        reorderBookmarkCategories bw order w0 = (Returned after, w1) /\
        fst (listBookmarks w1) = Returned after /\
        after = groupedByTarget order before /\
        Permutation before after /\
        (forall k, categoryGroup k after = categoryGroup k before) /\
        (forall a b, bookmarkCategoryKey a = bookmarkCategoryKey b ->
                     precedes a b before -> precedes a b after).
Proof.
  intros bw order w Hpk before w0 Hlist.
  unfold listBookmarks in Hlist. rewrite readBookmarksFromDb_run in Hlist.
  inversion Hlist; subst before w0; clear Hlist.
  set (S := orderBy (bookmarks w)).
  set (before := List.map rowToRecord S).
  set (target := targetSequence order before).
  set (S' := flat_map
               (fun k => group (fun r => bookmarkCategoryKey (rowToRecord r)) k S)
               target).
  assert (Hafter : List.map rowToRecord S' = groupedByTarget order before).
  { unfold S', groupedByTarget, categoryGroup. rewrite map_flat_map_comm.
    apply flat_map_ext. intro k. apply group_map. }
  assert (Hkeys : forall b, In b before -> In (bookmarkCategoryKey b) target).
  { intros b Hb. apply targetSequence_In. unfold existingCategories.
    apply distinct_In. now apply in_map. }
  assert (HpS : Permutation S S').
  { apply group_flat_perm; [apply targetSequence_NoDup|].
    intros r Hr. apply Hkeys. now apply in_map. }
  assert (HpT : Permutation (bookmarks w) S').
  { rewrite <- HpS. symmetry. apply orderBy_Permutation. }
  assert (Hnd : NoDup (List.map row_id S')).
  { eapply Permutation_NoDup; [|exact Hpk]. now apply Permutation_map. }
  assert (Hids : List.map id (groupedByTarget order before) = List.map row_id S').
  { rewrite <- Hafter, map_map. reflexivity. }
  assert (Hgroups : forall k, categoryGroup k (groupedByTarget order before)
                              = categoryGroup k before).
  { intro k. unfold groupedByTarget, categoryGroup. fold target.
    destruct (in_dec (list_eq_dec N.eq_dec) k target) as [Hin|Hn].
    - apply group_flat; [apply targetSequence_NoDup | assumption].
    - rewrite group_flat_other by assumption. symmetry. apply group_none.
      intro H. apply Hn. apply in_map_iff in H. destruct H as [b [E Hb]].
      subst k. now apply Hkeys. }
  destruct (reorderBookmarkCategories_run bw order (initTables w))
    as [w1 [Hrun [Hb _]]].
  rewrite initTables_bookmarks in Hrun, Hb. simpl in Hb.
  fold S in Hrun, Hb. fold before in Hrun, Hb.
  rewrite reorderedByCategories_spec in Hrun, Hb.
  exists (groupedByTarget order before), w1.
  split; [exact Hrun|]. split; [|split; [reflexivity|split; [|split]]].
  - unfold listBookmarks. rewrite readBookmarksFromDb_run. simpl.
    rewrite Hb, Hids, orderBy_assign by assumption.
    now rewrite number_records, Hafter.
  - rewrite <- Hafter. unfold before. now apply Permutation_map.
  - exact Hgroups.
  - intros a b Hk Hprec.
    apply (group_precedes bookmarkCategoryKey before _ a b Hk); [|exact Hprec].
    apply Hgroups.
Qed.


(** The keys the function computes are the normalized categories. *)
Lemma bookmarkCategoryKey_name (b : BookmarkRecord) :
  bookmarkCategoryKey b = categoryName b.
Proof.
  unfold bookmarkCategoryKey, categoryName, normalizeCategoryValue.
  destruct (category b) as [c|]; [|reflexivity].
  destruct c as [|x rest]; [reflexivity|]. cbn [isEmpty].
  destruct (trim (x :: rest)); reflexivity.
Qed.

Lemma categoryGroup_inCategory (k : jsstring) (bs : list BookmarkRecord) :
  categoryGroup k bs = inCategory k bs.
Proof.
  unfold categoryGroup, group, inCategory. apply filter_ext.
  intro b. now rewrite bookmarkCategoryKey_name.
Qed.

Lemma existingCategories_categoriesOf (bs : list BookmarkRecord) :
  existingCategories bs = categoriesOf bs.
Proof.
  unfold existingCategories, categoriesOf. f_equal.
  apply map_ext. exact bookmarkCategoryKey_name.
Qed.

Lemma targetSequence_categorySequence (order : list jsstring)
    (bs : list BookmarkRecord) :
  targetSequence (List.map VString order) bs = categorySequence order bs.
Proof.
  assert (E : requestedCategories (List.map VString order) bs
              = requestedFirst order bs).
  { unfold requestedCategories, requestedFirst.
    rewrite existingCategories_categoriesOf, map_map. reflexivity. }
  unfold targetSequence, categorySequence.
  now rewrite E, existingCategories_categoriesOf.
Qed.

Lemma groupedByTarget_groupsInSequence (order : list jsstring)
    (bs : list BookmarkRecord) :
  groupedByTarget (List.map VString order) bs = groupsInSequence order bs.
Proof.
  unfold groupedByTarget, groupsInSequence.
  rewrite targetSequence_categorySequence.
  apply flat_map_ext. intro k. apply categoryGroup_inCategory.
Qed.

(** C2: for a sequence of category names, [reorderBookmarkCategories]
    returns, and leaves as the list, the bookmarks group by group in the
    target sequence: the names of the sequence, trimmed, that are a
    category of the list, each once, then the other categories in
    first-seen order.  The result is a permutation of the list before,
    every category's bookmarks are in the order they had, and so a
    bookmark that preceded another of its category still precedes it. *)
Theorem reorderBookmarkCategories_groups :
  forall bw (order : list jsstring) (w : World),
    NoDup (List.map row_id (bookmarks w)) ->
    forall before w0,
      listBookmarks w = (Returned before, w0) ->
      exists after w1,
        reorderBookmarkCategories bw (List.map VString order) w0
          = (Returned after, w1) /\
        fst (listBookmarks w1) = Returned after /\
        after = groupsInSequence order before /\
        Permutation before after /\
        (forall k, inCategory k after = inCategory k before) /\
        (forall a b, categoryName a = categoryName b ->
                     precedes a b before -> precedes a b after).
Proof.
  intros bw order w Hpk before w0 Hlist.
  destruct (reorderBookmarkCategories_by_keys bw (List.map VString order) w Hpk
              before w0 Hlist)
    as [after [w1 [H1 [H2 [H3 [H4 [H5 H6]]]]]]].
  exists after, w1.
  split; [exact H1|]. split; [exact H2|].
  split; [now rewrite H3, groupedByTarget_groupsInSequence|].
  split; [exact H4|]. split.
  - intro k. rewrite <- !categoryGroup_inCategory. apply H5.
  - intros a b Hk. apply H6. now rewrite !bookmarkCategoryKey_name.
Qed.

Lemma reorderBookmarkCategories_groups_witness :
  NoDup (List.map row_id (bookmarks sampleWorld)) /\
  listBookmarks sampleWorld =
    (Returned (List.map rowToRecord [rowA; rowB; rowC]), initTables sampleWorld) /\
  exists w1,
    reorderBookmarkCategories backupDown
      [VString (lit " tools "); VString (lit "nothing"); VString (lit "tools")]
      (initTables sampleWorld)
    = (Returned (List.map rowToRecord [rowB; rowA; rowC]), w1) /\
    fst (listBookmarks w1) = Returned (List.map rowToRecord [rowB; rowA; rowC]) /\
    precedes (rowToRecord rowA) (rowToRecord rowC)
      (List.map rowToRecord [rowB; rowA; rowC]).
Proof.
  split; [exact sampleWorld_ids|]. split; [reflexivity|].
  destruct (reorderBookmarkCategories_groups backupDown
              [lit " tools "; lit "nothing"; lit "tools"] sampleWorld
              sampleWorld_ids
              (List.map rowToRecord [rowA; rowB; rowC]) (initTables sampleWorld)
              eq_refl)
    as [after [w1 [H1 [H2 [H3 [_ [_ H6]]]]]]].
  assert (E : after = List.map rowToRecord [rowB; rowA; rowC])
    by (rewrite H3; vm_compute; reflexivity).
  rewrite E in H1, H2, H6.
  exists w1. split; [exact H1|]. split; [exact H2|].
  apply H6; [reflexivity|].
  exists [], [rowToRecord rowB], []. reflexivity.
Defined.

Example reorderBookmarkCategories_sample :
  fst (reorderBookmarkCategories backupOk [VString (lit " tools "); VNull] sampleWorld)
  = Returned (List.map rowToRecord [rowB; rowA; rowC]).
Proof. vm_compute. reflexivity. Qed.

(** ** trim *)

Lemma trimStart_idem (s : jsstring) : trimStart (trimStart s) = trimStart s.
Proof.
  induction s as [|c rest IH]; simpl; [reflexivity|].
  destruct (isWhiteSpace c) eqn:E; [exact IH|]. simpl. now rewrite E.
Qed.

Lemma trimStart_snoc (s : jsstring) (c : N) :
  isWhiteSpace c = false -> trimStart (s ++ [c]) = trimStart s ++ [c].
Proof.
  intro H. induction s as [|x rest IH]; simpl.
  - now rewrite H.
  - destruct (isWhiteSpace x); [exact IH | reflexivity].
Qed.

Lemma trimEnd_idem (s : jsstring) : trimEnd (trimEnd s) = trimEnd s.
Proof.
  unfold trimEnd. now rewrite rev_involutive, trimStart_idem.
Qed.

Lemma trimStart_trimEnd (s : jsstring) :
  trimStart (trimEnd (trimStart s)) = trimEnd (trimStart s).
Proof.
  assert (H : trimStart s = [] \/
              exists c r, trimStart s = c :: r /\ isWhiteSpace c = false).
  { induction s as [|c rest IH]; simpl; [now left|].
    destruct (isWhiteSpace c) eqn:E; [exact IH|]. right. now exists c, rest. }
  destruct H as [H|[c [r [H Hc]]]]; rewrite H.
  - reflexivity.
  - unfold trimEnd. simpl. rewrite trimStart_snoc by exact Hc.
    rewrite rev_app_distr. simpl. now rewrite Hc.
Qed.

Lemma trim_idem (s : jsstring) : trim (trim s) = trim s.
Proof.
  unfold trim. now rewrite trimStart_trimEnd, trimEnd_idem.
Qed.

Lemma normalizeCategoryValue_idem (v : option jsstring) :
  normalizeCategoryValue (normalizeCategoryValue v) = normalizeCategoryValue v.
Proof.
  destruct v as [s|]; simpl; [|reflexivity].
  destruct (isEmpty s); [reflexivity|].
  destruct (isEmpty (trim s)) eqn:E; [reflexivity|].
  simpl. now rewrite E, trim_idem, E.
Qed.

(** ** createBookmark *)

Section RunsCreate.

Variable bw : BackupWriter.

Lemma createBookmark_run (uuid : jsstring) (now : Z) (data : BookmarkInput)
    (w : World) :
  stored (bookmarks w) uuid = false ->
  exists w',
    createBookmark bw uuid now data w = (Returned (newBookmarkOf uuid data), w') /\
    same_db (with_bookmarks (initTables w)
               (bookmarks w ++ [newRowOf uuid now data (bookmarks w)])) w'.
Proof.
  intro Hfresh.
  unfold createBookmark. unfold bind at 1. rewrite ensureTables_run.
  unfold bind at 1. unfold sql_query, gets. rewrite initTables_bookmarks.
  unfold bind at 1. unfold sql_insert. cbn [row_id id].
  rewrite initTables_bookmarks. unfold stored in Hfresh. rewrite Hfresh.
  unfold bind at 1. rewrite readBookmarksFromDb_run.
  unfold bind at 1.
  match goal with
  | |- context [backupData bw ?k ?d ?w0] =>
      destruct (backupData_run bw k d w0) as [w' [Hrun Hsame]]
  end.
  rewrite Hrun. exists w'. split; [reflexivity|].
  rewrite initTables_with_bookmarks, initTables_idem in Hsame. exact Hsame.
Qed.

Lemma createBookmark_run_stored (uuid : jsstring) (now : Z) (data : BookmarkInput)
    (w : World) :
  stored (bookmarks w) uuid = true ->
  createBookmark bw uuid now data w = (Thrown (UniqueViolation uuid), initTables w).
Proof.
  intro Hstored.
  unfold createBookmark. unfold bind at 1. rewrite ensureTables_run.
  unfold bind at 1. unfold sql_query, gets.
  unfold bind at 1. unfold sql_insert. cbn [row_id id].
  rewrite initTables_bookmarks. unfold stored in Hstored. now rewrite Hstored.
Qed.

End RunsCreate.

Lemma fold_max_attained (l : list Row) (m : Z) :
  fold_left (fun m x => Z.max m (row_order x)) l m = m \/
  exists x, In x l /\ fold_left (fun m x => Z.max m (row_order x)) l m = row_order x.
Proof.
  revert m. induction l as [|y ys IH]; intro m; simpl; [now left|].
  destruct (IH (Z.max m (row_order y))) as [H|[x [Hin H]]].
  - rewrite H. destruct (Z.max_spec m (row_order y)) as [[_ E]|[_ E]]; rewrite E.
    + right. exists y. auto.
    + now left.
  - right. exists x. auto.
Qed.




Lemma sampleWorld_fresh : stored (bookmarks sampleWorld) (lit "d") = false.
Proof. reflexivity. Qed.



(** ** Settings *)

Lemma readSettingsFromDb_run (w : World) :
  readSettingsFromDb w = (Returned (currentSettings w), initTables w).
Proof.
  unfold readSettingsFromDb, currentSettings. unfold bind at 1.
  rewrite ensureTables_run. run.
  destruct (settings (initTables w)); reflexivity.
Qed.

Lemma initTables_with_settings (w : World) (s : SettingsData) :
  tablesInitialized w = true ->
  initTables (with_settings w (Some s)) = with_settings w (Some s).
Proof.
  intro H. unfold initTables. simpl. now rewrite H.
Qed.

Section RunsSettings.

Variable bw : BackupWriter.

Lemma updateSettings_run (partial : PartialSettings) (w : World) :
  exists w',
    updateSettings bw partial w
      = (Returned (mergeSettings (currentSettings w) partial), w') /\
    same_db (with_settings (initTables w)
               (Some (mergeSettings (currentSettings w) partial))) w'.
Proof.
  unfold updateSettings. unfold bind at 1. rewrite readSettingsFromDb_run.
  unfold bind at 1. unfold writeSettingsToDb.
  unfold bind at 1. rewrite ensureTables_run, initTables_idem.
  unfold bind at 1. unfold modify.
  match goal with
  | |- context [backupData bw ?k ?d ?w0] =>
      destruct (backupData_run bw k d w0) as [w' [Hrun Hsame]]
  end.
  rewrite Hrun. exists w'. split; [reflexivity | exact Hsame].
Qed.

Lemma currentSettings_after (w w' : World) (s : SettingsData) :
  same_db (with_settings (initTables w) (Some s)) w' -> currentSettings w' = s.
Proof.
  intros [_ [Hs Hi]]. simpl in Hs, Hi. rewrite initTables_initialized in Hi.
  unfold currentSettings, initTables. now rewrite Hi, Hs.
Qed.

End RunsSettings.

(** C7: [updateSettings] merges the partial update into the settings it
    reads and keeps every field the update does not give, on the
    relational and on the JSON document backend; [{theme: "dark"}] sent
    twice leaves siteTitle and siteIcon as they were. *)
Theorem updateSettings_merges :
  (forall bw (partial : PartialSettings) (w : World),
     exists next w',
       updateSettings bw partial w = (Returned next, w') /\
       merged (currentSettings w) next partial /\
       fst (getSettings w') = Returned next) /\
  (forall bw (w : World),
     exists s1 w1 s2 w2,
       updateSettings bw themeDark w = (Returned s1, w1) /\
       updateSettings bw themeDark w1 = (Returned s2, w2) /\
       fst (getSettings w2) = Returned s2 /\
       theme s2 = lit "dark" /\
       siteTitle s2 = siteTitle (currentSettings w) /\
       siteIcon s2 = siteIcon (currentSettings w)) /\
  (forall (partial : ApiDb.PartialSettings) (s : ApiDb.Store),
     merged (ApiDb.getSettings s) (fst (ApiDb.updateSettings partial s)) partial /\
     ApiDb.getSettings (snd (ApiDb.updateSettings partial s))
       = fst (ApiDb.updateSettings partial s)) /\
  (forall (s : ApiDb.Store),
     let s1 := snd (ApiDb.updateSettings themeDark s) in
     let s2 := snd (ApiDb.updateSettings themeDark s1) in
     theme (ApiDb.getSettings s2) = lit "dark" /\
     siteTitle (ApiDb.getSettings s2) = siteTitle (ApiDb.getSettings s) /\
     siteIcon (ApiDb.getSettings s2) = siteIcon (ApiDb.getSettings s)).
Proof.
  split; [|split; [|split]].
  - intros bw partial w.
    destruct (updateSettings_run bw partial w) as [w' [Hrun Hsame]].
    exists (mergeSettings (currentSettings w) partial), w'.
    split; [exact Hrun|]. split.
    + unfold merged, mergeSettings, nullish. simpl. auto.
    + unfold getSettings. rewrite readSettingsFromDb_run. simpl.
      f_equal. eapply currentSettings_after. exact Hsame.
  - intros bw w.
    destruct (updateSettings_run bw themeDark w) as [w1 [Hrun1 Hsame1]].
    destruct (updateSettings_run bw themeDark w1) as [w2 [Hrun2 Hsame2]].
    pose proof (currentSettings_after _ _ _ Hsame1) as Hc1.
    pose proof (currentSettings_after _ _ _ Hsame2) as Hc2.
    eexists; exists w1; eexists; exists w2.
    split; [exact Hrun1|]. split; [exact Hrun2|]. split.
    + unfold getSettings. rewrite readSettingsFromDb_run. simpl. now f_equal.
    + rewrite Hc1. simpl. auto.
  - intros partial s. split; [|reflexivity].
    unfold merged, ApiDb.updateSettings, nullish. simpl. auto.
  - intros s. simpl. auto.
Qed.

(** ** Backup failures *)

Lemma same_db_trans (a b c : World) : same_db a b -> same_db a c -> same_db c b.
Proof.
  unfold same_db. intros [H1 [H2 H3]] [H4 [H5 H6]].
  repeat split; congruence.
Qed.

(** An operation that, for every backup writer, returns the same value on
    the same database is not affected by the backup. *)
Lemma unaffected_from_run {A} (op : BackupWriter -> M A) :
  (forall w, exists v W, forall bw,
     exists w', op bw w = (Returned v, w') /\ same_db W w') ->
  unaffected_by_backup op /\ always_returns op.
Proof.
  intro H. split.
  - intros bw w. destruct (H w) as [v [W Hrun]].
    destruct (Hrun bw) as [w1 [E1 S1]]. destruct (Hrun backupOk) as [w2 [E2 S2]].
    rewrite E1, E2. simpl. split; [reflexivity|].
    eapply same_db_trans; eassumption.
  - intros bw w. destruct (H w) as [v [W Hrun]].
    destruct (Hrun bw) as [w1 [E1 _]]. now exists v, w1.
Qed.

Section RunsUpdateDelete.

Variable bw : BackupWriter.

Lemma sql_select_updated (ident ti ur : jsstring) (ca de : option jsstring)
    (vi : bool) (t : list Row) :
  sql_select_by_id ident (sql_update_fields ident ti ur ca de vi t) =
  List.map (fun r =>
         {| row_id := row_id r; row_title := ti; row_url := ur;
            row_category := ca; row_description := de; row_visible := vi;
            row_order := row_order r; row_created_at := row_created_at r |})
      (sql_select_by_id ident t).
Proof.
  unfold sql_select_by_id, sql_update_fields.
  induction t as [|r rest IH]; simpl; [reflexivity|].
  destruct (eqb (row_id r) ident) eqn:E; simpl; rewrite ?E, IH; reflexivity.
Qed.

Lemma updateBookmark_run (ident : jsstring) (data : BookmarkInput) (w : World) :
  let t := bookmarks w in
  let t' := sql_update_fields ident (in_title data) (in_url data)
              (normalizeCategoryValue (in_category data))
              (in_description data) (in_visible data) t in
  exists w',
    updateBookmark bw ident data w =
    (Returned match sql_select_by_id ident t with
              | [] => None
              | row :: _ =>
                  Some {| id := ident;
                          title := in_title data;
                          url := in_url data;
                          category := normalizeCategoryValue (in_category data);
                          description := in_description data;
                          visible := in_visible data |}
              end, w') /\
    same_db match sql_select_by_id ident t with
            | [] => initTables w
            | _ :: _ => with_bookmarks (initTables w) t'
            end w'.
Proof.
  intros t t'. subst t t'.
  unfold updateBookmark. unfold bind at 1. rewrite ensureTables_run.
  unfold bind at 1. unfold sql_query at 1, gets. rewrite initTables_bookmarks.
  destruct (sql_select_by_id ident (bookmarks w)) as [|r0 rs] eqn:Hsel.
  - exists (initTables w). split; [reflexivity|]. unfold same_db. auto.
  - unfold bind at 1. unfold sql_exec, modify. rewrite initTables_bookmarks.
    unfold bind at 1. unfold sql_query, gets. cbn [bookmarks with_bookmarks].
    rewrite sql_select_updated, Hsel. cbn [List.map].
    unfold bind at 1. rewrite readBookmarksFromDb_run.
    unfold bind at 1.
    match goal with
    | |- context [backupData bw ?k ?d ?w0] =>
        destruct (backupData_run bw k d w0) as [w' [Hrun Hsame]]
    end.
    rewrite Hrun. exists w'. split.
    + unfold ret, rowToRecord. cbn [row_id row_title row_url row_category
        row_description row_visible].
      rewrite normalizeCategoryValue_idem.
      assert (Hid : row_id r0 = ident).
      { assert (Hin : In r0 (sql_select_by_id ident (bookmarks w)))
          by (rewrite Hsel; now left).
        unfold sql_select_by_id in Hin. apply filter_In in Hin.
        now apply eqb_eq. }
      now rewrite Hid.
    + rewrite initTables_with_bookmarks, initTables_idem in Hsame. exact Hsame.
Qed.

Lemma deleteBookmark_run (ident : jsstring) (w : World) :
  let t := bookmarks w in
  exists w',
    deleteBookmark bw ident w =
    (Returned match sql_select_by_id ident t with
              | [] => None
              | row :: _ => Some (rowToRecord row)
              end, w') /\
    same_db match sql_select_by_id ident t with
            | [] => initTables w
            | _ :: _ => with_bookmarks (initTables w) (sql_delete ident t)
            end w'.
Proof.
  intros t. subst t.
  unfold deleteBookmark. unfold bind at 1. rewrite ensureTables_run.
  unfold bind at 1. unfold sql_query at 1, gets. rewrite initTables_bookmarks.
  destruct (sql_select_by_id ident (bookmarks w)) as [|r0 rs].
  - exists (initTables w). split; [reflexivity|]. unfold same_db. auto.
  - unfold bind at 1. unfold sql_exec, modify. rewrite initTables_bookmarks.
    unfold bind at 1. rewrite readBookmarksFromDb_run.
    unfold bind at 1.
    match goal with
    | |- context [backupData bw ?k ?d ?w0] =>
        destruct (backupData_run bw k d w0) as [w' [Hrun Hsame]]
    end.
    rewrite Hrun. exists w'. split; [reflexivity|].
    rewrite initTables_with_bookmarks, initTables_idem in Hsame. exact Hsame.
Qed.

End RunsUpdateDelete.

Lemma backupData_down (k : BackupKey) (d : BackupPayload) (w : World) :
  backupData backupDown k d w =
  (Returned tt,
   if backupConfigured w then with_log w (LogBackupFailed k BackupWriteError) else w).
Proof.
  unfold backupData, backupWrite, backupConfigured, backupDown. run.
  destruct (BACKUP_STORAGE_DRIVER w) as [drv|]; [|reflexivity].
  destruct (isEmpty drv || eqb drv (lit "none")); reflexivity.
Qed.

Lemma createBookmark_unaffected (uuid : jsstring) (now : Z) (data : BookmarkInput) :
  unaffected_by_backup (fun bw => createBookmark bw uuid now data).
Proof.
  intros bw w. destruct (stored (bookmarks w) uuid) eqn:E.
  - rewrite !createBookmark_run_stored by exact E. simpl.
    split; [reflexivity|]. unfold same_db. auto.
  - destruct (createBookmark_run bw uuid now data w E) as [w1 [E1 S1]].
    destruct (createBookmark_run backupOk uuid now data w E) as [w2 [E2 S2]].
    rewrite E1, E2. simpl. split; [reflexivity|].
    eapply same_db_trans; eassumption.
Qed.

(** C8: a backup write that fails is caught and logged by [backupData],
    and no write operation shows it: create, update, delete, reorder,
    reorder-categories and the settings update return what they return
    when the backup store works, and leave the same database.  All but
    create always return; create returns unless the primary insert fails
    on an id that is already stored. *)
Theorem backup_failure_not_surfaced :
  (forall k d w,
     backupData backupDown k d w =
     (Returned tt,
      if backupConfigured w
      then with_log w (LogBackupFailed k BackupWriteError) else w)) /\
  (forall bw k d w, exists w', backupData bw k d w = (Returned tt, w') /\ same_db w w') /\
  (forall uuid now data,
     unaffected_by_backup (fun bw => createBookmark bw uuid now data) /\
     forall bw w,
       fst (createBookmark bw uuid now data w) =
       if stored (bookmarks w) uuid
       then Thrown (UniqueViolation uuid)
       else Returned (newBookmarkOf uuid data)) /\
  (forall ident data,
     unaffected_by_backup (fun bw => updateBookmark bw ident data) /\
     always_returns (fun bw => updateBookmark bw ident data)) /\
  (forall ident,
     unaffected_by_backup (fun bw => deleteBookmark bw ident) /\
     always_returns (fun bw => deleteBookmark bw ident)) /\
  (forall order,
     unaffected_by_backup (fun bw => reorderBookmarks bw order) /\
     always_returns (fun bw => reorderBookmarks bw order)) /\
  (forall order,
     unaffected_by_backup (fun bw => reorderBookmarkCategories bw order) /\
     always_returns (fun bw => reorderBookmarkCategories bw order)) /\
  (forall partial,
     unaffected_by_backup (fun bw => updateSettings bw partial) /\
     always_returns (fun bw => updateSettings bw partial)).
Proof.
  split; [exact backupData_down|].
  split; [exact backupData_run|].
  split; [|split; [|split; [|split; [|split]]]].
  - intros uuid now data. split; [apply createBookmark_unaffected|].
    intros bw w. destruct (stored (bookmarks w) uuid) eqn:E.
    + now rewrite createBookmark_run_stored.
    + destruct (createBookmark_run bw uuid now data w E) as [w1 [E1 _]].
      now rewrite E1.
  - intros ident data. apply unaffected_from_run. intro w.
    eexists; eexists. intro bw. apply (updateBookmark_run bw ident data w).
  - intros ident. apply unaffected_from_run. intro w.
    eexists; eexists. intro bw. apply (deleteBookmark_run bw ident w).
  - intros order. apply unaffected_from_run. intro w.
    eexists; eexists. intro bw. apply (reorderBookmarks_run bw order w).
  - intros order. apply unaffected_from_run. intro w.
    eexists; eexists. intro bw. apply (reorderBookmarkCategories_run bw order w).
  - intros partial. apply unaffected_from_run. intro w.
    eexists; eexists. intro bw. apply (updateSettings_run bw partial w).
Qed.

Example createBookmark_backup_down :
  fst (createBookmark backupDown (lit "d") 103 sampleInput sampleWorld)
    = Returned (newBookmarkOf (lit "d") sampleInput) /\
  console (snd (createBookmark backupDown (lit "d") 103 sampleInput sampleWorld))
    = [LogBackupFailed KBookmarks BackupWriteError].
Proof. split; vm_compute; reflexivity. Qed.

(** ** The create endpoint of the express server *)

(** A request whose title or url is missing or the empty string is
    answered 400 and nothing is written. *)
Lemma postBookmark_rejects_missing (uuid now : jsstring) (body : Backend.Body)
    (fs : Backend.Files) :
  toBoolean (Backend.b_title body) = false \/ toBoolean (Backend.b_url body) = false ->
  Backend.postBookmark uuid now body fs = (Backend.Status400, fs).
Proof.
  intros [H|H]; unfold Backend.postBookmark; rewrite H; simpl;
    [reflexivity | now rewrite orb_true_r].
Qed.

(** C6, at a title of blanks: the request passes the test on the raw
    fields, [sanitizeText] turns the title into [undefined], and the
    bookmark is written without a title and answered 201. *)
Theorem postBookmark_blank_title :
  Backend.postBookmark (lit "id-1") (lit "2025-01-02T00:00:00.000Z")
    (bodyOf (VString (lit "   ")) (VString (lit "https://x.com"))) sampleFiles
  = (Backend.Status201
       {| Backend.id := lit "id-1"; Backend.title := None;
          Backend.url := lit "https://x.com";
          Backend.category := None; Backend.description := None;
          Backend.visible := true;
          Backend.createdAt := lit "2025-01-02T00:00:00.000Z";
          Backend.updatedAt := lit "2025-01-02T00:00:00.000Z" |},
     {| Backend.bookmarksFile :=
          Some [ {| Backend.id := lit "id-1"; Backend.title := None;
                    Backend.url := lit "https://x.com";
                    Backend.category := None; Backend.description := None;
                    Backend.visible := true;
                    Backend.createdAt := lit "2025-01-02T00:00:00.000Z";
                    Backend.updatedAt := lit "2025-01-02T00:00:00.000Z" |} ];
        Backend.writable := true |}).
Proof. vm_compute. reflexivity. Qed.

(** ** Urls *)

Lemma hasHttpScheme_prefixed (s : jsstring) :
  ImportApi.hasHttpScheme (lit "https://" ++ s) = true.
Proof. reflexivity. Qed.

(** What the import's [sanitizeUrl] returns is empty or starts with
    http:// or https://. *)
Lemma import_sanitizeUrl_scheme (u : jsstring) :
  ImportApi.sanitizeUrl u = [] \/
  ImportApi.hasHttpScheme (ImportApi.sanitizeUrl u) = true.
Proof.
  unfold ImportApi.sanitizeUrl.
  destruct (isEmpty (trim u)); [now left|].
  destruct (ImportApi.hasHttpScheme (trim u)) eqn:E; right;
    [exact E | apply hasHttpScheme_prefixed].
Qed.

(** C4, at url "example.com": the import's [sanitizeUrl] gives
    "https://example.com" and leaves "https://x.com" as it is, but the
    create endpoint of the express server stores "example.com" as sent:
    its [sanitizeUrl] only trims. *)
Theorem sanitizeUrl_example :
  ImportApi.sanitizeUrl (lit "example.com") = lit "https://example.com" /\
  ImportApi.sanitizeUrl (lit "https://x.com") = lit "https://x.com" /\
  Backend.sanitizeUrl (VString (lit "https://x.com")) = lit "https://x.com" /\
  Backend.sanitizeUrl (VString (lit "example.com")) = lit "example.com" /\
  exists b fs',
    Backend.postBookmark (lit "id-1") (lit "2025-01-02T00:00:00.000Z")
      (bodyOf (VString (lit "Example")) (VString (lit "example.com"))) sampleFiles
    = (Backend.Status201 b, fs') /\
    Backend.url b = lit "example.com" /\
    Backend.bookmarksFile fs' = Some [b].
Proof.
  repeat (split; [vm_compute; reflexivity|]).
  eexists; eexists. split; [vm_compute; reflexivity|].
  split; reflexivity.
Qed.

(** ** visible *)

Section RunsImport.

Variable bw : BackupWriter.

(** [createBookmark] as far as an INSERT that throws on a parameter. *)
Lemma createBookmark_param_throws {A} (error : Error) (w : World) :
  (ensureTables ;; sql_query sql_next_order ;; @throw A error) w
  = (Thrown error, initTables w).
Proof.
  unfold bind at 1. rewrite ensureTables_run. reflexivity.
Qed.

(** Every turn of the loop returns; it adds one row or none. *)
Lemma importOne_returns (uuid : jsstring) (now : Z) (data : ImportApi.BookmarkData)
    (w : World) :
  exists r w',
    ImportApi.importOne bw uuid now data w = (Returned r, w') /\
    match r with
    | None =>
        exists visible,
          ImportApi.sqlBoolean (ImportApi.visibleOf data) = Returned visible /\
          stored (bookmarks w) uuid = false /\
          bookmarks w' =
          bookmarks w ++
          [newRowOf uuid now
             (ImportApi.toInput data
                (ImportApi.sanitizeUrl (nullish (ImportApi.d_url data) []))
                visible)
             (bookmarks w)]
    | Some _ => bookmarks w' = bookmarks w
    end.
Proof.
  unfold ImportApi.importOne.
  destruct (negb (ImportApi.truthy (ImportApi.d_title data)) ||
            negb (ImportApi.truthy (ImportApi.d_url data))).
  { eexists; eexists. split; [reflexivity|]. reflexivity. }
  destruct (isEmpty (ImportApi.sanitizeUrl (nullish (ImportApi.d_url data) []))).
  { eexists; eexists. split; [reflexivity|]. reflexivity. }
  unfold tryCatch.
  destruct (ImportApi.sqlBoolean (ImportApi.visibleOf data)) as [visible|error].
  - unfold bind.
    destruct (stored (bookmarks w) uuid) eqn:E.
    + rewrite createBookmark_run_stored by exact E.
      eexists; eexists. split; [reflexivity|]. apply initTables_bookmarks.
    + match goal with
      | |- context [createBookmark bw uuid now ?d w] =>
          destruct (createBookmark_run bw uuid now d w E) as [w1 [Hrun [Hb _]]]
      end.
      rewrite Hrun. exists None, w1. split; [reflexivity|].
      exists visible. split; [reflexivity|]. split; [reflexivity|].
      simpl in Hb. exact Hb.
  - rewrite createBookmark_param_throws.
    eexists; eexists. split; [reflexivity|]. apply initTables_bookmarks.
Qed.

Lemma importOne_created (uuid : jsstring) (now : Z) (data : ImportApi.BookmarkData)
    (w w' : World) :
  ImportApi.importOne bw uuid now data w = (Returned None, w') ->
  exists visible,
    ImportApi.sqlBoolean (ImportApi.visibleOf data) = Returned visible /\
    stored (bookmarks w) uuid = false /\
    bookmarks w' =
    bookmarks w ++
    [newRowOf uuid now
       (ImportApi.toInput data
          (ImportApi.sanitizeUrl (nullish (ImportApi.d_url data) []))
          visible)
       (bookmarks w)].
Proof.
  intro Hrun.
  destruct (importOne_returns uuid now data w) as [r [w1 [Hrun' Hrows]]].
  rewrite Hrun in Hrun'. inversion Hrun'; subst r w1. exact Hrows.
Qed.

Lemma normalize_trimOrUndefined (o : option jsstring) :
  normalizeCategoryValue (ImportApi.trimOrUndefined o) = ImportApi.trimOrUndefined o.
Proof.
  destruct o as [s|]; [|reflexivity].
  unfold ImportApi.trimOrUndefined.
  destruct (isEmpty (trim s)) eqn:E; [reflexivity|].
  unfold normalizeCategoryValue. rewrite E, trim_idem, E. reflexivity.
Qed.

Lemma sanitizeUrl_not_empty (u : jsstring) :
  trim u <> [] -> isEmpty (ImportApi.sanitizeUrl u) = false.
Proof.
  intro H. unfold ImportApi.sanitizeUrl.
  destruct (trim u) as [|c rest] eqn:E; [congruence|]. cbn [isEmpty].
  destruct (ImportApi.hasHttpScheme (c :: rest)); reflexivity.
Qed.

Lemma newRowOf_item (uuid : jsstring) (now : Z) (d : ImportApi.BookmarkData)
    (v : bool) (t : list Row) :
  newRowOf uuid now
    (ImportApi.toInput d (ImportApi.sanitizeUrl (nullish (ImportApi.d_url d) [])) v) t
  = itemRow uuid now (sql_next_order t) d v.
Proof.
  unfold newRowOf, itemRow, ImportApi.toInput. simpl.
  now rewrite normalize_trimOrUndefined.
Qed.

Lemma stored_app (t : list Row) (r : Row) (x : jsstring) :
  stored (t ++ [r]) x = stored t x || eqb (row_id r) x.
Proof.
  unfold stored. rewrite existsb_app. simpl. now rewrite orb_false_r.
Qed.

Lemma sql_next_order_snoc (t : list Row) (r : Row) :
  (forall x, In x t -> (row_order x < row_order r)%Z) ->
  sql_next_order (t ++ [r]) = (row_order r + 1)%Z.
Proof.
  intro Hlt. unfold sql_next_order, sql_max_order.
  destruct t as [|a rest]; [reflexivity|].
  cbn [app nullish]. rewrite fold_left_app. cbn [fold_left nullish].
  f_equal. apply Z.max_r.
  destruct (fold_max_attained rest (row_order a)) as [H|[x [Hin H]]]; rewrite H.
  - specialize (Hlt a (or_introl eq_refl)). lia.
  - specialize (Hlt x (or_intror Hin)). lia.
Qed.

(** One item that the import takes, under an id that is not stored. *)
Lemma importOne_item (uuid : jsstring) (now : Z) (d : ImportApi.BookmarkData)
    (v : bool) (w : World) :
  importable d ->
  ImportApi.sqlBoolean (ImportApi.visibleOf d) = Returned v ->
  stored (bookmarks w) uuid = false ->
  exists w',
    ImportApi.importOne bw uuid now d w = (Returned None, w') /\
    same_db (with_bookmarks (initTables w)
               (bookmarks w ++ [itemRow uuid now (sql_next_order (bookmarks w)) d v]))
            w'.
Proof.
  intros [Ht [Hu Hb]] Hv Hfresh.
  unfold ImportApi.importOne. rewrite Ht, Hu. cbn [negb orb].
  rewrite sanitizeUrl_not_empty by exact Hb.
  unfold tryCatch. rewrite Hv. unfold bind.
  match goal with
  | |- context [createBookmark bw uuid now ?data w] =>
      destruct (createBookmark_run bw uuid now data w Hfresh) as [w' [Hrun Hsame]]
  end.
  rewrite Hrun. exists w'. split; [reflexivity|].
  now rewrite newRowOf_item in Hsame.
Qed.

(** An item whose [visible] the INSERT refuses: the turn reports the
    error and no row is added. *)
Lemma importOne_refused (uuid : jsstring) (now : Z) (d : ImportApi.BookmarkData)
    (e : Error) (w : World) :
  importable d ->
  ImportApi.sqlBoolean (ImportApi.visibleOf d) = Thrown e ->
  ImportApi.importOne bw uuid now d w
  = (Returned (Some (ImportApi.CreateFailed (nullish (ImportApi.d_title d) []) e)),
     initTables w).
Proof.
  intros [Ht [Hu Hb]] Hv.
  unfold ImportApi.importOne. rewrite Ht, Hu. cbn [negb orb].
  rewrite sanitizeUrl_not_empty by exact Hb.
  unfold tryCatch. rewrite Hv. now rewrite createBookmark_param_throws.
Qed.

(** The loop over items that it takes, under ids that are new and
    different from each other: every item becomes a row, in the order of
    the items, after the rows of the table. *)
Lemma importBookmarks_items (uuidAt : nat -> jsstring) (nowAt : nat -> Z)
    (vis : ImportApi.BookmarkData -> bool) (items : list ImportApi.BookmarkData) :
  forall (i n : nat) (errs : list ImportApi.ImportError) (w : World),
    (forall d, In d items ->
       importable d /\ ImportApi.sqlBoolean (ImportApi.visibleOf d) = Returned (vis d)) ->
    (forall k, (i <= k < i + List.length items)%nat ->
       stored (bookmarks w) (uuidAt k) = false) ->
    (forall j k, (i <= j < i + List.length items)%nat ->
                 (i <= k < i + List.length items)%nat ->
                 uuidAt j = uuidAt k -> j = k) ->
    exists w',
      ImportApi.importBookmarks bw uuidAt nowAt i items n errs w
        = (Returned ((n + List.length items)%nat, errs), w') /\
      bookmarks w' =
        bookmarks w ++
        itemRows uuidAt nowAt vis i (sql_next_order (bookmarks w)) items.
Proof.
  induction items as [|d rest IH]; intros i n errs w Hok Hfresh Hinj.
  - exists w. simpl. rewrite app_nil_r, Nat.add_0_r. split; reflexivity.
  - cbn [ImportApi.importBookmarks itemRows]. unfold bind at 1.
    destruct (Hok d (or_introl eq_refl)) as [Hd Hv].
    destruct (importOne_item (uuidAt i) (nowAt i) d (vis d) w Hd Hv)
      as [w1 [Hrun [Hb1 _]]].
    { apply Hfresh. simpl. lia. }
    rewrite Hrun. simpl in Hb1.
    set (r := itemRow (uuidAt i) (nowAt i) (sql_next_order (bookmarks w)) d (vis d))
      in *.
    assert (Habove : forall x, In x (bookmarks w) -> (row_order x < row_order r)%Z).
    { intros x Hx. now apply sql_next_order_above. }
    destruct (IH (S i) (S n) errs w1) as [w' [Hrun' Hb']].
    + intros d' Hd'. apply Hok. now right.
    + intros k Hk. rewrite Hb1, stored_app.
      rewrite Hfresh by (simpl; lia). simpl.
      apply eqb_neq. intro E.
      assert (i = k) by (apply Hinj; simpl; try lia; exact E). lia.
    + intros j k Hj Hk. apply Hinj; simpl; lia.
    + exists w'. split.
      { rewrite Hrun'. simpl. do 3 f_equal. lia. }
      rewrite Hb', Hb1, sql_next_order_snoc by exact Habove.
      rewrite <- app_assoc. reflexivity.
Qed.

Lemma itemRows_visible (uuidAt : nat -> jsstring) (nowAt : nat -> Z)
    (vis : ImportApi.BookmarkData -> bool) (items : list ImportApi.BookmarkData) :
  forall (i : nat) (o : Z),
    List.map row_visible (itemRows uuidAt nowAt vis i o items) = List.map vis items /\
    List.map row_id (itemRows uuidAt nowAt vis i o items)
      = List.map uuidAt (seq i (List.length items)).
Proof.
  induction items as [|d rest IH]; intros i o; simpl; [auto|].
  destruct (IH (S i) (o + 1)%Z) as [H1 H2]. now rewrite H1, H2.
Qed.

End RunsImport.

(** C9, as the code has it.  The create endpoint of the express server
    takes [visible] only when its type is boolean: with any other value,
    or none, the bookmark is stored and answered visible.  The import
    gives [true] to an item that has no [visible] and takes a boolean as
    it is; the rows it adds for such items have these values, one row an
    item and in the order of the items.  Any other value it passes on to
    the INSERT, which stores what the value reads as a boolean or throws,
    and then the item is reported and nothing is stored. *)
Theorem visible_defaults_to_true :
  (forall (uuid now : jsstring) (body : Backend.Body) (fs : Backend.Files),
     (forall v, Backend.b_visible body <> VBool v) ->
     toBoolean (Backend.b_title body) = true ->
     toBoolean (Backend.b_url body) = true ->
     Backend.writable fs = true ->
     exists b fs',
       Backend.postBookmark uuid now body fs = (Backend.Status201 b, fs') /\
       Backend.visible b = true /\
       Backend.readJson fs' = Backend.readJson fs ++ [b]) /\
  (forall bw (uuid : jsstring) (now : Z) (data : ImportApi.BookmarkData) (w : World),
     importable data ->
     itemText data -> pgText uuid = true ->
     (sql_next_order (bookmarks w) <= INT4_MAX)%Z ->
     stored (bookmarks w) uuid = false ->
     match ImportApi.d_visible data with
     | None =>
         exists w' r,
           ImportApi.importOne bw uuid now data w = (Returned None, w') /\
           bookmarks w' = bookmarks w ++ [r] /\
           row_id r = uuid /\ row_visible r = true
     | Some (ImportApi.JBool v) =>
         exists w' r,
           ImportApi.importOne bw uuid now data w = (Returned None, w') /\
           bookmarks w' = bookmarks w ++ [r] /\
           row_id r = uuid /\ row_visible r = v
     | Some other =>
         match ImportApi.sqlBoolean other with
         | Returned v =>
             exists w' r,
               ImportApi.importOne bw uuid now data w = (Returned None, w') /\
               bookmarks w' = bookmarks w ++ [r] /\
               row_id r = uuid /\ row_visible r = v
         | Thrown e =>
             exists err w',
               ImportApi.importOne bw uuid now data w = (Returned (Some err), w') /\
               bookmarks w' = bookmarks w
         end
     end) /\
  (forall bw (uuidAt : nat -> jsstring) (nowAt : nat -> Z)
          (items : list ImportApi.BookmarkData) (w : World),
     (forall d, In d items -> importable d /\ typedVisible d /\ itemText d) ->
     (forall k, (k < List.length items)%nat ->
        stored (bookmarks w) (uuidAt k) = false /\ pgText (uuidAt k) = true) ->
     (forall j k, (j < List.length items)%nat -> (k < List.length items)%nat ->
                  uuidAt j = uuidAt k -> j = k) ->
     (sql_next_order (bookmarks w) + Z.of_nat (List.length items) <= INT4_MAX + 1)%Z ->
     exists w' added,
       ImportApi.importBookmarks bw uuidAt nowAt 0 items 0 [] w
         = (Returned (List.length items, []), w') /\
       bookmarks w' = bookmarks w ++ added /\
       List.map row_id added = List.map uuidAt (seq 0 (List.length items)) /\
       List.map row_visible added = List.map givenOrTrue items).
Proof.
  split; [|split].
  - intros uuid now body fs Hv Ht Hu Hw.
    unfold Backend.postBookmark, Backend.writeJson. rewrite Ht, Hu, Hw.
    cbn [negb orb]. eexists; eexists. split; [reflexivity|].
    split; [|reflexivity]. cbn [Backend.visible].
    destruct (Backend.b_visible body) as [| |v| |]; try reflexivity.
    exfalso. now apply (Hv v).
  - intros bw uuid now data w Hd _ _ _ Hfresh.
    assert (Hrow : forall v,
      ImportApi.sqlBoolean (ImportApi.visibleOf data) = Returned v ->
      exists w' r,
        ImportApi.importOne bw uuid now data w = (Returned None, w') /\
        bookmarks w' = bookmarks w ++ [r] /\
        row_id r = uuid /\ row_visible r = v).
    { intros v Hv.
      destruct (importOne_item bw uuid now data v w Hd Hv Hfresh)
        as [w' [Hrun [Hb _]]].
      exists w'. eexists. split; [exact Hrun|]. split; [exact Hb|].
      split; reflexivity. }
    unfold ImportApi.visibleOf in Hrow.
    destruct (ImportApi.d_visible data) as [other|] eqn:Ev;
      [|now apply Hrow].
    destruct other as [|v|text|s| |]; try (now apply Hrow);
      match goal with
      | |- match ?sb with _ => _ end =>
          destruct sb as [v|e] eqn:Esb; [now apply Hrow|]
      end;
      (eexists; eexists; split;
       [apply importOne_refused;
        [exact Hd | unfold ImportApi.visibleOf; rewrite Ev; exact Esb]
       | apply initTables_bookmarks]).
  - intros bw uuidAt nowAt items w Hok Hfresh Hinj _.
    destruct (importBookmarks_items bw uuidAt nowAt givenOrTrue items 0 0 [] w)
      as [w' [Hrun Hb]].
    + intros d Hd. destruct (Hok d Hd) as [Hi [Ht _]]. split; [exact Hi|].
      unfold typedVisible in Ht. unfold ImportApi.visibleOf, givenOrTrue.
      destruct (ImportApi.d_visible d) as [[|v|text|s| |]|];
        try contradiction; reflexivity.
    + intros k Hk. apply Hfresh. lia.
    + intros j k Hj Hk. apply Hinj; lia.
    + exists w'. eexists. split; [exact Hrun|]. split; [exact Hb|].
      destruct (itemRows_visible uuidAt nowAt givenOrTrue items 0
                  (sql_next_order (bookmarks w))) as [H1 H2].
      split; assumption.
Qed.

Lemma sampleData_importable (v : option ImportApi.JsonValue) :
  importable {| ImportApi.d_id := None;
                ImportApi.d_title := Some (lit "Example");
                ImportApi.d_url := Some (lit "example.com");
                ImportApi.d_category := None;
                ImportApi.d_description := None;
                ImportApi.d_visible := v |}.
Proof.
  split; [reflexivity|]. split; [reflexivity|]. vm_compute. discriminate.
Qed.

Lemma sampleIdAt_inj (j k : nat) : sampleIdAt j = sampleIdAt k -> j = k.
Proof.
  unfold sampleIdAt. intro H. apply app_inv_head in H.
  assert (E : (97 + N.of_nat j = 97 + N.of_nat k)%N) by congruence.
  apply N.add_cancel_l in E. now apply Nat2N.inj.
Qed.

Lemma visible_defaults_to_true_witness :
  (exists b fs',
     Backend.postBookmark (lit "id-1") (lit "2025-01-02T00:00:00.000Z")
       (bodyVisible (VString (lit "Example")) (VString (lit "example.com"))
          (VString (lit "false")))
       sampleFiles
     = (Backend.Status201 b, fs') /\
     Backend.visible b = true /\
     Backend.readJson fs' = Backend.readJson sampleFiles ++ [b]) /\
  (exists w' r,
     ImportApi.importOne backupDown (lit "d") 103 sampleData sampleWorld
     = (Returned None, w') /\
     bookmarks w' = bookmarks sampleWorld ++ [r] /\
     row_id r = lit "d" /\ row_visible r = true) /\
  (exists w' added,
     ImportApi.importBookmarks backupDown sampleIdAt sampleNowAt 0
       [sampleData; sampleDataWith (ImportApi.JBool false)] 0 [] sampleWorld
     = (Returned (2%nat, []), w') /\
     bookmarks w' = bookmarks sampleWorld ++ added /\
     List.map row_id added = [lit "id-a"; lit "id-b"] /\
     List.map row_visible added = [true; false]).
Proof.
  split; [|split].
  - apply (proj1 visible_defaults_to_true (lit "id-1")
             (lit "2025-01-02T00:00:00.000Z")
             (bodyVisible (VString (lit "Example")) (VString (lit "example.com"))
                (VString (lit "false")))
             sampleFiles);
      [intros v; discriminate | reflexivity | reflexivity | reflexivity].
  - apply (proj1 (proj2 visible_defaults_to_true) backupDown (lit "d") 103%Z
             sampleData sampleWorld).
    + apply sampleData_importable.
    + repeat split.
    + reflexivity.
    + vm_compute. discriminate.
    + reflexivity.
  - apply (proj2 (proj2 visible_defaults_to_true) backupDown sampleIdAt sampleNowAt
             [sampleData; sampleDataWith (ImportApi.JBool false)] sampleWorld).
    + intros d [E|[E|[]]]; subst d;
        (split; [apply sampleData_importable | split; [exact I | repeat split]]).
    + intros k Hk. simpl in Hk.
      destruct k as [|[|k]]; [split; reflexivity | split; reflexivity | lia].
    + intros j k _ _. apply sampleIdAt_inj.
    + vm_compute. discriminate.
Defined.

(** C9 as stated fails on the import: an item whose [visible] is the
    string "false", or the number 0, is no boolean and is stored with
    [visible] false, and an item whose [visible] is [null] is not stored
    at all. *)
Lemma import_visible_not_defaulted :
  (exists w' r,
     ImportApi.importOne backupDown (lit "d") 103
       (sampleDataWith (ImportApi.JString (lit "false"))) sampleWorld
     = (Returned None, w') /\
     bookmarks w' = bookmarks sampleWorld ++ [r] /\
     row_id r = lit "d" /\ row_visible r = false) /\
  (exists w' r,
     ImportApi.importOne backupDown (lit "d") 103
       (sampleDataWith (ImportApi.JNumber (lit "0"))) sampleWorld
     = (Returned None, w') /\
     bookmarks w' = bookmarks sampleWorld ++ [r] /\
     row_id r = lit "d" /\ row_visible r = false) /\
  (exists w',
     ImportApi.importOne backupDown (lit "d") 103
       (sampleDataWith ImportApi.JNull) sampleWorld
     = (Returned (Some (ImportApi.CreateFailed (lit "Example") NotNullViolation)), w') /\
     bookmarks w' = bookmarks sampleWorld).
Proof.
  split; [|split].
  - eexists; eexists. split; [vm_compute; reflexivity|].
    split; [reflexivity|]. split; reflexivity.
  - eexists; eexists. split; [vm_compute; reflexivity|].
    split; [reflexivity|]. split; reflexivity.
  - eexists. split; [vm_compute; reflexivity|]. reflexivity.
Qed.

(** ** The primary key *)

(** The statements of db.ts keep the ids of table [bookmarks] distinct:
    the insert refuses an id that is stored, the updates leave ids as they
    are, the delete removes rows. *)
Lemma primary_key_kept (t : list Row) :
  NoDup (List.map row_id t) ->
  (forall i ids, NoDup (List.map row_id (assign_orders i ids t))) /\
  (forall ident ti ur ca de vi,
     NoDup (List.map row_id (sql_update_fields ident ti ur ca de vi t))) /\
  (forall ident, NoDup (List.map row_id (sql_delete ident t))) /\
  (forall r, stored t (row_id r) = false -> NoDup (List.map row_id (t ++ [r]))).
Proof.
  intro Hpk. split; [|split; [|split]].
  - intros i ids. now rewrite assign_orders_ids.
  - intros ident ti ur ca de vi.
    assert (E : List.map row_id (sql_update_fields ident ti ur ca de vi t)
                = List.map row_id t).
    { unfold sql_update_fields. rewrite map_map. apply map_ext.
      intro r. destruct (eqb (row_id r) ident); reflexivity. }
    now rewrite E.
  - intro ident. unfold sql_delete.
    induction t as [|r rest IH]; simpl; [constructor|].
    inversion Hpk as [|? ? Hnotin Hnd]; subst.
    destruct (negb (eqb (row_id r) ident)); simpl; [|now apply IH].
    constructor; [|now apply IH].
    intro Hin. apply Hnotin. apply in_map_iff in Hin.
    destruct Hin as [x [Hx Hin]]. apply filter_In in Hin.
    apply in_map_iff. exists x. tauto.
  - intros r Hfresh. rewrite map_app. simpl.
    apply NoDup_app; [assumption | repeat constructor; intros [] |].
    intros y Hy [E|[]]. subst y. apply stored_In in Hy. congruence.
Qed.

(** * More of the code *)

(** ** [ORDER BY] sorts *)

Lemma row_le_total (a b : Row) : row_le a b = false -> row_le b a = true.
Proof.
  unfold row_le.
  destruct (Z.ltb_spec (row_order a) (row_order b));
  destruct (Z.ltb_spec (row_order b) (row_order a));
  destruct (Z.eqb_spec (row_order a) (row_order b));
  destruct (Z.eqb_spec (row_order b) (row_order a));
  destruct (Z.leb_spec (row_created_at a) (row_created_at b));
  destruct (Z.leb_spec (row_created_at b) (row_created_at a));
  simpl; intros; try reflexivity; try discriminate; lia.
Qed.

Lemma row_le_trans (a b c : Row) :
  row_le a b = true -> row_le b c = true -> row_le a c = true.
Proof.
  unfold row_le.
  destruct (Z.ltb_spec (row_order a) (row_order b));
  destruct (Z.ltb_spec (row_order b) (row_order c));
  destruct (Z.ltb_spec (row_order a) (row_order c));
  destruct (Z.eqb_spec (row_order a) (row_order b));
  destruct (Z.eqb_spec (row_order b) (row_order c));
  destruct (Z.eqb_spec (row_order a) (row_order c));
  destruct (Z.leb_spec (row_created_at a) (row_created_at b));
  destruct (Z.leb_spec (row_created_at b) (row_created_at c));
  destruct (Z.leb_spec (row_created_at a) (row_created_at c));
  simpl; intros; try reflexivity; try discriminate; lia.
Qed.

Lemma insertRow_In (r x : Row) (l : list Row) :
  In x (insertRow r l) <-> x = r \/ In x l.
Proof.
  induction l as [|y ys IH]; simpl.
  - intuition.
  - destruct (row_le r y); simpl; [intuition|]. rewrite IH. intuition.
Qed.

Lemma insertRow_sorted (r : Row) (l : list Row) :
  rows_sorted l -> rows_sorted (insertRow r l).
Proof.
  unfold rows_sorted. induction 1 as [|x xs Hs IH Hall]; simpl.
  - repeat constructor.
  - destruct (row_le r x) eqn:E.
    + constructor; [now constructor|].
      constructor; [exact E|].
      rewrite Forall_forall in *. intros y Hy.
      eapply row_le_trans; [exact E | now apply Hall].
    + constructor; [exact IH|].
      rewrite Forall_forall in *. intros y Hy.
      apply insertRow_In in Hy. destruct Hy as [Hy|Hy].
      * subst y. now apply row_le_total.
      * now apply Hall.
Qed.

Lemma orderBy_sorted (t : list Row) : rows_sorted (orderBy t).
Proof.
  induction t as [|r rest IH]; simpl; [constructor|].
  now apply insertRow_sorted.
Qed.

Lemma insertRow_least (r : Row) (l : list Row) :
  Forall (fun y => row_le r y = true) l -> insertRow r l = r :: l.
Proof.
  intro H. destruct l as [|x xs]; simpl; [reflexivity|].
  inversion H; subst. now rewrite H2.
Qed.

Lemma insertRow_filter (p : Row -> bool) (r : Row) (l : list Row) :
  rows_sorted l ->
  filter p (insertRow r l) =
  if p r then insertRow r (filter p l) else filter p l.
Proof.
  unfold rows_sorted. induction 1 as [|x xs Hs IH Hall]; simpl.
  - destruct (p r); reflexivity.
  - destruct (row_le r x) eqn:E; simpl.
    + destruct (p r) eqn:Er; [|reflexivity].
      symmetry. apply (insertRow_least r (filter p (x :: xs))).
      apply Forall_forall. intros y Hy. apply filter_In in Hy.
      destruct Hy as [[Hy|Hy] _].
      * now subst.
      * rewrite Forall_forall in Hall.
        eapply row_le_trans; [exact E | now apply Hall].
    + rewrite IH. destruct (p x) eqn:Ex; destruct (p r) eqn:Er; simpl;
        rewrite ?E; reflexivity.
Qed.

(** A [WHERE] on the rows and the [ORDER BY] commute. *)
Lemma orderBy_filter (p : Row -> bool) (t : list Row) :
  orderBy (filter p t) = filter p (orderBy t).
Proof.
  induction t as [|r rest IH]; simpl; [reflexivity|].
  change (fold_right insertRow [] rest) with (orderBy rest).
  rewrite insertRow_filter by apply orderBy_sorted.
  destruct (p r); simpl; now rewrite IH.
Qed.

Lemma orderBy_map (f : Row -> Row) (t : list Row) :
  (forall a b, row_le (f a) (f b) = row_le a b) ->
  orderBy (List.map f t) = List.map f (orderBy t).
Proof.
  intro Hf.
  assert (Hins : forall r l, insertRow (f r) (List.map f l) = List.map f (insertRow r l)).
  { intros r l. induction l as [|x xs IH]; simpl; [reflexivity|].
    rewrite Hf. destruct (row_le r x); simpl; [reflexivity | now rewrite IH]. }
  induction t as [|r rest IH]; simpl; [reflexivity|].
  change (fold_right insertRow [] (List.map f rest)) with (orderBy (List.map f rest)).
  now rewrite IH, Hins.
Qed.

(** X1: [listBookmarks] answers every stored row once, as a record, in the
    order of [order] and then [created_at], and leaves the table as it
    is. *)
Theorem listBookmarks_sorted (w : World) :
  exists rows w',
    listBookmarks w = (Returned (List.map rowToRecord rows), w') /\
    Permutation rows (bookmarks w) /\
    rows_sorted rows /\
    bookmarks w' = bookmarks w.
Proof.
  exists (orderBy (bookmarks w)), (initTables w).
  unfold listBookmarks. rewrite readBookmarksFromDb_run.
  split; [reflexivity|]. split; [apply orderBy_Permutation|].
  split; [apply orderBy_sorted | apply initTables_bookmarks].
Qed.

(** ** deleteBookmark, updateBookmark and createBookmark of db.ts *)

Lemma select_unstored (ident : jsstring) (t : list Row) :
  stored t ident = false -> sql_select_by_id ident t = [].
Proof.
  unfold stored, sql_select_by_id. induction t as [|r rest IH]; simpl; [reflexivity|].
  destruct (eqb (row_id r) ident); simpl; [discriminate | exact IH].
Qed.

Lemma select_stored (ident : jsstring) (t : list Row) :
  stored t ident = true ->
  exists r rest, sql_select_by_id ident t = r :: rest /\ In r t /\ row_id r = ident.
Proof.
  unfold stored, sql_select_by_id. induction t as [|x xs IH]; simpl; [discriminate|].
  destruct (eqb (row_id x) ident) eqn:E; simpl.
  - intros _. exists x, (filter (fun r => eqb (row_id r) ident) xs).
    split; [reflexivity|]. split; [now left | now apply eqb_eq].
  - intro H. destruct (IH H) as [r [rest [H1 [H2 H3]]]].
    exists r, rest. auto.
Qed.

Lemma filter_all {A} (p : A -> bool) (l : list A) :
  (forall x, In x l -> p x = true) -> filter p l = l.
Proof.
  induction l as [|y ys IH]; intro H; simpl; [reflexivity|].
  rewrite (H y) by now left. f_equal. apply IH. intros x Hx. apply H. now right.
Qed.

Lemma delete_length (ident : jsstring) (t : list Row) :
  NoDup (List.map row_id t) -> stored t ident = true ->
  S (List.length (sql_delete ident t)) = List.length t.
Proof.
  unfold stored, sql_delete. induction t as [|x xs IH]; simpl; [discriminate|].
  intros Hnd Hs. inversion Hnd as [|? ? Hnotin Hnd']; subst.
  destruct (eqb (row_id x) ident) eqn:E; simpl.
  - f_equal. apply eqb_eq in E.
    assert (Hall : filter (fun r => negb (eqb (row_id r) ident)) xs = xs).
    { apply filter_all. intros r Hr. apply negb_true_iff, eqb_neq. intro Er.
      apply Hnotin. rewrite E, <- Er. now apply in_map. }
    now rewrite Hall.
  - f_equal. now apply IH.
Qed.



(** X3: [deleteBookmark] on a stored id answers that bookmark and removes
    it: the list afterwards is the list before without the bookmarks of
    that id, all others in the order they had, one bookmark shorter; the
    rows that stay keep their [order] value (nothing is renumbered). *)
Theorem deleteBookmark_known :
  forall bw (ident : jsstring) (w : World),
    NoDup (List.map row_id (bookmarks w)) ->
    stored (bookmarks w) ident = true ->
    forall before w0,
      listBookmarks w = (Returned before, w0) ->
      exists b w1,
        deleteBookmark bw ident w0 = (Returned (Some b), w1) /\
        id b = ident /\ In b before /\
        bookmarks w1 = filter (fun r => negb (eqb (row_id r) ident)) (bookmarks w) /\
        fst (listBookmarks w1)
          = Returned (filter (fun x => negb (eqb (id x) ident)) before) /\
        S (List.length (filter (fun x => negb (eqb (id x) ident)) before))
          = List.length before.
Proof.
  intros bw ident w Hpk Hs before w0 Hlist.
  unfold listBookmarks in Hlist. rewrite readBookmarksFromDb_run in Hlist.
  inversion Hlist; subst before w0; clear Hlist.
  destruct (deleteBookmark_run bw ident (initTables w)) as [w1 [Hrun [Hb _]]].
  rewrite initTables_bookmarks in Hrun, Hb.
  destruct (select_stored ident (bookmarks w) Hs) as [r [rest [Hsel [Hin Hid]]]].
  rewrite Hsel in Hrun, Hb. simpl in Hb.
  assert (Hrec : forall l, List.map rowToRecord
                             (filter (fun r => negb (eqb (row_id r) ident)) l)
                           = filter (fun x => negb (eqb (id x) ident))
                               (List.map rowToRecord l)).
  { induction l as [|y ys IH]; simpl; [reflexivity|].
    destruct (negb (eqb (row_id y) ident)); simpl; now rewrite IH. }
  exists (rowToRecord r), w1.
  split; [exact Hrun|]. split; [exact Hid|]. split.
  { apply in_map. apply (Permutation_in r (Permutation_sym (orderBy_Permutation _))).
    exact Hin. }
  split; [exact Hb|]. split.
  - unfold listBookmarks. rewrite readBookmarksFromDb_run. simpl.
    rewrite Hb. unfold sql_delete. now rewrite orderBy_filter, Hrec.
  - rewrite <- Hrec, !length_map.
    rewrite <- orderBy_filter.
    rewrite (Permutation_length (orderBy_Permutation _)).
    rewrite (Permutation_length (orderBy_Permutation (bookmarks w))).
    now apply delete_length.
Qed.

Lemma sampleWorld_stored_b : stored (bookmarks sampleWorld) (lit "b") = true.
Proof. reflexivity. Qed.

Lemma deleteBookmark_known_witness :
  NoDup (List.map row_id (bookmarks sampleWorld)) /\
  stored (bookmarks sampleWorld) (lit "b") = true /\
  listBookmarks sampleWorld =
    (Returned (List.map rowToRecord [rowA; rowB; rowC]), initTables sampleWorld) /\
  exists b w1,
    deleteBookmark backupDown (lit "b") (initTables sampleWorld)
      = (Returned (Some b), w1) /\
    id b = lit "b" /\ In b (List.map rowToRecord [rowA; rowB; rowC]) /\
    bookmarks w1
      = filter (fun r => negb (eqb (row_id r) (lit "b"))) (bookmarks sampleWorld) /\
    fst (listBookmarks w1)
      = Returned (filter (fun x => negb (eqb (id x) (lit "b")))
                    (List.map rowToRecord [rowA; rowB; rowC])) /\
    S (List.length (filter (fun x => negb (eqb (id x) (lit "b")))
                      (List.map rowToRecord [rowA; rowB; rowC])))
      = List.length (List.map rowToRecord [rowA; rowB; rowC]).
Proof.
  split; [exact sampleWorld_ids|]. split; [exact sampleWorld_stored_b|].
  split; [reflexivity|].
  apply (deleteBookmark_known backupDown (lit "b") sampleWorld sampleWorld_ids
           sampleWorld_stored_b _ (initTables sampleWorld)).
  reflexivity.
Defined.



(** X5: [updateBookmark] on a stored id answers the bookmark with the new
    fields, its category normalized, and replaces it where it stood: the
    list afterwards is the list before with the bookmarks of that id
    replaced, and every row keeps its [order] value.  This is for a table
    in which no two rows agree on [order] and [created_at], so that the
    list has one order, and for text the columns hold. *)
Theorem updateBookmark_known :
  forall bw (ident : jsstring) (data : BookmarkInput) (w : World),
    untied (bookmarks w) ->
    inputText data ->
    stored (bookmarks w) ident = true ->
    forall before w0,
      listBookmarks w = (Returned before, w0) ->
      exists w1,
        updateBookmark bw ident data w0
          = (Returned (Some (updatedRecord ident data)), w1) /\
        fst (listBookmarks w1)
          = Returned (List.map (fun b => if eqb (id b) ident
                                         then updatedRecord ident data else b)
                        before) /\
        List.map row_order (bookmarks w1) = List.map row_order (bookmarks w) /\
        List.map row_id (bookmarks w1) = List.map row_id (bookmarks w).
Proof.
  intros bw ident data w _ _ Hs before w0 Hlist.
  unfold listBookmarks in Hlist. rewrite readBookmarksFromDb_run in Hlist.
  inversion Hlist; subst before w0; clear Hlist.
  destruct (updateBookmark_run bw ident data (initTables w)) as [w1 [Hrun [Hb _]]].
  rewrite initTables_bookmarks in Hrun, Hb.
  destruct (select_stored ident (bookmarks w) Hs) as [r [rest [Hsel _]]].
  rewrite Hsel in Hrun, Hb. simpl in Hb.
  exists w1. split; [exact Hrun|].
  unfold sql_update_fields in Hb.
  split; [|split].
  - unfold listBookmarks. rewrite readBookmarksFromDb_run. simpl.
    rewrite Hb. rewrite orderBy_map.
    + rewrite !map_map. f_equal. apply map_ext. intro x.
      change (id (rowToRecord x)) with (row_id x).
      destruct (eqb (row_id x) ident) eqn:E; [|reflexivity].
      apply eqb_eq in E. unfold rowToRecord, updatedRecord. simpl.
      now rewrite normalizeCategoryValue_idem, E.
    + intros a b. unfold row_le.
      destruct (eqb (row_id a) ident); destruct (eqb (row_id b) ident); reflexivity.
  - rewrite Hb, map_map. apply map_ext. intro x.
    destruct (eqb (row_id x) ident); reflexivity.
  - rewrite Hb, map_map. apply map_ext. intro x.
    destruct (eqb (row_id x) ident); reflexivity.
Qed.

Lemma sampleWorld_untied : untied (bookmarks sampleWorld).
Proof.
  unfold untied. simpl.
  repeat constructor; simpl; intuition discriminate.
Qed.

Lemma sampleInput_text : inputText sampleInput.
Proof. repeat split. Qed.

Lemma updateBookmark_known_witness :
  untied (bookmarks sampleWorld) /\
  inputText sampleInput /\
  stored (bookmarks sampleWorld) (lit "b") = true /\
  listBookmarks sampleWorld =
    (Returned (List.map rowToRecord [rowA; rowB; rowC]), initTables sampleWorld) /\
  exists w1,
    updateBookmark backupDown (lit "b") sampleInput (initTables sampleWorld)
      = (Returned (Some (updatedRecord (lit "b") sampleInput)), w1) /\
    fst (listBookmarks w1)
      = Returned (List.map (fun b => if eqb (id b) (lit "b")
                                     then updatedRecord (lit "b") sampleInput else b)
                    (List.map rowToRecord [rowA; rowB; rowC])) /\
    List.map row_order (bookmarks w1) = List.map row_order (bookmarks sampleWorld) /\
    List.map row_id (bookmarks w1) = List.map row_id (bookmarks sampleWorld).
Proof.
  split; [exact sampleWorld_untied|]. split; [exact sampleInput_text|].
  split; [exact sampleWorld_stored_b|]. split; [reflexivity|].
  apply (updateBookmark_known backupDown (lit "b") sampleInput sampleWorld
           sampleWorld_untied sampleInput_text
           sampleWorld_stored_b _ (initTables sampleWorld)).
  reflexivity.
Defined.

(** X6: [createBookmark] with an id that is already stored throws on the
    insert: no row is added or changed, no backup is written and nothing
    is logged. *)
Theorem createBookmark_stored_id :
  forall bw (uuid : jsstring) (now : Z) (data : BookmarkInput) (w : World),
    stored (bookmarks w) uuid = true ->
    exists w',
      createBookmark bw uuid now data w = (Thrown (UniqueViolation uuid), w') /\
      bookmarks w' = bookmarks w /\
      backupStore w' = backupStore w /\
      console w' = console w.
Proof.
  intros bw uuid now data w H. exists (initTables w).
  split; [now apply createBookmark_run_stored|].
  unfold initTables. destruct (tablesInitialized w); [auto|].
  destruct (settings w); auto.
Qed.

Lemma createBookmark_stored_id_witness :
  stored (bookmarks sampleWorld) (lit "b") = true /\
  exists w',
    createBookmark backupOk (lit "b") 103 sampleInput sampleWorld
      = (Thrown (UniqueViolation (lit "b")), w') /\
    bookmarks w' = bookmarks sampleWorld /\
    backupStore w' = backupStore sampleWorld /\
    console w' = console sampleWorld.
Proof.
  split; [exact sampleWorld_stored_b|].
  apply (createBookmark_stored_id backupOk (lit "b") 103%Z sampleInput sampleWorld).
  reflexivity.
Defined.

Lemma delete_appended (uuid : jsstring) (t : list Row) (r : Row) :
  stored t uuid = false -> row_id r = uuid -> sql_delete uuid (t ++ [r]) = t.
Proof.
  intros Hf Hid. unfold sql_delete. rewrite filter_app. simpl.
  rewrite Hid, eqb_refl. simpl. rewrite app_nil_r.
  apply filter_all. intros x Hx. apply negb_true_iff, eqb_neq. intro E.
  assert (stored t uuid = true); [|congruence].
  apply stored_In. rewrite <- E. now apply in_map.
Qed.

(** X7: [createBookmark] followed by [deleteBookmark] of the new id gives
    back the bookmark created and leaves the table exactly as it was, for
    an id that is not stored and values the columns hold. *)
Theorem create_then_delete :
  forall bw (uuid : jsstring) (now : Z) (data : BookmarkInput) (w : World),
    insertable uuid data (bookmarks w) ->
    stored (bookmarks w) uuid = false ->
    exists b w1 w2,
      createBookmark bw uuid now data w = (Returned b, w1) /\
      deleteBookmark bw uuid w1 = (Returned (Some b), w2) /\
      bookmarks w2 = bookmarks w.
Proof.
  intros bw uuid now data w _ Hf.
  destruct (createBookmark_run bw uuid now data w Hf) as [w1 [Hrun1 [Hb1 _]]].
  simpl in Hb1.
  destruct (deleteBookmark_run bw uuid w1) as [w2 [Hrun2 [Hb2 _]]].
  rewrite Hb1 in Hrun2, Hb2.
  assert (Hsel : sql_select_by_id uuid
                   (bookmarks w ++ [newRowOf uuid now data (bookmarks w)])
                 = [newRowOf uuid now data (bookmarks w)]).
  { unfold sql_select_by_id. rewrite filter_app. simpl. rewrite eqb_refl.
    fold (sql_select_by_id uuid (bookmarks w)). now rewrite select_unstored. }
  rewrite Hsel in Hrun2, Hb2. simpl in Hb2.
  rewrite delete_appended in Hb2 by (auto; reflexivity).
  exists (newBookmarkOf uuid data), w1, w2.
  split; [exact Hrun1|]. split; [|exact Hb2].
  rewrite Hrun2. do 3 f_equal.
  unfold rowToRecord, newRowOf, newBookmarkOf. simpl.
  now rewrite normalizeCategoryValue_idem.
Qed.

Lemma sampleInput_insertable :
  insertable (lit "d") sampleInput (bookmarks sampleWorld).
Proof.
  split; [reflexivity|]. split; [exact sampleInput_text|].
  vm_compute. discriminate.
Qed.

Lemma create_then_delete_witness :
  insertable (lit "d") sampleInput (bookmarks sampleWorld) /\
  stored (bookmarks sampleWorld) (lit "d") = false /\
  exists b w1 w2,
    createBookmark backupOk (lit "d") 103 sampleInput sampleWorld = (Returned b, w1) /\
    deleteBookmark backupOk (lit "d") w1 = (Returned (Some b), w2) /\
    bookmarks w2 = bookmarks sampleWorld.
Proof.
  split; [exact sampleInput_insertable|]. split; [reflexivity|].
  apply (create_then_delete backupOk (lit "d") 103%Z sampleInput sampleWorld
           sampleInput_insertable).
  reflexivity.
Defined.

(** ** reorderBookmarks: more on the sequence *)

(** X8: when the sequence names every stored id exactly once,
    [reorderBookmarks] answers the bookmarks in the order of the sequence,
    the same bookmarks as before; that is the list from then on, and the
    [order] column holds 0, 1, ..., N-1 along it. *)
Theorem reorderBookmarks_every_id :
  forall bw (order : list jsstring) (w : World),
    NoDup order ->
    Permutation order (List.map row_id (bookmarks w)) ->
    forall before w0,
      listBookmarks w = (Returned before, w0) ->
      exists after w1,
        reorderBookmarks bw order w0 = (Returned after, w1) /\
        List.map id after = order /\
        Permutation after before /\
        fst (listBookmarks w1) = Returned after /\
        List.map row_order (orderBy (bookmarks w1))
          = List.map Z.of_nat (seq 0 (List.length before)).
Proof.
  intros bw order w Hnd Hp before w0 Hlist.
  unfold listBookmarks in Hlist. rewrite readBookmarksFromDb_run in Hlist.
  inversion Hlist; subst before w0; clear Hlist.
  destruct (Permutation_map_inv _ _ Hp) as [s [Hs Hps]].
  destruct (reorderBookmarks_run bw order (initTables w)) as [w1 [Hrun [Hb _]]].
  rewrite initTables_bookmarks in Hrun, Hb. simpl in Hb. subst order.
  rewrite orderBy_assign in Hrun by assumption.
  rewrite number_records in Hrun.
  exists (List.map rowToRecord s), w1.
  split; [exact Hrun|]. split; [now rewrite map_map|]. split.
  { apply Permutation_map. rewrite <- Hps. symmetry. apply orderBy_Permutation. }
  split.
  - unfold listBookmarks. rewrite readBookmarksFromDb_run. simpl.
    rewrite Hb, orderBy_assign by assumption. now rewrite number_records.
  - rewrite Hb, orderBy_assign by assumption.
    rewrite number_orders, length_map.
    rewrite (Permutation_length (orderBy_Permutation _)), (Permutation_length Hps).
    apply map_ext. intro k. lia.
Qed.

Lemma reorderBookmarks_every_id_witness :
  NoDup [lit "c"; lit "a"; lit "b"] /\
  Permutation [lit "c"; lit "a"; lit "b"] (List.map row_id (bookmarks sampleWorld)) /\
  listBookmarks sampleWorld =
    (Returned (List.map rowToRecord [rowA; rowB; rowC]), initTables sampleWorld) /\
  exists after w1,
    reorderBookmarks backupOk [lit "c"; lit "a"; lit "b"] (initTables sampleWorld)
      = (Returned after, w1) /\
    List.map id after = [lit "c"; lit "a"; lit "b"] /\
    Permutation after (List.map rowToRecord [rowA; rowB; rowC]) /\
    fst (listBookmarks w1) = Returned after /\
    List.map row_order (orderBy (bookmarks w1))
      = List.map Z.of_nat
          (seq 0 (List.length (List.map rowToRecord [rowA; rowB; rowC]))).
Proof.
  assert (Hnd : NoDup [lit "c"; lit "a"; lit "b"])
    by (repeat constructor; simpl; intuition discriminate).
  assert (Hp : Permutation [lit "c"; lit "a"; lit "b"]
                 (List.map row_id (bookmarks sampleWorld)))
    by apply (Permutation_cons_append [lit "a"; lit "b"] (lit "c")).
  split; [exact Hnd|]. split; [exact Hp|]. split; [reflexivity|].
  exact (reorderBookmarks_every_id backupOk _ sampleWorld Hnd Hp _
           (initTables sampleWorld) eq_refl).
Defined.




(** ** ensureTables and the settings row *)

(** [ensureTables] does its work once: it never throws, never
    touches table [bookmarks], keeps a settings row that is there and
    inserts the default one otherwise; called again it changes nothing. *)
Lemma ensureTables_once (w : World) :
  exists w1,
    ensureTables w = (Returned tt, w1) /\
    ensureTables w1 = (Returned tt, w1) /\
    bookmarks w1 = bookmarks w /\
    tablesInitialized w1 = true /\
    settings w1 =
      (if tablesInitialized w then settings w
       else match settings w with
            | Some s => Some s
            | None => Some DEFAULT_SETTINGS
            end).
Proof.
  exists (initTables w). rewrite !ensureTables_run, initTables_idem.
  split; [reflexivity|]. split; [reflexivity|].
  split; [apply initTables_bookmarks|]. split; [apply initTables_initialized|].
  rewrite initTables_settings. destruct (tablesInitialized w); [reflexivity|].
  destruct (settings w); reflexivity.
Qed.

(** X11: on a database that was never initialized and holds no settings
    row, [getSettings] answers the default settings and leaves them
    stored, so that a partial update afterwards merges into them. *)
Theorem getSettings_first_read :
  forall bw (partial : PartialSettings) (w : World),
    tablesInitialized w = false ->
    settings w = None ->
    exists w1 w2,
      getSettings w = (Returned DEFAULT_SETTINGS, w1) /\
      settings w1 = Some DEFAULT_SETTINGS /\
      updateSettings bw partial w1
        = (Returned (mergeSettings DEFAULT_SETTINGS partial), w2) /\
      settings w2 = Some (mergeSettings DEFAULT_SETTINGS partial).
Proof.
  intros bw partial w Hi Hs.
  assert (Hc : currentSettings w = DEFAULT_SETTINGS).
  { unfold currentSettings. rewrite initTables_settings, Hi, Hs. reflexivity. }
  assert (Hs1 : settings (initTables w) = Some DEFAULT_SETTINGS).
  { rewrite initTables_settings, Hi, Hs. reflexivity. }
  destruct (updateSettings_run bw partial (initTables w)) as [w2 [Hrun [_ [Hset _]]]].
  assert (Hc1 : currentSettings (initTables w) = DEFAULT_SETTINGS).
  { unfold currentSettings. now rewrite initTables_idem, Hs1. }
  rewrite Hc1 in Hrun, Hset. simpl in Hset.
  exists (initTables w), w2.
  unfold getSettings. rewrite readSettingsFromDb_run, Hc.
  split; [reflexivity|]. split; [exact Hs1|]. split; [exact Hrun | exact Hset].
Qed.

Lemma getSettings_first_read_witness :
  tablesInitialized sampleWorld = false /\
  settings sampleWorld = None /\
  exists w1 w2,
    getSettings sampleWorld = (Returned DEFAULT_SETTINGS, w1) /\
    settings w1 = Some DEFAULT_SETTINGS /\
    updateSettings backupDown themeDark w1
      = (Returned (mergeSettings DEFAULT_SETTINGS themeDark), w2) /\
    settings w2 = Some (mergeSettings DEFAULT_SETTINGS themeDark).
Proof.
  split; [reflexivity|]. split; [reflexivity|].
  apply (getSettings_first_read backupDown themeDark sampleWorld); reflexivity.
Defined.

(** ** reorderBookmarkCategories: more on the sequence *)

Lemma includes_eq_iff (k : jsstring) (l l' : list jsstring) :
  (In k l <-> In k l') -> includes k l = includes k l'.
Proof.
  intro H. destruct (includes k l') eqn:E.
  - apply includes_In. apply H. now apply includes_In.
  - apply includes_not_In. intro Hin. apply H in Hin.
    apply includes_In in Hin. congruence.
Qed.

Lemma fold_pushUnique_known (k : jsstring) (l acc : list jsstring) :
  In k acc -> fold_left pushUnique (k :: l) acc = fold_left pushUnique l acc.
Proof.
  intro H. simpl. unfold pushUnique at 2.
  apply includes_In in H. now rewrite H.
Qed.

(** An entry of the requested sequence is ignored when it names no
    category of the list, or a name that came before it. *)
Lemma targetSequence_ignores (o1 o2 : list JS.value) (v : JS.value)
    (bs : list BookmarkRecord) :
  ~ In (normalizeCategoryKeyInput v) (List.map bookmarkCategoryKey bs) \/
  In (normalizeCategoryKeyInput v) (List.map normalizeCategoryKeyInput o1) ->
  targetSequence (o1 ++ v :: o2) bs = targetSequence (o1 ++ o2) bs.
Proof.
  intro H.
  assert (Hreq : requestedCategories (o1 ++ v :: o2) bs
                 = requestedCategories (o1 ++ o2) bs).
  { unfold requestedCategories. rewrite !map_app, !filter_app. simpl.
    destruct (includes (normalizeCategoryKeyInput v) (existingCategories bs)) eqn:E;
      [|reflexivity].
    destruct H as [H|H].
    - exfalso. apply H. apply includes_In in E.
      apply (distinct_In (List.map bookmarkCategoryKey bs)). exact E.
    - unfold distinct. rewrite !fold_left_app.
      apply fold_pushUnique_known. apply fold_pushUnique_In. right.
      apply filter_In. split; [exact H | exact E]. }
  unfold targetSequence. now rewrite Hreq.
Qed.

(** X12: [reorderBookmarkCategories] ignores an entry of the sequence that
    matches no category of the list (a value that is not a string counts
    as the empty name) and an entry whose name came earlier in the
    sequence: the call answers the same list and leaves the same table as
    the call without that entry. *)
Theorem reorderBookmarkCategories_ignores :
  forall bw (o1 o2 : list JS.value) (v : JS.value) (w : World),
    forall before w0,
      listBookmarks w = (Returned before, w0) ->
      ~ In (normalizeCategoryKeyInput v) (List.map bookmarkCategoryKey before) \/
      In (normalizeCategoryKeyInput v) (List.map normalizeCategoryKeyInput o1) ->
      exists after w1 w2,
        reorderBookmarkCategories bw (o1 ++ v :: o2) w = (Returned after, w1) /\
        reorderBookmarkCategories bw (o1 ++ o2) w = (Returned after, w2) /\
        bookmarks w1 = bookmarks w2.
Proof.
  intros bw o1 o2 v w before w0 Hlist H.
  unfold listBookmarks in Hlist. rewrite readBookmarksFromDb_run in Hlist.
  inversion Hlist; subst before w0; clear Hlist.
  destruct (reorderBookmarkCategories_run bw (o1 ++ v :: o2) w) as [w1 [Hrun1 [Hb1 _]]].
  destruct (reorderBookmarkCategories_run bw (o1 ++ o2) w) as [w2 [Hrun2 [Hb2 _]]].
  simpl in Hb1, Hb2.
  rewrite reorderedByCategories_spec in Hrun1, Hrun2, Hb1, Hb2.
  unfold groupedByTarget in *.
  rewrite (targetSequence_ignores o1 o2 v _ H) in Hrun1, Hb1.
  eexists; exists w1, w2. split; [exact Hrun1|]. split; [exact Hrun2|].
  now rewrite Hb1, Hb2.
Qed.

Lemma reorderBookmarkCategories_ignores_witness :
  listBookmarks sampleWorld =
    (Returned (List.map rowToRecord [rowA; rowB; rowC]), initTables sampleWorld) /\
  (~ In (normalizeCategoryKeyInput (VString (lit "nothing")))
        (List.map bookmarkCategoryKey (List.map rowToRecord [rowA; rowB; rowC])) \/
   In (normalizeCategoryKeyInput (VString (lit "nothing")))
      (List.map normalizeCategoryKeyInput [VString (lit "tools")])) /\
  exists after w1 w2,
    reorderBookmarkCategories backupOk
      ([VString (lit "tools")] ++ VString (lit "nothing") :: []) sampleWorld
      = (Returned after, w1) /\
    reorderBookmarkCategories backupOk ([VString (lit "tools")] ++ []) sampleWorld
      = (Returned after, w2) /\
    bookmarks w1 = bookmarks w2.
Proof.
  assert (H : ~ In (normalizeCategoryKeyInput (VString (lit "nothing")))
                (List.map bookmarkCategoryKey
                   (List.map rowToRecord [rowA; rowB; rowC])) \/
              In (normalizeCategoryKeyInput (VString (lit "nothing")))
                 (List.map normalizeCategoryKeyInput [VString (lit "tools")])).
  { left. vm_compute. intuition discriminate. }
  split; [reflexivity|]. split; [exact H|].
  exact (reorderBookmarkCategories_ignores backupOk [VString (lit "tools")] []
           (VString (lit "nothing")) sampleWorld _ (initTables sampleWorld)
           eq_refl H).
Defined.

Lemma group_keys {A} (kf : A -> jsstring) (k : jsstring) (l : list A) :
  List.map kf (group kf k l) = repeat k (List.length (group kf k l)).
Proof.
  unfold group. induction l as [|a rest IH]; simpl; [reflexivity|].
  destruct (eqb (kf a) k) eqn:E; [|exact IH].
  simpl. apply eqb_eq in E. now rewrite E, IH.
Qed.

Lemma fold_pushUnique_repeat (k : jsstring) (n : nat) (acc : list jsstring) :
  fold_left pushUnique (repeat k n) acc =
  match n with
  | O => acc
  | S _ => if includes k acc then acc else acc ++ [k]
  end.
Proof.
  destruct n as [|n]; [reflexivity|]. simpl.
  assert (Hin : In k (pushUnique acc k)).
  { unfold pushUnique. destruct (includes k acc) eqn:E.
    - now apply includes_In.
    - apply in_or_app. right. now left. }
  assert (Hrest : forall m acc', In k acc' ->
            fold_left pushUnique (repeat k m) acc' = acc').
  { induction m as [|m IH]; intros acc' H; simpl; [reflexivity|].
    unfold pushUnique at 2. apply includes_In in H. rewrite H.
    apply IH. now apply includes_In. }
  rewrite Hrest by exact Hin. reflexivity.
Qed.

Lemma fold_pushUnique_blocks (n : jsstring -> nat) (t acc : list jsstring) :
  NoDup t -> (forall k, In k t -> n k <> O) -> (forall k, In k t -> ~ In k acc) ->
  fold_left pushUnique (flat_map (fun k => repeat k (n k)) t) acc = acc ++ t.
Proof.
  revert acc. induction t as [|k rest IH]; intros acc Hnd Hpos Hdis; simpl.
  - now rewrite app_nil_r.
  - inversion Hnd as [|? ? Hnotin Hnd']; subst.
    rewrite fold_left_app, fold_pushUnique_repeat.
    destruct (n k) eqn:En; [exfalso; apply (Hpos k); [now left | exact En]|].
    assert (E : includes k acc = false)
      by (apply includes_not_In, Hdis; now left).
    rewrite E, IH.
    + now rewrite <- app_assoc.
    + exact Hnd'.
    + intros k' Hk'. apply Hpos. now right.
    + intros k' Hk' Hin. apply in_app_or in Hin. destruct Hin as [Hin|[Hin|[]]].
      * apply (Hdis k'); [now right | exact Hin].
      * subst. contradiction.
Qed.

Lemma flat_map_ext_In {A B} (f g : A -> list B) (l : list A) :
  (forall a, In a l -> f a = g a) -> flat_map f l = flat_map g l.
Proof.
  induction l as [|a rest IH]; intro H; simpl; [reflexivity|].
  rewrite (H a) by now left. f_equal. apply IH. intros b Hb. apply H. now right.
Qed.

(** The categories of the regrouped list, in first-seen order, are the
    target sequence. *)
Lemma existingCategories_grouped (order : list JS.value) (bs : list BookmarkRecord) :
  existingCategories (groupedByTarget order bs) = targetSequence order bs.
Proof.
  unfold existingCategories, groupedByTarget, categoryGroup, distinct.
  rewrite map_flat_map_comm.
  rewrite (flat_map_ext_In _
             (fun k => repeat k (List.length (group bookmarkCategoryKey k bs))))
    by (intros k _; apply group_keys).
  rewrite (fold_pushUnique_blocks
             (fun k => List.length (group bookmarkCategoryKey k bs))).
  - reflexivity.
  - apply targetSequence_NoDup.
  - intros k Hk Hlen. apply targetSequence_In in Hk.
    unfold existingCategories in Hk. apply (proj1 (distinct_In _ _)) in Hk.
    apply in_map_iff in Hk. destruct Hk as [b [Hb Hin]].
    assert (Hg : In b (group bookmarkCategoryKey k bs)).
    { unfold group. apply filter_In. split; [exact Hin|]. now apply eqb_eq. }
    destruct (group bookmarkCategoryKey k bs); [destruct Hg | discriminate].
  - intros k _ [].
Qed.

Lemma filter_none {A} (p : A -> bool) (l : list A) :
  (forall x, In x l -> p x = false) -> filter p l = [].
Proof.
  induction l as [|y ys IH]; intro H; simpl; [reflexivity|].
  rewrite (H y) by now left. apply IH. intros x Hx. apply H. now right.
Qed.

Lemma targetSequence_grouped (order : list JS.value) (bs : list BookmarkRecord) :
  targetSequence order (groupedByTarget order bs) = targetSequence order bs.
Proof.
  assert (Hreq : requestedCategories order (groupedByTarget order bs)
                 = requestedCategories order bs).
  { unfold requestedCategories. f_equal. apply filter_ext. intro k.
    apply includes_eq_iff. rewrite existingCategories_grouped.
    apply targetSequence_In. }
  unfold targetSequence at 1. rewrite Hreq, existingCategories_grouped.
  unfold targetSequence. rewrite filter_app. f_equal.
  rewrite filter_none.
  - simpl. apply filter_all. intros k Hk. apply filter_In in Hk. tauto.
  - intros k Hk. apply negb_false_iff. now apply includes_In.
Qed.

Lemma groupedByTarget_idem (order : list JS.value) (bs : list BookmarkRecord) :
  groupedByTarget order (groupedByTarget order bs) = groupedByTarget order bs.
Proof.
  unfold groupedByTarget at 1. rewrite targetSequence_grouped.
  unfold groupedByTarget at 2. apply flat_map_ext_In. intros k Hk.
  unfold groupedByTarget, categoryGroup.
  apply group_flat; [apply targetSequence_NoDup | exact Hk].
Qed.

(** The rows in the order [reorderBookmarkCategories] gives them. *)
Lemma categories_rows (order : list JS.value) (t : list Row) :
  NoDup (List.map row_id t) ->
  exists s,
    Permutation t s /\ NoDup (List.map row_id s) /\
    List.map rowToRecord s
      = groupedByTarget order (List.map rowToRecord (orderBy t)).
Proof.
  intro Hpk.
  set (before := List.map rowToRecord (orderBy t)).
  set (target := targetSequence order before).
  exists (flat_map
            (fun k => group (fun r => bookmarkCategoryKey (rowToRecord r)) k (orderBy t))
            target).
  assert (Hp : Permutation t
                 (flat_map
                    (fun k => group (fun r => bookmarkCategoryKey (rowToRecord r)) k
                                (orderBy t)) target)).
  { rewrite <- group_flat_perm.
    - symmetry. apply orderBy_Permutation.
    - apply targetSequence_NoDup.
    - intros r Hr. apply targetSequence_In. unfold existingCategories.
      apply distinct_In. unfold before. rewrite map_map.
      apply in_map_iff. now exists r. }
  split; [exact Hp|]. split.
  - eapply Permutation_NoDup; [|exact Hpk]. now apply Permutation_map.
  - unfold groupedByTarget, categoryGroup. rewrite map_flat_map_comm.
    apply flat_map_ext. intro k. apply group_map.
Qed.

(** X13: [reorderBookmarkCategories] is idempotent: a second call with the
    same sequence answers the list the first call answered, and that list
    is what [listBookmarks] gives after either call. *)
Theorem reorderBookmarkCategories_idempotent :
  forall bw (order : list JS.value) (w : World),
    NoDup (List.map row_id (bookmarks w)) ->
    exists after w1 w2,
      reorderBookmarkCategories bw order w = (Returned after, w1) /\
      reorderBookmarkCategories bw order w1 = (Returned after, w2) /\
      fst (listBookmarks w1) = Returned after /\
      fst (listBookmarks w2) = Returned after.
Proof.
  intros bw order w Hpk.
  destruct (reorderBookmarkCategories_run bw order w) as [w1 [Hrun1 [Hb1 _]]].
  destruct (reorderBookmarkCategories_run bw order w1) as [w2 [Hrun2 [Hb2 _]]].
  simpl in Hb1, Hb2.
  rewrite reorderedByCategories_spec in Hrun1, Hb1, Hrun2, Hb2.
  destruct (categories_rows order (bookmarks w) Hpk) as [s [Hp [Hnd Hs]]].
  assert (Hids : List.map id (groupedByTarget order
                                (List.map rowToRecord (orderBy (bookmarks w))))
                 = List.map row_id s).
  { rewrite <- Hs, map_map. reflexivity. }
  assert (Hl1 : List.map rowToRecord (orderBy (bookmarks w1))
                = groupedByTarget order
                    (List.map rowToRecord (orderBy (bookmarks w)))).
  { rewrite Hb1, Hids, orderBy_assign by assumption.
    now rewrite number_records. }
  rewrite Hl1, groupedByTarget_idem in Hrun2, Hb2.
  assert (Hl2 : List.map rowToRecord (orderBy (bookmarks w2))
                = groupedByTarget order
                    (List.map rowToRecord (orderBy (bookmarks w)))).
  { rewrite Hb2, Hb1, assign_orders_idem, <- Hb1. exact Hl1. }
  eexists; exists w1, w2.
  split; [exact Hrun1|]. split; [exact Hrun2|].
  unfold listBookmarks. rewrite !readBookmarksFromDb_run. simpl.
  now rewrite Hl1, Hl2.
Qed.

Lemma reorderBookmarkCategories_idempotent_witness :
  NoDup (List.map row_id (bookmarks sampleWorld)) /\
  exists after w1 w2,
    reorderBookmarkCategories backupOk [VString (lit "tools")] sampleWorld
      = (Returned after, w1) /\
    reorderBookmarkCategories backupOk [VString (lit "tools")] w1
      = (Returned after, w2) /\
    fst (listBookmarks w1) = Returned after /\
    fst (listBookmarks w2) = Returned after.
Proof.
  split; [exact sampleWorld_ids|].
  exact (reorderBookmarkCategories_idempotent backupOk [VString (lit "tools")]
           sampleWorld sampleWorld_ids).
Defined.

(** X14: after [reorderBookmarkCategories] the [order] column holds
    0, 1, ..., N-1 along the list, and the table has the ids it had. *)
Theorem reorderBookmarkCategories_dense :
  forall bw (order : list JS.value) (w : World),
    NoDup (List.map row_id (bookmarks w)) ->
    exists after w1,
      reorderBookmarkCategories bw order w = (Returned after, w1) /\
      List.map row_order (orderBy (bookmarks w1))
        = List.map Z.of_nat (seq 0 (List.length (bookmarks w))) /\
      List.map row_id (bookmarks w1) = List.map row_id (bookmarks w).
Proof.
  intros bw order w Hpk.
  destruct (reorderBookmarkCategories_run bw order w) as [w1 [Hrun [Hb _]]].
  simpl in Hb. rewrite reorderedByCategories_spec in Hrun, Hb.
  destruct (categories_rows order (bookmarks w) Hpk) as [s [Hp [Hnd Hs]]].
  assert (Hids : List.map id (groupedByTarget order
                                (List.map rowToRecord (orderBy (bookmarks w))))
                 = List.map row_id s).
  { rewrite <- Hs, map_map. reflexivity. }
  eexists; exists w1. split; [exact Hrun|]. split.
  - rewrite Hb, Hids, orderBy_assign by assumption.
    rewrite number_orders, (Permutation_length Hp).
    apply map_ext. intro k. lia.
  - rewrite Hb. apply assign_orders_ids.
Qed.

Lemma reorderBookmarkCategories_dense_witness :
  NoDup (List.map row_id (bookmarks sampleWorld)) /\
  exists after w1,
    reorderBookmarkCategories backupOk [VString (lit "tools")] sampleWorld
      = (Returned after, w1) /\
    List.map row_order (orderBy (bookmarks w1))
      = List.map Z.of_nat (seq 0 (List.length (bookmarks sampleWorld))) /\
    List.map row_id (bookmarks w1) = List.map row_id (bookmarks sampleWorld).
Proof.
  split; [exact sampleWorld_ids|].
  exact (reorderBookmarkCategories_dense backupOk [VString (lit "tools")]
           sampleWorld sampleWorld_ids).
Defined.

(** ** The JSON document backend: update and delete *)

Lemma api_findIndex_none (ident : jsstring) (l : list ApiDb.BookmarkRecord) :
  ~ In ident (List.map ApiDb.id l) -> ApiDb.findIndex ident l = None.
Proof.
  induction l as [|b rest IH]; intro H; simpl; [reflexivity|].
  destruct (eqb (ApiDb.id b) ident) eqn:E.
  - apply eqb_eq in E. exfalso. apply H. now left.
  - rewrite IH; [reflexivity|]. intro Hin. apply H. now right.
Qed.

Lemma api_findIndex_split (ident : jsstring) (l : list ApiDb.BookmarkRecord) :
  In ident (List.map ApiDb.id l) ->
  exists i l1 e l2,
    ApiDb.findIndex ident l = Some i /\
    l = l1 ++ e :: l2 /\ ApiDb.id e = ident /\
    ~ In ident (List.map ApiDb.id l1) /\
    nth_error l i = Some e /\
    (forall x, ApiDb.setAt i x l = l1 ++ x :: l2) /\
    ApiDb.spliceAt i l = l1 ++ l2.
Proof.
  induction l as [|b rest IH]; intro H; [destruct H|]. simpl.
  destruct (eqb (ApiDb.id b) ident) eqn:E.
  - apply eqb_eq in E. exists 0%nat, [], b, rest. simpl. intuition.
  - destruct H as [H|H]; [apply eqb_neq in E; contradiction|].
    destruct (IH H) as [i [l1 [e [l2 [H1 [H2 [H3 [H4 [H5 [H6 H7]]]]]]]]]].
    exists (S i), (b :: l1), e, l2. rewrite H1. simpl.
    split; [reflexivity|]. split; [now rewrite H2|]. split; [exact H3|].
    split.
    { intros [Hb|Hb]; [apply eqb_neq in E; contradiction | contradiction]. }
    split; [exact H5|]. split.
    + intro x. simpl. now rewrite H6.
    + simpl. now rewrite H7.
Qed.

(** X15: on the JSON document backend, [updateBookmark] and
    [deleteBookmark] on an id that no bookmark has answer [null] and leave
    the store as it is. *)
Theorem api_unknown_id :
  forall (ident now : jsstring) (data : ApiDb.BookmarkInput) (s : ApiDb.Store),
    ~ In ident (List.map ApiDb.id (ApiDb.listBookmarks s)) ->
    ApiDb.updateBookmark ident now data s = (None, s) /\
    ApiDb.deleteBookmark ident s = (None, s).
Proof.
  intros ident now data s H.
  unfold ApiDb.updateBookmark, ApiDb.deleteBookmark.
  unfold ApiDb.listBookmarks in H.
  now rewrite (api_findIndex_none ident _ H).
Qed.

Lemma api_unknown_id_witness :
  ~ In (lit "zz") (List.map ApiDb.id (ApiDb.listBookmarks sampleStore)) /\
  ApiDb.updateBookmark (lit "zz") (lit "2025-01-02T00:00:00.000Z") sampleInput
    sampleStore = (None, sampleStore) /\
  ApiDb.deleteBookmark (lit "zz") sampleStore = (None, sampleStore).
Proof.
  assert (H : ~ In (lit "zz") (List.map ApiDb.id (ApiDb.listBookmarks sampleStore)))
    by (simpl; intuition discriminate).
  split; [exact H|].
  exact (api_unknown_id (lit "zz") (lit "2025-01-02T00:00:00.000Z") sampleInput
           sampleStore H).
Defined.

(** X16: on the JSON document backend, [updateBookmark] replaces the first
    bookmark of that id where it stands: it takes title, url, category,
    description and visible from the input, keeps id and createdAt, sets
    updatedAt, and every other bookmark stays in its place. *)
Theorem api_updateBookmark_known :
  forall (ident now : jsstring) (data : ApiDb.BookmarkInput) (s : ApiDb.Store),
    In ident (List.map ApiDb.id (ApiDb.listBookmarks s)) ->
    exists l1 existing l2 updated s',
      ApiDb.listBookmarks s = l1 ++ existing :: l2 /\
      ~ In ident (List.map ApiDb.id l1) /\
      ApiDb.updateBookmark ident now data s = (Some updated, s') /\
      ApiDb.listBookmarks s' = l1 ++ updated :: l2 /\
      ApiDb.id updated = ident /\
      ApiDb.createdAt updated = ApiDb.createdAt existing /\
      ApiDb.updatedAt updated = now /\
      ApiDb.title updated = VercelDb.in_title data /\
      ApiDb.url updated = VercelDb.in_url data /\
      ApiDb.category updated = VercelDb.in_category data /\
      ApiDb.description updated = VercelDb.in_description data /\
      ApiDb.visible updated = VercelDb.in_visible data /\
      ApiDb.settingsDoc s' = ApiDb.settingsDoc s.
Proof.
  intros ident now data s H.
  unfold ApiDb.listBookmarks in *.
  destruct (api_findIndex_split ident _ H)
    as [i [l1 [e [l2 [H1 [H2 [H3 [H4 [H5 [H6 H7]]]]]]]]]].
  exists l1, e, l2.
  unfold ApiDb.updateBookmark. rewrite H1, H5.
  eexists; eexists. split; [exact H2|]. split; [exact H4|].
  split; [reflexivity|]. simpl. rewrite H6.
  repeat (split; [reflexivity || exact H3|]). reflexivity.
Qed.

Lemma api_updateBookmark_known_witness :
  In (lit "a") (List.map ApiDb.id (ApiDb.listBookmarks sampleStore)) /\
  exists l1 existing l2 updated s',
    ApiDb.listBookmarks sampleStore = l1 ++ existing :: l2 /\
    ~ In (lit "a") (List.map ApiDb.id l1) /\
    ApiDb.updateBookmark (lit "a") (lit "2025-01-02T00:00:00.000Z") sampleInput
      sampleStore = (Some updated, s') /\
    ApiDb.listBookmarks s' = l1 ++ updated :: l2 /\
    ApiDb.id updated = lit "a" /\
    ApiDb.createdAt updated = ApiDb.createdAt existing /\
    ApiDb.updatedAt updated = lit "2025-01-02T00:00:00.000Z" /\
    ApiDb.title updated = VercelDb.in_title sampleInput /\
    ApiDb.url updated = VercelDb.in_url sampleInput /\
    ApiDb.category updated = VercelDb.in_category sampleInput /\
    ApiDb.description updated = VercelDb.in_description sampleInput /\
    ApiDb.visible updated = VercelDb.in_visible sampleInput /\
    ApiDb.settingsDoc s' = ApiDb.settingsDoc sampleStore.
Proof.
  assert (H : In (lit "a") (List.map ApiDb.id (ApiDb.listBookmarks sampleStore)))
    by (simpl; now left).
  split; [exact H|].
  exact (api_updateBookmark_known (lit "a") (lit "2025-01-02T00:00:00.000Z")
           sampleInput sampleStore H).
Defined.

(** X17: on the JSON document backend, [deleteBookmark] removes the first
    bookmark of that id and answers it; the others stay in their order. *)
Theorem api_deleteBookmark_known :
  forall (ident : jsstring) (s : ApiDb.Store),
    In ident (List.map ApiDb.id (ApiDb.listBookmarks s)) ->
    exists l1 removed l2 s',
      ApiDb.listBookmarks s = l1 ++ removed :: l2 /\
      ~ In ident (List.map ApiDb.id l1) /\
      ApiDb.id removed = ident /\
      ApiDb.deleteBookmark ident s = (Some removed, s') /\
      ApiDb.listBookmarks s' = l1 ++ l2 /\
      ApiDb.settingsDoc s' = ApiDb.settingsDoc s.
Proof.
  intros ident s H.
  unfold ApiDb.listBookmarks in *.
  destruct (api_findIndex_split ident _ H)
    as [i [l1 [e [l2 [H1 [H2 [H3 [H4 [H5 [H6 H7]]]]]]]]]].
  exists l1, e, l2.
  unfold ApiDb.deleteBookmark. rewrite H1, H5.
  eexists. split; [exact H2|]. split; [exact H4|]. split; [exact H3|].
  split; [reflexivity|]. simpl. rewrite H7. split; reflexivity.
Qed.

Lemma api_deleteBookmark_known_witness :
  In (lit "a") (List.map ApiDb.id (ApiDb.listBookmarks sampleStore)) /\
  exists l1 removed l2 s',
    ApiDb.listBookmarks sampleStore = l1 ++ removed :: l2 /\
    ~ In (lit "a") (List.map ApiDb.id l1) /\
    ApiDb.id removed = lit "a" /\
    ApiDb.deleteBookmark (lit "a") sampleStore = (Some removed, s') /\
    ApiDb.listBookmarks s' = l1 ++ l2 /\
    ApiDb.settingsDoc s' = ApiDb.settingsDoc sampleStore.
Proof.
  assert (H : In (lit "a") (List.map ApiDb.id (ApiDb.listBookmarks sampleStore)))
    by (simpl; now left).
  split; [exact H|].
  exact (api_deleteBookmark_known (lit "a") sampleStore H).
Defined.

(** X18: on the JSON document backend, [createBookmark] followed by
    [deleteBookmark] of the new id answers the bookmark created and gives
    back the list as it was, also when an older bookmark has the same id:
    the new bookmark is at the front and the first match is removed. *)
Theorem api_create_then_delete :
  forall (uuid now : jsstring) (data : ApiDb.BookmarkInput) (s : ApiDb.Store),
    let created := ApiDb.createBookmark uuid now data s in
    let deleted := ApiDb.deleteBookmark uuid (snd created) in
    fst deleted = Some (fst created) /\
    ApiDb.listBookmarks (snd deleted) = ApiDb.listBookmarks s /\
    ApiDb.settingsDoc (snd deleted) = ApiDb.settingsDoc s.
Proof.
  intros uuid now data s. simpl.
  unfold ApiDb.deleteBookmark, ApiDb.createBookmark. simpl.
  rewrite eqb_refl. simpl. auto.
Qed.

(** ** The express server: the bookmark handlers *)

Lemma sanitizeText_clean (v : JS.value) : clean (Backend.sanitizeText v).
Proof.
  assert (H : forall s, clean (if isEmpty (trim s) then None else Some (trim s))).
  { intro s. destruct (isEmpty (trim s)) eqn:E; simpl; [exact I|].
    split; [|apply trim_idem]. intro H0. rewrite H0 in E. discriminate. }
  destruct v as [| |b|s|t s]; simpl; try exact I; apply H.
Qed.

Lemma backend_findIndex_some (ident : jsstring) (l : list Backend.Bookmark)
    (i : nat) :
  Backend.findIndex ident l = Some i ->
  exists l1 e l2,
    l = l1 ++ e :: l2 /\ nth_error l i = Some e /\
    (forall x, Backend.setAt i x l = l1 ++ x :: l2) /\
    Backend.spliceAt i l = l1 ++ l2.
Proof.
  revert i. induction l as [|b rest IH]; intros i H; [discriminate|].
  simpl in H. destruct (eqb (Backend.id b) ident).
  - inversion H; subst i. exists [], b, rest. simpl. auto.
  - destruct (Backend.findIndex ident rest) as [j|]; [|discriminate].
    inversion H; subst i.
    destruct (IH j eq_refl) as [l1 [e [l2 [H1 [H2 [H3 H4]]]]]].
    exists (b :: l1), e, l2. simpl.
    split; [now rewrite H1|]. split; [exact H2|]. split.
    + intro x. now rewrite H3.
    + now rewrite H4.
Qed.

Lemma sanitized_clean (uuid now : jsstring) (body : Backend.Body) (v : bool)
    (created : jsstring) :
  cleanBookmark
    {| Backend.id := uuid;
       Backend.title := Backend.sanitizeText (Backend.b_title body);
       Backend.url := Backend.sanitizeUrl (Backend.b_url body);
       Backend.category := Backend.sanitizeText (Backend.b_category body);
       Backend.description := Backend.sanitizeText (Backend.b_description body);
       Backend.visible := v;
       Backend.createdAt := created;
       Backend.updatedAt := now |}.
Proof.
  unfold cleanBookmark. simpl.
  repeat (split; [apply sanitizeText_clean|]).
  unfold Backend.sanitizeUrl. apply trim_idem.
Qed.

(** X19: what [POST /api/bookmarks] and [PUT /api/bookmarks/:id] store has
    no white space around it.  The bookmark a POST answers with 201 is
    the one it has added at the end of the file, and the one a PUT
    answers with 200 is the one it has put in the place of the old one:
    in both, title, category and description are absent or not empty and
    trimmed, and the url is trimmed.  So a file that holds only such
    bookmarks holds only such bookmarks after a POST, a PUT or a
    DELETE. *)
Theorem backend_fields_clean :
  forall (uuid now ident : jsstring) (body : Backend.Body) (fs : Backend.Files),
    (forall b fs', Backend.postBookmark uuid now body fs = (Backend.Status201 b, fs') ->
       Backend.readJson fs' = Backend.readJson fs ++ [b] /\ cleanBookmark b) /\
    (forall b fs', Backend.putBookmark now ident body fs = (Backend.Ok200 b, fs') ->
       (exists l1 old l2,
          Backend.readJson fs = l1 ++ old :: l2 /\
          Backend.readJson fs' = l1 ++ b :: l2) /\
       cleanBookmark b) /\
    (Forall cleanBookmark (Backend.readJson fs) ->
     Forall cleanBookmark
       (Backend.readJson (snd (Backend.postBookmark uuid now body fs))) /\
     Forall cleanBookmark
       (Backend.readJson (snd (Backend.putBookmark now ident body fs))) /\
     Forall cleanBookmark
       (Backend.readJson (snd (Backend.deleteBookmark ident fs)))).
Proof.
  intros uuid now ident body fs.
  assert (Hpost : forall b fs',
    Backend.postBookmark uuid now body fs = (Backend.Status201 b, fs') ->
    Backend.readJson fs' = Backend.readJson fs ++ [b] /\ cleanBookmark b).
  { intros b fs' H. unfold Backend.postBookmark in H.
    destruct (negb (toBoolean (Backend.b_title body)) ||
              negb (toBoolean (Backend.b_url body))); [discriminate|].
    unfold Backend.writeJson in H.
    destruct (Backend.writable fs); [|discriminate].
    inversion H; subst; clear H. split; [reflexivity|]. apply sanitized_clean. }
  assert (Hput : forall b fs',
    Backend.putBookmark now ident body fs = (Backend.Ok200 b, fs') ->
    (exists l1 old l2,
       Backend.readJson fs = l1 ++ old :: l2 /\
       Backend.readJson fs' = l1 ++ b :: l2) /\
    cleanBookmark b).
  { intros b fs' H. unfold Backend.putBookmark in H.
    destruct (negb (toBoolean (Backend.b_title body)) ||
              negb (toBoolean (Backend.b_url body))); [discriminate|].
    destruct (Backend.findIndex ident (Backend.readJson fs)) as [i|] eqn:Ei;
      [|discriminate].
    destruct (backend_findIndex_some _ _ _ Ei) as [l1 [e [l2 [H1 [H2 [H3 _]]]]]].
    rewrite H2 in H. unfold Backend.writeJson in H.
    destruct (Backend.writable fs); [|discriminate].
    inversion H; subst b fs'; clear H. split.
    - exists l1, e, l2. split; [exact H1|]. unfold Backend.readJson at 1.
      cbn [Backend.bookmarksFile nullish]. apply H3.
    - apply sanitized_clean. }
  split; [exact Hpost|]. split; [exact Hput|].
  intro Hall. split; [|split].
  - destruct (Backend.postBookmark uuid now body fs) as [[b| |] fs'] eqn:E;
      cbn [snd].
    + destruct (Hpost b fs' eq_refl) as [H1 H2]. rewrite H1.
      apply Forall_app. split; [exact Hall | now constructor].
    + unfold Backend.postBookmark in E.
      destruct (negb (toBoolean (Backend.b_title body)) ||
                negb (toBoolean (Backend.b_url body)));
        [inversion E; now subst|].
      destruct (Backend.writeJson _ fs); inversion E.
    + unfold Backend.postBookmark in E.
      destruct (negb (toBoolean (Backend.b_title body)) ||
                negb (toBoolean (Backend.b_url body))); [inversion E|].
      destruct (Backend.writeJson _ fs); inversion E. now subst.
  - destruct (Backend.putBookmark now ident body fs) as [r fs'] eqn:E; cbn [snd].
    destruct r as [b| | | |].
    + destruct (Hput b fs' eq_refl) as [[l1 [old [l2 [H1 H2]]]] H3].
      rewrite H2. rewrite H1 in Hall.
      apply Forall_app in Hall. destruct Hall as [Ha Hb].
      inversion Hb; subst.
      apply Forall_app. split; [exact Ha | now constructor].
    + unfold Backend.putBookmark in E.
      destruct (negb (toBoolean (Backend.b_title body)) ||
                negb (toBoolean (Backend.b_url body)));
        [inversion E; now subst|].
      destruct (Backend.findIndex ident (Backend.readJson fs)); [|inversion E].
      destruct (nth_error (Backend.readJson fs) n); [|inversion E].
      destruct (Backend.writeJson _ fs); inversion E.
    + unfold Backend.putBookmark in E.
      destruct (negb (toBoolean (Backend.b_title body)) ||
                negb (toBoolean (Backend.b_url body))); [inversion E|].
      destruct (Backend.findIndex ident (Backend.readJson fs)); [|inversion E].
      destruct (nth_error (Backend.readJson fs) n); [|inversion E].
      destruct (Backend.writeJson _ fs); inversion E.
    + unfold Backend.putBookmark in E.
      destruct (negb (toBoolean (Backend.b_title body)) ||
                negb (toBoolean (Backend.b_url body))); [inversion E|].
      destruct (Backend.findIndex ident (Backend.readJson fs));
        [|inversion E; now subst].
      destruct (nth_error (Backend.readJson fs) n); [|inversion E].
      destruct (Backend.writeJson _ fs); inversion E.
    + unfold Backend.putBookmark in E.
      destruct (negb (toBoolean (Backend.b_title body)) ||
                negb (toBoolean (Backend.b_url body))); [inversion E|].
      destruct (Backend.findIndex ident (Backend.readJson fs)); [|inversion E].
      destruct (nth_error (Backend.readJson fs) n); [|inversion E; now subst].
      destruct (Backend.writeJson _ fs); inversion E. now subst.
  - unfold Backend.deleteBookmark.
    destruct (Backend.findIndex ident (Backend.readJson fs)) as [i|] eqn:Ei;
      [|exact Hall].
    destruct (backend_findIndex_some _ _ _ Ei) as [l1 [e [l2 [H1 [H2 [_ H4]]]]]].
    rewrite H2. unfold Backend.writeJson.
    destruct (Backend.writable fs); cbn [snd]; [|exact Hall].
    unfold Backend.readJson at 1. cbn [Backend.bookmarksFile nullish].
    rewrite H4. rewrite H1 in Hall.
    apply Forall_app in Hall. destruct Hall as [Ha Hb].
    inversion Hb; subst. apply Forall_app. now split.
Qed.

(** X20: the bookmark handlers of the express server write
    bookmarks.json only when they answer 201 or 200: on 400, 404 and 500
    the file is what it was. *)
Theorem backend_writes_only_on_success :
  forall (uuid now ident : jsstring) (body : Backend.Body) (fs : Backend.Files),
    match fst (Backend.postBookmark uuid now body fs) with
    | Backend.Status201 _ => True
    | _ => snd (Backend.postBookmark uuid now body fs) = fs
    end /\
    match fst (Backend.putBookmark now ident body fs) with
    | Backend.Ok200 _ => True
    | _ => snd (Backend.putBookmark now ident body fs) = fs
    end /\
    match fst (Backend.deleteBookmark ident fs) with
    | Backend.Ok200 _ => True
    | _ => snd (Backend.deleteBookmark ident fs) = fs
    end /\
    snd (Backend.getBookmarks fs) = fs.
Proof.
  intros uuid now ident body fs. split; [|split; [|split]].
  - unfold Backend.postBookmark.
    destruct (negb (toBoolean (Backend.b_title body)) ||
              negb (toBoolean (Backend.b_url body))); [reflexivity|].
    destruct (Backend.writeJson _ fs); simpl; auto.
  - unfold Backend.putBookmark.
    destruct (negb (toBoolean (Backend.b_title body)) ||
              negb (toBoolean (Backend.b_url body))); [reflexivity|].
    destruct (Backend.findIndex ident (Backend.readJson fs)); [|reflexivity].
    destruct (nth_error (Backend.readJson fs) n); [|reflexivity].
    destruct (Backend.writeJson _ fs); simpl; auto.
  - unfold Backend.deleteBookmark.
    destruct (Backend.findIndex ident (Backend.readJson fs)); [|reflexivity].
    destruct (nth_error (Backend.readJson fs) n); [|reflexivity].
    destruct (Backend.writeJson _ fs); simpl; auto.
  - reflexivity.
Qed.

Lemma backend_findIndex_none (ident : jsstring) (l : list Backend.Bookmark) :
  ~ In ident (List.map Backend.id l) -> Backend.findIndex ident l = None.
Proof.
  induction l as [|b rest IH]; intro H; simpl; [reflexivity|].
  destruct (eqb (Backend.id b) ident) eqn:E.
  - apply eqb_eq in E. exfalso. apply H. now left.
  - rewrite IH; [reflexivity|]. intro Hin. apply H. now right.
Qed.

Lemma backend_findIndex_split (ident : jsstring) (l : list Backend.Bookmark) :
  In ident (List.map Backend.id l) ->
  exists i l1 e l2,
    Backend.findIndex ident l = Some i /\
    l = l1 ++ e :: l2 /\ Backend.id e = ident /\
    ~ In ident (List.map Backend.id l1) /\
    nth_error l i = Some e /\
    (forall x, Backend.setAt i x l = l1 ++ x :: l2) /\
    Backend.spliceAt i l = l1 ++ l2.
Proof.
  induction l as [|b rest IH]; intro H; [destruct H|]. simpl.
  destruct (eqb (Backend.id b) ident) eqn:E.
  - apply eqb_eq in E. exists 0%nat, [], b, rest. simpl. intuition.
  - destruct H as [H|H]; [apply eqb_neq in E; contradiction|].
    destruct (IH H) as [i [l1 [e [l2 [H1 [H2 [H3 [H4 [H5 [H6 H7]]]]]]]]]].
    exists (S i), (b :: l1), e, l2. rewrite H1. simpl.
    split; [reflexivity|]. split; [now rewrite H2|]. split; [exact H3|].
    split.
    { intros [Hb|Hb]; [apply eqb_neq in E; contradiction | contradiction]. }
    split; [exact H5|]. split.
    + intro x. simpl. now rewrite H6.
    + simpl. now rewrite H7.
Qed.

(** X21: [PUT /api/bookmarks/:id] and [DELETE /api/bookmarks/:id] on an id
    that no bookmark of the file has answer 404 (the PUT when title and
    url are given) and leave the file as it is. *)
Theorem backend_unknown_id :
  forall (now ident : jsstring) (body : Backend.Body) (fs : Backend.Files),
    ~ In ident (List.map Backend.id (Backend.readJson fs)) ->
    toBoolean (Backend.b_title body) = true ->
    toBoolean (Backend.b_url body) = true ->
    Backend.putBookmark now ident body fs = (Backend.NotFound404, fs) /\
    Backend.deleteBookmark ident fs = (Backend.NotFound404, fs).
Proof.
  intros now ident body fs H Ht Hu.
  unfold Backend.putBookmark, Backend.deleteBookmark.
  rewrite Ht, Hu, (backend_findIndex_none ident _ H). simpl. auto.
Qed.

Lemma backend_unknown_id_witness :
  ~ In (lit "zz") (List.map Backend.id (Backend.readJson sampleFiles2)) /\
  toBoolean (Backend.b_title
               (bodyOf (VString (lit "T")) (VString (lit "u.example")))) = true /\
  toBoolean (Backend.b_url
               (bodyOf (VString (lit "T")) (VString (lit "u.example")))) = true /\
  Backend.putBookmark (lit "2025-01-02T00:00:00.000Z") (lit "zz")
    (bodyOf (VString (lit "T")) (VString (lit "u.example"))) sampleFiles2
    = (Backend.NotFound404, sampleFiles2) /\
  Backend.deleteBookmark (lit "zz") sampleFiles2 = (Backend.NotFound404, sampleFiles2).
Proof.
  assert (H : ~ In (lit "zz") (List.map Backend.id (Backend.readJson sampleFiles2)))
    by (simpl; intuition discriminate).
  split; [exact H|]. split; [reflexivity|]. split; [reflexivity|].
  exact (backend_unknown_id (lit "2025-01-02T00:00:00.000Z") (lit "zz")
           (bodyOf (VString (lit "T")) (VString (lit "u.example"))) sampleFiles2
           H eq_refl eq_refl).
Defined.

(** X22: [PUT /api/bookmarks/:id] on a stored id replaces the first
    bookmark of that id where it stands, with id and createdAt kept; its
    [visible] is the body's when that is a boolean and the stored one
    otherwise. *)
Theorem backend_putBookmark_known :
  forall (now ident : jsstring) (body : Backend.Body) (fs : Backend.Files),
    In ident (List.map Backend.id (Backend.readJson fs)) ->
    toBoolean (Backend.b_title body) = true ->
    toBoolean (Backend.b_url body) = true ->
    Backend.writable fs = true ->
    exists l1 existing l2 updated fs',
      Backend.readJson fs = l1 ++ existing :: l2 /\
      ~ In ident (List.map Backend.id l1) /\
      Backend.putBookmark now ident body fs = (Backend.Ok200 updated, fs') /\
      Backend.readJson fs' = l1 ++ updated :: l2 /\
      Backend.id updated = ident /\
      Backend.createdAt updated = Backend.createdAt existing /\
      Backend.updatedAt updated = now /\
      Backend.visible updated =
        match Backend.b_visible body with
        | VBool v => v
        | _ => Backend.visible existing
        end.
Proof.
  intros now ident body fs H Ht Hu Hw.
  destruct (backend_findIndex_split ident _ H)
    as [i [l1 [e [l2 [H1 [H2 [H3 [H4 [H5 [H6 H7]]]]]]]]]].
  exists l1, e, l2.
  unfold Backend.putBookmark. rewrite Ht, Hu, H1, H5. simpl.
  unfold Backend.writeJson. rewrite Hw.
  eexists; eexists. split; [exact H2|]. split; [exact H4|].
  split; [reflexivity|]. simpl. rewrite H6.
  split; [reflexivity|]. split; [exact H3|]. split; [reflexivity|].
  split; [reflexivity|].
  destruct (Backend.b_visible body); try reflexivity;
    destruct (Backend.visible e); reflexivity.
Qed.

Lemma backend_putBookmark_known_witness :
  In (lit "a") (List.map Backend.id (Backend.readJson sampleFiles2)) /\
  toBoolean (Backend.b_title
               (bodyOf (VString (lit "T")) (VString (lit "u.example")))) = true /\
  toBoolean (Backend.b_url
               (bodyOf (VString (lit "T")) (VString (lit "u.example")))) = true /\
  Backend.writable sampleFiles2 = true /\
  exists l1 existing l2 updated fs',
    Backend.readJson sampleFiles2 = l1 ++ existing :: l2 /\
    ~ In (lit "a") (List.map Backend.id l1) /\
    Backend.putBookmark (lit "2025-01-02T00:00:00.000Z") (lit "a")
      (bodyOf (VString (lit "T")) (VString (lit "u.example"))) sampleFiles2
      = (Backend.Ok200 updated, fs') /\
    Backend.readJson fs' = l1 ++ updated :: l2 /\
    Backend.id updated = lit "a" /\
    Backend.createdAt updated = Backend.createdAt existing /\
    Backend.updatedAt updated = lit "2025-01-02T00:00:00.000Z" /\
    Backend.visible updated =
      match Backend.b_visible
              (bodyOf (VString (lit "T")) (VString (lit "u.example"))) with
      | VBool v => v
      | _ => Backend.visible existing
      end.
Proof.
  assert (H : In (lit "a") (List.map Backend.id (Backend.readJson sampleFiles2)))
    by (simpl; now left).
  split; [exact H|]. split; [reflexivity|]. split; [reflexivity|].
  split; [reflexivity|].
  exact (backend_putBookmark_known (lit "2025-01-02T00:00:00.000Z") (lit "a")
           (bodyOf (VString (lit "T")) (VString (lit "u.example"))) sampleFiles2
           H eq_refl eq_refl eq_refl).
Defined.

(** X23: [DELETE /api/bookmarks/:id] on a stored id removes the first
    bookmark of that id and answers it; the others stay in their order. *)
Theorem backend_deleteBookmark_known :
  forall (ident : jsstring) (fs : Backend.Files),
    In ident (List.map Backend.id (Backend.readJson fs)) ->
    Backend.writable fs = true ->
    exists l1 removed l2 fs',
      Backend.readJson fs = l1 ++ removed :: l2 /\
      ~ In ident (List.map Backend.id l1) /\
      Backend.id removed = ident /\
      Backend.deleteBookmark ident fs = (Backend.Ok200 removed, fs') /\
      Backend.readJson fs' = l1 ++ l2.
Proof.
  intros ident fs H Hw.
  destruct (backend_findIndex_split ident _ H)
    as [i [l1 [e [l2 [H1 [H2 [H3 [H4 [H5 [H6 H7]]]]]]]]]].
  exists l1, e, l2.
  unfold Backend.deleteBookmark. rewrite H1, H5.
  unfold Backend.writeJson. rewrite Hw.
  eexists. split; [exact H2|]. split; [exact H4|]. split; [exact H3|].
  split; [reflexivity|]. simpl. now rewrite H7.
Qed.

Lemma backend_deleteBookmark_known_witness :
  In (lit "a") (List.map Backend.id (Backend.readJson sampleFiles2)) /\
  Backend.writable sampleFiles2 = true /\
  exists l1 removed l2 fs',
    Backend.readJson sampleFiles2 = l1 ++ removed :: l2 /\
    ~ In (lit "a") (List.map Backend.id l1) /\
    Backend.id removed = lit "a" /\
    Backend.deleteBookmark (lit "a") sampleFiles2 = (Backend.Ok200 removed, fs') /\
    Backend.readJson fs' = l1 ++ l2.
Proof.
  assert (H : In (lit "a") (List.map Backend.id (Backend.readJson sampleFiles2)))
    by (simpl; now left).
  split; [exact H|]. split; [reflexivity|].
  exact (backend_deleteBookmark_known (lit "a") sampleFiles2 H eq_refl).
Defined.

(** ** The express server: theme and bearer token *)

(** X24: [GET /api/settings] answers the stored theme when it is one of
    "light", "twilight" and "dark", and "light" for any other stored
    theme, with the other settings as stored, and writes nothing.
    [PUT /api/settings/theme] answers 200 only for a truthy theme whose
    string is one of the three; it then stores that string, keeps the
    other settings, and a GET afterwards answers what the PUT answered;
    on any other answer the file is what it was. *)
Theorem backend_theme :
  forall (theme : JS.value) (fs : Backend.SettingsFiles),
    (exists s,
       Backend.getSettings fs = (Backend.Ok200 s, fs) /\
       (forall t, Backend.s_theme (Backend.readSettings fs) = VString t ->
                  In t [lit "light"; lit "twilight"; lit "dark"] ->
                  Backend.s_theme s = VString t) /\
       ((forall t, Backend.s_theme (Backend.readSettings fs) = VString t ->
                   ~ In t [lit "light"; lit "twilight"; lit "dark"]) ->
        Backend.s_theme s = VString (lit "light")) /\
       Backend.s_others s = Backend.s_others (Backend.readSettings fs)) /\
    match fst (Backend.putTheme theme fs) with
    | Backend.Ok200 s =>
        toBoolean theme = true /\
        In (String_ theme) [lit "light"; lit "twilight"; lit "dark"] /\
        Backend.s_theme s = VString (String_ theme) /\
        Backend.s_others s = Backend.s_others (Backend.readSettings fs) /\
        Backend.readSettings (snd (Backend.putTheme theme fs)) = s /\
        Backend.getSettings (snd (Backend.putTheme theme fs))
          = (Backend.Ok200 s, snd (Backend.putTheme theme fs))
    | _ => snd (Backend.putTheme theme fs) = fs
    end.
Proof.
  intros theme fs. split.
  - unfold Backend.getSettings.
    destruct (Backend.isTheme (Backend.s_theme (Backend.readSettings fs))) eqn:E;
      cbn [negb]; eexists; (split; [reflexivity|]).
    + split; [intros t Ht _; exact Ht|]. split; [|reflexivity].
      intro Hno. exfalso. unfold Backend.isTheme in E.
      destruct (Backend.s_theme (Backend.readSettings fs)) as [| |b|t|b t];
        try discriminate.
      apply includes_In in E. exact (Hno t eq_refl E).
    + cbn [Backend.s_theme Backend.s_others].
      split; [|split; reflexivity].
      intros t Ht Hin. exfalso. rewrite Ht in E. unfold Backend.isTheme in E.
      apply includes_not_In in E. exact (E Hin).
  - unfold Backend.putTheme.
    destruct (toBoolean theme) eqn:Et; cbn [negb orb fst snd]; [|reflexivity].
    destruct (includes (String_ theme) Backend.THEMES) eqn:Ei;
      cbn [negb orb fst snd]; [|reflexivity].
    destruct (Backend.settingsWritable fs); cbn [fst snd]; [|reflexivity].
    split; [reflexivity|]. split; [now apply includes_In|].
    split; [reflexivity|]. split; [reflexivity|]. split; [reflexivity|].
    unfold Backend.getSettings, Backend.readSettings.
    cbn [Backend.settingsFile nullish Backend.s_theme Backend.isTheme].
    rewrite Ei. reflexivity.
Qed.

Lemma startsWith_app (p s : jsstring) :
  startsWith p s = true <-> exists t, s = p ++ t.
Proof.
  revert s. induction p as [|c p IH]; intro s; simpl.
  - split; [intros _; now exists s | reflexivity].
  - destruct s as [|d s]; simpl.
    + split; [discriminate | intros [t H]; discriminate].
    + rewrite andb_true_iff, IH, N.eqb_eq. split.
      * intros [E [t H]]. subst. now exists t.
      * intros [t H]. inversion H; subst. split; [reflexivity | now exists t].
Qed.

(** X25: the middleware [authenticate] lets a request through exactly
    when its Authorization header is "Bearer " followed by a token that is
    not empty and that [jwt.verify] accepts; the payload it passes on is
    the one [jwt.verify] gave.  Every other request is answered 401. *)
Theorem authenticate_bearer :
  forall (verify : jsstring -> option jsstring) (authorization : option jsstring)
         (payload : jsstring),
    (Backend.authenticate verify authorization = Backend.Ok200 payload <->
     exists token,
       authorization = Some (lit "Bearer " ++ token) /\
       token <> [] /\ verify token = Some payload) /\
    (Backend.authenticate verify authorization = Backend.Unauthorized401 \/
     exists p, Backend.authenticate verify authorization = Backend.Ok200 p).
Proof.
  intros verify authorization payload. unfold Backend.authenticate. split.
  - split.
    + destruct (startsWith (lit "Bearer ") (Backend.envOr authorization [])) eqn:E;
        [|discriminate].
      apply startsWith_app in E. destruct E as [t Ht].
      unfold Backend.slice7. rewrite Ht.
      change (skipn 7 (lit "Bearer " ++ t)) with t.
      destruct (isEmpty t) eqn:Et; [discriminate|].
      destruct (verify t) eqn:Ev; [|discriminate].
      intro H. inversion H; subst. exists t.
      split; [|split; [intro H0; subst; discriminate | exact Ev]].
      unfold Backend.envOr in Ht. destruct authorization as [a|]; [|discriminate].
      destruct (isEmpty a) eqn:Ea; [discriminate|]. now subst.
    + intros [t [Ha [Hne Hv]]]. subst authorization.
      unfold Backend.envOr.
      change (isEmpty (lit "Bearer " ++ t)) with false.
      change (startsWith (lit "Bearer ") (lit "Bearer " ++ t))
        with (startsWith [] t).
      simpl. unfold Backend.slice7.
      change (skipn 7 (lit "Bearer " ++ t)) with t.
      destruct t as [|c t]; [contradiction|]. simpl. now rewrite Hv.
  - destruct (startsWith (lit "Bearer ") (Backend.envOr authorization []));
      [|now left].
    destruct (isEmpty (Backend.slice7 (Backend.envOr authorization [])));
      [now left|].
    destruct (verify (Backend.slice7 (Backend.envOr authorization [])));
      [right; eauto | now left].
Qed.

(** [POST /api/auth/login] issues a token only when username and
    password are truthy and their strings are the configured credential;
    an unset or empty ADMIN_USERNAME or ADMIN_PASSWORD means "admin" and
    "admin123".  A missing field is answered 400, a wrong one 401. *)
Lemma login_credentials :
  forall (sign : jsstring -> jsstring) (env : Backend.Env)
         (username password : JS.value),
    match Backend.login sign env username password with
    | Backend.Ok200 (token, name) =>
        toBoolean username = true /\ toBoolean password = true /\
        String_ username = Backend.adminUsername env /\
        String_ password = Backend.adminPassword env /\
        token = sign (Backend.adminUsername env) /\
        name = Backend.adminUsername env
    | Backend.BadRequest400 =>
        toBoolean username = false \/ toBoolean password = false
    | Backend.Unauthorized401 =>
        toBoolean username = true /\ toBoolean password = true /\
        (String_ username <> Backend.adminUsername env \/
         String_ password <> Backend.adminPassword env)
    | _ => False
    end /\
    Backend.adminUsername env <> [] /\ Backend.adminPassword env <> [] /\
    (Backend.ADMIN_USERNAME env = None -> Backend.adminUsername env = lit "admin") /\
    (Backend.ADMIN_PASSWORD env = Some [] ->
     Backend.adminPassword env = lit "admin123").
Proof.
  intros sign env username password. split.
  - unfold Backend.login.
    destruct (toBoolean username) eqn:Eu; simpl; [|now left].
    destruct (toBoolean password) eqn:Ep; simpl; [|now right].
    destruct (eqb (String_ username) (Backend.adminUsername env)) eqn:E1; simpl.
    + destruct (eqb (String_ password) (Backend.adminPassword env)) eqn:E2; simpl.
      * apply eqb_eq in E1, E2. auto 10.
      * apply eqb_neq in E2. auto.
    + apply eqb_neq in E1. auto.
  - unfold Backend.adminUsername, Backend.adminPassword, Backend.envOr.
    split; [|split; [|split]].
    + destruct (Backend.ADMIN_USERNAME env) as [s|]; [|discriminate].
      destruct s; simpl; discriminate.
    + destruct (Backend.ADMIN_PASSWORD env) as [s|]; [|discriminate].
      destruct s; simpl; discriminate.
    + intro H. now rewrite H.
    + intro H. now rewrite H.
Qed.

(** ** The import endpoint *)

Lemma trimStart_length (s : jsstring) :
  (List.length (trimStart s) <= List.length s)%nat.
Proof.
  induction s as [|c rest IH]; simpl; [lia|].
  destruct (isWhiteSpace c); simpl; lia.
Qed.

Lemma trimStart_fixed_app (l m : jsstring) :
  trimStart l = l -> l <> [] -> trimStart (l ++ m) = l ++ m.
Proof.
  destruct l as [|c r]; [congruence|]. intros H _. simpl in *.
  destruct (isWhiteSpace c); [|reflexivity].
  exfalso. pose proof (trimStart_length r) as Hlen. rewrite H in Hlen.
  simpl in Hlen. lia.
Qed.

Lemma trimStart_trim (s : jsstring) : trimStart (trim s) = trim s.
Proof. unfold trim. apply trimStart_trimEnd. Qed.

Lemma trimEnd_trim (s : jsstring) : trimEnd (trim s) = trim s.
Proof. unfold trim. apply trimEnd_idem. Qed.

(** A prefix that does not start with white space, before a trimmed
    string that is not empty, gives a trimmed string. *)
Lemma trim_prefixed (a t : jsstring) :
  trimStart a = a -> a <> [] -> trim t = t -> t <> [] -> trim (a ++ t) = a ++ t.
Proof.
  intros Ha Hane Ht Htne. unfold trim.
  rewrite (trimStart_fixed_app a t Ha Hane).
  unfold trimEnd. rewrite rev_app_distr.
  assert (Hr : trimStart (rev t) = rev t).
  { pose proof (trimEnd_trim t) as H. rewrite Ht in H. unfold trimEnd in H.
    rewrite <- H at 2. now rewrite rev_involutive. }
  rewrite trimStart_fixed_app.
  - now rewrite <- rev_app_distr, rev_involutive.
  - exact Hr.
  - intro E. apply Htne. rewrite <- (rev_involutive t), E. reflexivity.
Qed.

Lemma isEmpty_nil (s : jsstring) : isEmpty s = true <-> s = [].
Proof. destruct s; simpl; split; congruence. Qed.

(** X27: the import's [sanitizeUrl] is idempotent; its result is empty
    exactly when the url is blank, and otherwise starts with http:// or
    https:// (in any case of the letters) and has no white space around
    it; a url that already starts so is only trimmed. *)
Theorem import_sanitizeUrl_normal :
  forall (u : jsstring),
    ImportApi.sanitizeUrl (ImportApi.sanitizeUrl u) = ImportApi.sanitizeUrl u /\
    (ImportApi.sanitizeUrl u = [] <-> trim u = []) /\
    (trim u <> [] ->
     ImportApi.hasHttpScheme (ImportApi.sanitizeUrl u) = true /\
     trim (ImportApi.sanitizeUrl u) = ImportApi.sanitizeUrl u) /\
    (ImportApi.hasHttpScheme (trim u) = true -> ImportApi.sanitizeUrl u = trim u).
Proof.
  intro u.
  assert (Hclean : trim u <> [] ->
            ImportApi.hasHttpScheme (ImportApi.sanitizeUrl u) = true /\
            trim (ImportApi.sanitizeUrl u) = ImportApi.sanitizeUrl u).
  { intro Hne. unfold ImportApi.sanitizeUrl.
    destruct (isEmpty (trim u)) eqn:E; [apply isEmpty_nil in E; contradiction|].
    destruct (ImportApi.hasHttpScheme (trim u)) eqn:Es.
    - split; [exact Es | apply trim_idem].
    - split; [reflexivity|].
      apply trim_prefixed; [reflexivity | discriminate | apply trim_idem | exact Hne]. }
  assert (Hempty : ImportApi.sanitizeUrl u = [] <-> trim u = []).
  { unfold ImportApi.sanitizeUrl.
    destruct (isEmpty (trim u)) eqn:E.
    - apply isEmpty_nil in E. tauto.
    - destruct (ImportApi.hasHttpScheme (trim u)); [tauto|].
      split; [discriminate|]. intro H. rewrite H in E. discriminate. }
  split; [|split; [exact Hempty|split; [exact Hclean|]]].
  - destruct (isEmpty (trim u)) eqn:E.
    + apply isEmpty_nil in E. apply Hempty in E. rewrite E. reflexivity.
    + assert (Hne : trim u <> []) by (intro H; rewrite H in E; discriminate).
      destruct (Hclean Hne) as [Hs Ht].
      unfold ImportApi.sanitizeUrl at 1. rewrite Ht, Hs.
      destruct (isEmpty (ImportApi.sanitizeUrl u)) eqn:E2; [|reflexivity].
      apply isEmpty_nil in E2. now rewrite E2.
  - intro Hs. unfold ImportApi.sanitizeUrl. rewrite Hs.
    destruct (isEmpty (trim u)) eqn:E; [|reflexivity].
    apply isEmpty_nil in E. now rewrite E.
Qed.

Section RunsHandler.

Variable bw : BackupWriter.

Lemma deleteBookmark_table (ident : jsstring) (w : World) :
  exists v w',
    deleteBookmark bw ident w = (Returned v, w') /\
    bookmarks w' = sql_delete ident (bookmarks w).
Proof.
  destruct (deleteBookmark_run bw ident w) as [w' [Hrun [Hb _]]].
  eexists; exists w'. split; [exact Hrun|]. rewrite Hb.
  destruct (sql_select_by_id ident (bookmarks w)) eqn:E; [|reflexivity].
  rewrite initTables_bookmarks. unfold sql_delete. symmetry.
  apply filter_all. intros r Hr. apply negb_true_iff.
  destruct (eqb (row_id r) ident) eqn:Er; [|reflexivity].
  assert (Hin : In r (sql_select_by_id ident (bookmarks w)))
    by (apply filter_In; auto).
  rewrite E in Hin. destruct Hin.
Qed.

Lemma deleteExisting_run (existing : list BookmarkRecord) :
  forall (failed : list jsstring) (w : World),
  exists w',
    ImportApi.deleteExisting bw existing failed w = (Returned failed, w') /\
    (forall r, In r (bookmarks w') ->
               In r (bookmarks w) /\ ~ In (row_id r) (List.map id existing)).
Proof.
  induction existing as [|b rest IH]; intros failed w.
  - exists w. split; [reflexivity|]. intros r Hr. split; [exact Hr | intros []].
  - cbn [ImportApi.deleteExisting]. unfold bind at 1. unfold tryCatch.
    unfold bind at 1.
    destruct (deleteBookmark_table (id b) w) as [v [w1 [Hrun Hb]]].
    rewrite Hrun. unfold ret at 1.
    destruct (IH failed w1) as [w' [Hrun' Hrows]].
    exists w'. split; [exact Hrun'|].
    intros r Hr. destruct (Hrows r Hr) as [Hin Hn].
    rewrite Hb in Hin. unfold sql_delete in Hin. apply filter_In in Hin.
    destruct Hin as [Hin Hne]. split; [exact Hin|].
    intros [E|E]; [|contradiction].
    apply negb_true_iff, eqb_neq in Hne. congruence.
Qed.

Lemma clearExisting_run (body : ImportApi.ImportRequestBody) (w : World) :
  exists w',
    ImportApi.clearExisting bw body [] w = (Returned ([], []), w') /\
    bookmarks w' = if overwrites body then [] else bookmarks w.
Proof.
  unfold ImportApi.clearExisting, overwrites.
  destruct (ImportApi.r_overwrite body) as [[|]|];
    try (exists w; split; reflexivity).
  destruct (ImportApi.r_bookmarks body) as [items|];
    [|exists w; split; reflexivity].
  unfold tryCatch, bind. unfold listBookmarks. rewrite readBookmarksFromDb_run.
  destruct (deleteExisting_run (List.map rowToRecord (orderBy (bookmarks w))) []
              (initTables w)) as [w' [Hrun Hrows]].
  rewrite Hrun. exists w'. split; [reflexivity|].
  destruct (bookmarks w') as [|r rest] eqn:E; [reflexivity|].
  exfalso. destruct (Hrows r (or_introl eq_refl)) as [Hin Hn].
  apply Hn. rewrite map_map. rewrite initTables_bookmarks in Hin.
  apply in_map_iff. exists r. split; [reflexivity|].
  apply (Permutation_in r (Permutation_sym (orderBy_Permutation _))). exact Hin.
Qed.

(** The loop over the items: what it adds, what it counts. *)
Lemma importBookmarks_added (uuidAt : nat -> jsstring) (nowAt : nat -> Z)
    (items : list ImportApi.BookmarkData) :
  forall (i n : nat) (errs : list ImportApi.ImportError) (w : World),
  exists n' errs' w' added,
    ImportApi.importBookmarks bw uuidAt nowAt i items n errs w
      = (Returned (n', errs'), w') /\
    bookmarks w' = bookmarks w ++ added /\
    n' = (n + List.length added)%nat /\
    (n' + List.length errs' = n + List.length errs + List.length items)%nat /\
    Forall (fun r => exists k, (i <= k < i + List.length items)%nat /\
                               row_id r = uuidAt k) added.
Proof.
  induction items as [|d rest IH]; intros i n errs w.
  - exists n, errs, w, []. simpl. rewrite app_nil_r.
    repeat split; auto; lia.
  - cbn [ImportApi.importBookmarks]. unfold bind at 1.
    destruct (importOne_returns bw (uuidAt i) (nowAt i) d w) as [r [w1 [Hrun Hrows]]].
    rewrite Hrun. destruct r as [e|].
    + destruct (IH (S i) n (errs ++ [e]) w1)
        as [n' [errs' [w' [added [H1 [H2 [H3 [H4 H5]]]]]]]].
      exists n', errs', w', added. split; [exact H1|].
      split; [now rewrite H2, Hrows|]. split; [exact H3|].
      split; [rewrite length_app in H4; simpl in *; lia|].
      eapply Forall_impl; [|exact H5].
      intros r [k [Hk Hid]]. exists k. split; [simpl; lia | exact Hid].
    + destruct Hrows as [visible [_ [_ Hrows]]].
      destruct (IH (S i) (S n) errs w1)
        as [n' [errs' [w' [added [H1 [H2 [H3 [H4 H5]]]]]]]].
      eexists n', errs', w', (_ :: added). split; [exact H1|].
      split; [rewrite H2, Hrows, <- app_assoc; reflexivity|].
      split; [simpl; lia|]. split; [simpl in *; lia|].
      constructor.
      * exists i. split; [simpl; lia | reflexivity].
      * eapply Forall_impl; [|exact H5].
        intros r [k [Hk Hid]]. exists k. split; [simpl; lia | exact Hid].
Qed.

Lemma importSettings_run (body : ImportApi.ImportRequestBody)
    (errs : list ImportApi.HandlerError) (w : World) :
  exists w',
    ImportApi.importSettings bw body errs w
      = (Returned (match importedSettings body with
                   | Some _ => true
                   | None => false
                   end, errs), w') /\
    bookmarks w' = bookmarks w /\
    match importedSettings body with
    | Some partial =>
        fst (getSettings w')
          = Returned (mergeSettings (currentSettings w) partial)
    | None => w' = w
    end.
Proof.
  unfold ImportApi.importSettings, importedSettings.
  destruct (ImportApi.r_settings body) as [s|];
    [|exists w; repeat split; reflexivity].
  unfold tryCatch.
  destruct (ImportApi.hasKeys (ImportApi.settingsUpdates s));
    [|exists w; repeat split; reflexivity].
  unfold bind.
  destruct (updateSettings_run bw (ImportApi.settingsUpdates s) w)
    as [w' [Hrun Hsame]].
  rewrite Hrun. exists w'. split; [reflexivity|]. split.
  - destruct Hsame as [Hb _]. simpl in Hb. rewrite Hb. apply initTables_bookmarks.
  - unfold getSettings. rewrite readSettingsFromDb_run. simpl. f_equal.
    eapply currentSettings_after. exact Hsame.
Qed.

End RunsHandler.

Section RunsImportData.

Variable bw : BackupWriter.

Lemma importData_run (uuidAt : nat -> jsstring) (nowAt : nat -> Z)
    (body : ImportApi.ImportRequestBody) (w : World) :
  ImportApi.r_bookmarks body <> None \/ ImportApi.r_settings body <> None ->
  exists r w' added,
    ImportApi.importData bw uuidAt nowAt body w = (Returned (ImportApi.Reply200 r, []), w') /\
    bookmarks w' = (if overwrites body then [] else bookmarks w) ++ added /\
    ImportApi.success r = true /\
    ImportApi.importedBookmarks r = List.length added /\
    ImportApi.totalBookmarks r
      = List.length (nullish (ImportApi.r_bookmarks body) []) /\
    (ImportApi.importedBookmarks r
     + List.length (nullish (ImportApi.errors r) [])
     = ImportApi.totalBookmarks r)%nat /\
    ImportApi.updatedSettings r
      = match importedSettings body with Some _ => true | None => false end /\
    Forall (fun row =>
              exists k,
                (k < List.length (nullish (ImportApi.r_bookmarks body) []))%nat /\
                row_id row = uuidAt k) added.
Proof.
  intro Hbody.
  destruct (clearExisting_run bw body w) as [w1 [Hrun1 Hb1]].
  destruct (importBookmarks_added bw uuidAt nowAt
              (nullish (ImportApi.r_bookmarks body) []) 0 0 [] w1)
    as [n [errs [w2 [added [Hrun2 [Hb2 [Hn [Hcount Hids]]]]]]]].
  destruct (importSettings_run bw body
              ([] ++ List.map ImportApi.ItemError errs) w2)
    as [w3 [Hrun3 [Hb3 _]]].
  assert (Hrun : ImportApi.importData bw uuidAt nowAt body w =
    (Returned
       (ImportApi.Reply200
          {| ImportApi.success := true;
             ImportApi.importedBookmarks := n;
             ImportApi.updatedSettings :=
               match importedSettings body with Some _ => true | None => false end;
             ImportApi.totalBookmarks :=
               List.length (nullish (ImportApi.r_bookmarks body) []);
             ImportApi.errors :=
               match List.map ImportApi.ItemError errs with
               | [] => None
               | _ :: _ => Some (List.map ImportApi.ItemError errs)
               end |}, []), w3)).
  { unfold ImportApi.importData, tryCatch.
    assert (Hgo : forall (A : Type) (x y : A),
              match ImportApi.r_bookmarks body, ImportApi.r_settings body with
              | None, None => x
              | _, _ => y
              end = y).
    { intros A x y. destruct (ImportApi.r_bookmarks body);
        destruct (ImportApi.r_settings body); try reflexivity.
      destruct Hbody; congruence. }
    rewrite Hgo. unfold bind at 1. rewrite Hrun1.
    unfold bind at 1. rewrite Hrun2.
    cbn [fst snd]. unfold bind at 1. rewrite Hrun3. reflexivity. }
  eexists; exists w3, added. split; [exact Hrun|].
  cbn [ImportApi.success ImportApi.importedBookmarks ImportApi.totalBookmarks
       ImportApi.errors ImportApi.updatedSettings].
  split; [now rewrite Hb3, Hb2, Hb1|]. split; [reflexivity|].
  split; [simpl in Hn; exact Hn|]. split; [reflexivity|].
  split.
  { simpl in Hcount.
    destruct (List.map ImportApi.ItemError errs) eqn:E.
    - destruct errs; [|discriminate]. simpl in *. lia.
    - rewrite <- E. simpl. rewrite length_map. lia. }
  split; [reflexivity|].
  eapply Forall_impl; [|exact Hids].
  intros row [k [Hk Hid]]. exists k. split; [simpl in Hk; lia | exact Hid].
Qed.

End RunsImportData.

(** X29: an import without [overwrite] keeps every stored row as it is
    and adds the rows it creates after them; every item of the request is
    either imported or reported: [importedBookmarks] plus the number of
    errors is [totalBookmarks]. *)
Theorem import_appends :
  forall bw (uuidAt : nat -> jsstring) (nowAt : nat -> Z)
         (body : ImportApi.ImportRequestBody) (items : list ImportApi.BookmarkData)
         (w : World),
    ImportApi.r_bookmarks body = Some items ->
    ImportApi.r_overwrite body <> Some true ->
    exists r w' added,
      ImportApi.importData bw uuidAt nowAt body w
        = (Returned (ImportApi.Reply200 r, []), w') /\
      bookmarks w' = bookmarks w ++ added /\
      ImportApi.importedBookmarks r = List.length added /\
      ImportApi.totalBookmarks r = List.length items /\
      (ImportApi.importedBookmarks r
       + List.length (nullish (ImportApi.errors r) [])
       = List.length items)%nat.
Proof.
  intros bw uuidAt nowAt body items w Hb Ho.
  destruct (importData_run bw uuidAt nowAt body w) as
    [r [w' [added [Hrun [Hrows [_ [Hn [Ht [Hc _]]]]]]]]].
  { left. congruence. }
  assert (Hov : overwrites body = false).
  { unfold overwrites. destruct (ImportApi.r_overwrite body) as [[|]|];
      try reflexivity. congruence. }
  rewrite Hov in Hrows. rewrite Hb in Ht. simpl in Ht.
  exists r, w', added. split; [exact Hrun|]. split; [exact Hrows|].
  split; [exact Hn|]. split; [exact Ht|]. lia.
Qed.

Lemma import_appends_witness :
  ImportApi.r_bookmarks (bookmarksBody [sampleData] None) = Some [sampleData] /\
  ImportApi.r_overwrite (bookmarksBody [sampleData] None) <> Some true /\
  exists r w' added,
    ImportApi.importData backupOk sampleUuidAt sampleNowAt
      (bookmarksBody [sampleData] None) sampleWorld
      = (Returned (ImportApi.Reply200 r, []), w') /\
    bookmarks w' = bookmarks sampleWorld ++ added /\
    ImportApi.importedBookmarks r = List.length added /\
    ImportApi.totalBookmarks r = List.length [sampleData] /\
    (ImportApi.importedBookmarks r
     + List.length (nullish (ImportApi.errors r) [])
     = List.length [sampleData])%nat.
Proof.
  assert (Ho : ImportApi.r_overwrite (bookmarksBody [sampleData] None) <> Some true)
    by discriminate.
  split; [reflexivity|]. split; [exact Ho|].
  exact (import_appends backupOk sampleUuidAt sampleNowAt
           (bookmarksBody [sampleData] None) [sampleData] sampleWorld eq_refl Ho).
Defined.

(** X26: an item of the import that has no title or no url (absent or
    the empty string), or whose url is blank, is reported in [errors] and
    changes nothing: no row, no backup, no log line. *)
Theorem import_skips_invalid :
  forall bw (uuid : jsstring) (now : Z) (data : ImportApi.BookmarkData) (w : World),
    ImportApi.truthy (ImportApi.d_title data) = false \/
    ImportApi.truthy (ImportApi.d_url data) = false \/
    trim (nullish (ImportApi.d_url data) []) = [] ->
    exists e,
      ImportApi.importOne bw uuid now data w = (Returned (Some e), w) /\
      (e = ImportApi.SkippedEmpty \/
       e = ImportApi.SkippedBadUrl (nullish (ImportApi.d_title data) [])).
Proof.
  intros bw uuid now data w H. unfold ImportApi.importOne.
  destruct (negb (ImportApi.truthy (ImportApi.d_title data)) ||
            negb (ImportApi.truthy (ImportApi.d_url data))) eqn:E.
  - exists ImportApi.SkippedEmpty. split; [reflexivity | now left].
  - apply orb_false_iff in E. destruct E as [E1 E2].
    apply negb_false_iff in E1, E2.
    destruct H as [H|[H|H]]; try congruence.
    assert (Hu : ImportApi.sanitizeUrl (nullish (ImportApi.d_url data) []) = []).
    { unfold ImportApi.sanitizeUrl. now rewrite H. }
    rewrite Hu. simpl.
    eexists. split; [reflexivity | now right].
Qed.

Lemma import_skips_invalid_witness :
  (ImportApi.truthy (ImportApi.d_title blankUrlData) = false \/
   ImportApi.truthy (ImportApi.d_url blankUrlData) = false \/
   trim (nullish (ImportApi.d_url blankUrlData) []) = []) /\
  exists e,
    ImportApi.importOne backupOk (lit "d") 103 blankUrlData sampleWorld
      = (Returned (Some e), sampleWorld) /\
    (e = ImportApi.SkippedEmpty \/
     e = ImportApi.SkippedBadUrl (nullish (ImportApi.d_title blankUrlData) [])).
Proof.
  assert (H : ImportApi.truthy (ImportApi.d_title blankUrlData) = false \/
              ImportApi.truthy (ImportApi.d_url blankUrlData) = false \/
              trim (nullish (ImportApi.d_url blankUrlData) []) = [])
    by (right; right; reflexivity).
  split; [exact H|].
  exact (import_skips_invalid backupOk (lit "d") 103%Z blankUrlData sampleWorld H).
Defined.


(** ** Export, then import *)

Lemma currentSettings_same_db (w w' : World) :
  same_db w w' -> currentSettings w' = currentSettings w.
Proof.
  intros [_ [Hs Hi]]. unfold currentSettings.
  now rewrite !initTables_settings, Hs, Hi.
Qed.

Lemma currentSettings_initTables (w : World) :
  currentSettings (initTables w) = currentSettings w.
Proof. unfold currentSettings. now rewrite initTables_idem. Qed.

Lemma currentSettings_with_bookmarks (w : World) (t : list Row) :
  currentSettings (with_bookmarks w t) = currentSettings w.
Proof.
  unfold currentSettings. rewrite initTables_with_bookmarks. reflexivity.
Qed.

Section RunsRoundTrip.

Variable bw : BackupWriter.

Lemma deleteBookmark_settings (ident : jsstring) (w : World) :
  currentSettings (snd (deleteBookmark bw ident w)) = currentSettings w.
Proof.
  destruct (deleteBookmark_run bw ident w) as [w' [Hrun Hsame]].
  rewrite Hrun. simpl.
  rewrite (currentSettings_same_db _ _ Hsame).
  destruct (sql_select_by_id ident (bookmarks w));
    rewrite ?currentSettings_with_bookmarks; apply currentSettings_initTables.
Qed.

Lemma deleteExisting_settings (existing : list BookmarkRecord) :
  forall (failed : list jsstring) (w : World),
    currentSettings (snd (ImportApi.deleteExisting bw existing failed w))
    = currentSettings w.
Proof.
  induction existing as [|b rest IH]; intros failed w; [reflexivity|].
  cbn [ImportApi.deleteExisting]. unfold bind at 1. unfold tryCatch.
  unfold bind at 1.
  pose proof (deleteBookmark_settings (id b) w) as Hs.
  destruct (deleteBookmark_table bw (id b) w) as [v [w1 [Hrun _]]].
  rewrite Hrun in Hs |- *. simpl in Hs. unfold ret at 1.
  now rewrite IH.
Qed.

Lemma clearExisting_settings (body : ImportApi.ImportRequestBody) (w : World) :
  currentSettings (snd (ImportApi.clearExisting bw body [] w)) = currentSettings w.
Proof.
  unfold ImportApi.clearExisting.
  destruct (ImportApi.r_overwrite body) as [[|]|]; try reflexivity.
  destruct (ImportApi.r_bookmarks body) as [items|]; [|reflexivity].
  unfold tryCatch, bind. unfold listBookmarks. rewrite readBookmarksFromDb_run.
  pose proof (deleteExisting_settings
                (List.map rowToRecord (orderBy (bookmarks w))) [] (initTables w)) as Hs.
  destruct (deleteExisting_run bw (List.map rowToRecord (orderBy (bookmarks w))) []
              (initTables w)) as [w' [Hrun _]].
  rewrite Hrun in Hs |- *. simpl in *. now rewrite Hs, currentSettings_initTables.
Qed.

(** The import of one exported bookmark that is clean, under a fresh id. *)
Lemma importOne_clean (uuid : jsstring) (now : Z) (b : BookmarkRecord) (w : World) :
  importClean b ->
  normalizeCategoryValue (category b) = category b ->
  stored (bookmarks w) uuid = false ->
  exists r w',
    ImportApi.importOne bw uuid now (dataOf b) w = (Returned None, w') /\
    bookmarks w' = bookmarks w ++ [r] /\
    orderBy (bookmarks w') = orderBy (bookmarks w) ++ [r] /\
    row_id r = uuid /\
    rowToRecord r =
      {| id := uuid; title := title b; url := url b; category := category b;
         description := description b; visible := visible b |} /\
    currentSettings w' = currentSettings w.
Proof.
  intros [Ht [Htt [Hu [Hus Hd]]]] Hc Hfresh.
  unfold ImportApi.importOne.
  assert (E1 : ImportApi.truthy (ImportApi.d_title (dataOf b)) = true).
  { simpl. destruct (title b); [congruence | reflexivity]. }
  assert (E2 : ImportApi.truthy (ImportApi.d_url (dataOf b)) = true).
  { simpl. destruct (url b); [congruence | reflexivity]. }
  rewrite E1, E2. cbn [negb orb].
  cbn [ImportApi.d_url dataOf nullish]. rewrite Hus.
  assert (E3 : isEmpty (url b) = false) by (destruct (url b); [congruence | reflexivity]).
  rewrite E3. unfold tryCatch, bind.
  cbn [ImportApi.sqlBoolean ImportApi.visibleOf ImportApi.d_visible dataOf].
  destruct (createBookmark_run bw uuid now
              (ImportApi.toInput (dataOf b) (url b) (visible b)) w Hfresh)
    as [w' [Hrun Hsame]].
  rewrite Hrun. unfold ret.
  pose proof (currentSettings_same_db _ _ Hsame) as Hcs.
  destruct Hsame as [Hb _]. simpl in Hb.
  eexists; exists w'. split; [reflexivity|]. split; [exact Hb|]. split.
  { rewrite Hb. apply orderBy_snoc. intros x Hx. now apply sql_next_order_above. }
  split; [reflexivity|]. split.
  - unfold rowToRecord, newRowOf, ImportApi.toInput. simpl.
    rewrite Htt, Hd. f_equal.
    rewrite normalizeCategoryValue_idem.
    assert (Hcat : forall o, normalizeCategoryValue o = o ->
              normalizeCategoryValue (ImportApi.trimOrUndefined o) = o).
    { intros [s|] Ho; [|reflexivity].
      unfold normalizeCategoryValue in Ho.
      destruct (isEmpty s) eqn:Es; [discriminate|].
      destruct (isEmpty (trim s)) eqn:Ets; [discriminate|].
      inversion Ho as [Hs].
      unfold ImportApi.trimOrUndefined, normalizeCategoryValue.
      rewrite !Hs, !Es, !Hs, !Es. reflexivity. }
    now apply Hcat.
  - rewrite Hcs, currentSettings_with_bookmarks. apply currentSettings_initTables.
Qed.

Lemma importBookmarks_clean (uuidAt : nat -> jsstring) (nowAt : nat -> Z)
    (bs : list BookmarkRecord) :
  forall (i n : nat) (errs : list ImportApi.ImportError) (w : World),
    (forall b, In b bs ->
       importClean b /\ normalizeCategoryValue (category b) = category b) ->
    (forall k, (i <= k < i + List.length bs)%nat ->
       stored (bookmarks w) (uuidAt k) = false) ->
    (forall j k, (i <= j < i + List.length bs)%nat ->
                 (i <= k < i + List.length bs)%nat ->
                 uuidAt j = uuidAt k -> j = k) ->
    exists w' rows,
      ImportApi.importBookmarks bw uuidAt nowAt i (List.map dataOf bs) n errs w
        = (Returned ((n + List.length bs)%nat, errs), w') /\
      orderBy (bookmarks w') = orderBy (bookmarks w) ++ rows /\
      List.map rowToRecord rows = reidentified uuidAt i bs /\
      currentSettings w' = currentSettings w.
Proof.
  induction bs as [|b rest IH]; intros i n errs w Hclean Hfresh Hinj.
  - exists w, []. simpl. rewrite app_nil_r, Nat.add_0_r. auto.
  - cbn [List.map ImportApi.importBookmarks]. unfold bind at 1.
    destruct (Hclean b (or_introl eq_refl)) as [Hb Hcat].
    destruct (importOne_clean (uuidAt i) (nowAt i) b w Hb Hcat)
      as [r [w1 [Hrun [Hb1 [Ho1 [Hid [Hrec Hs1]]]]]]].
    { apply Hfresh. simpl. lia. }
    rewrite Hrun.
    destruct (IH (S i) (S n) errs w1) as [w' [rows [Hrun' [Ho' [Hrec' Hs']]]]].
    + intros b' Hb'. apply Hclean. now right.
    + intros k Hk. rewrite Hb1, stored_app.
      rewrite Hfresh by (simpl; lia). simpl.
      apply eqb_neq. rewrite Hid. intro E.
      assert (i = k) by (apply Hinj; simpl; try lia; exact E). lia.
    + intros j k Hj Hk. apply Hinj; simpl; lia.
    + exists w', (r :: rows). split.
      { rewrite Hrun'. simpl. do 3 f_equal. lia. }
      split; [rewrite Ho', Ho1, <- app_assoc; reflexivity|].
      split; [simpl; now rewrite Hrec, Hrec'|].
      now rewrite Hs', Hs1.
Qed.

End RunsRoundTrip.

Lemma importData_steps (bw : BackupWriter) (uuidAt : nat -> jsstring)
    (nowAt : nat -> Z) (body : ImportApi.ImportRequestBody)
    (items : list ImportApi.BookmarkData) (w w1 w2 w3 : World)
    (cleared : list ImportApi.HandlerError) (logged : list jsstring)
    (n : nat) (ierrs : list ImportApi.ImportError)
    (updated : bool) (errs : list ImportApi.HandlerError) :
  ImportApi.r_bookmarks body = Some items ->
  ImportApi.clearExisting bw body [] w = (Returned (cleared, logged), w1) ->
  ImportApi.importBookmarks bw uuidAt nowAt 0 items 0 [] w1
    = (Returned (n, ierrs), w2) ->
  ImportApi.importSettings bw body (cleared ++ List.map ImportApi.ItemError ierrs) w2
    = (Returned (updated, errs), w3) ->
  ImportApi.importData bw uuidAt nowAt body w =
  (Returned
     (ImportApi.Reply200
        {| ImportApi.success := true;
           ImportApi.importedBookmarks := n;
           ImportApi.updatedSettings := updated;
           ImportApi.totalBookmarks := List.length items;
           ImportApi.errors := match errs with
                               | [] => None
                               | _ :: _ => Some errs
                               end |}, logged), w3).
Proof.
  intros Hb H1 H2 H3.
  unfold ImportApi.importData, tryCatch. rewrite Hb.
  unfold bind at 1. rewrite H1.
  unfold bind at 1. cbn [nullish]. rewrite H2.
  cbn [fst snd]. unfold bind at 1. rewrite H3. reflexivity.
Qed.

Lemma export_clean_same (b : BookmarkRecord) :
  normalizeCategoryValue (category b) = category b ->
  ImportApi.trimOrUndefined (description b) = description b ->
  {| id := id b; title := title b; url := url b;
     category := ExportApi.orUndefined (category b);
     description := ExportApi.orUndefined (description b);
     visible := visible b |} = b.
Proof.
  intros Hc Hd. destruct b as [i t u c d v]. simpl in *. f_equal.
  - destruct c as [s|]; [|reflexivity]. simpl in *.
    destruct (isEmpty s); [discriminate | reflexivity].
  - destruct d as [s|]; [|reflexivity]. simpl in *.
    destruct (isEmpty (trim s)) eqn:E; [discriminate|].
    inversion Hd as [Hs]. rewrite Hs in E. rewrite Hs, E. reflexivity.
Qed.

Lemma merge_own_settings (c : SettingsData) :
  mergeSettings c
    (ImportApi.settingsUpdates
       {| ImportApi.s_theme := Some (theme c);
          ImportApi.s_siteTitle := Some (siteTitle c);
          ImportApi.s_siteIcon := Some (siteIcon c) |}) = c.
Proof.
  destruct c as [t s i].
  unfold mergeSettings, ImportApi.settingsUpdates, ImportApi.whenTruthy,
    ImportApi.truthy, nullish. simpl.
  destruct t; destruct s; destruct i; reflexivity.
Qed.

(** ** Import with overwrite *)

Section RunsOverwrite.

Variable bw : BackupWriter.

(** What a turn of the loop does to the table, and what it reports,
    depends on the table alone. *)
Lemma importOne_same_table (uuid : jsstring) (now : Z)
    (d : ImportApi.BookmarkData) (wa wb : World) :
  bookmarks wa = bookmarks wb ->
  exists r wa' wb',
    ImportApi.importOne bw uuid now d wa = (Returned r, wa') /\
    ImportApi.importOne bw uuid now d wb = (Returned r, wb') /\
    bookmarks wa' = bookmarks wb'.
Proof.
  intro Hsame. unfold ImportApi.importOne.
  destruct (negb (ImportApi.truthy (ImportApi.d_title d)) ||
            negb (ImportApi.truthy (ImportApi.d_url d))).
  { eexists; eexists; eexists. split; [reflexivity|]. split; [reflexivity|].
    exact Hsame. }
  destruct (isEmpty (ImportApi.sanitizeUrl (nullish (ImportApi.d_url d) []))).
  { eexists; eexists; eexists. split; [reflexivity|]. split; [reflexivity|].
    exact Hsame. }
  unfold tryCatch.
  destruct (ImportApi.sqlBoolean (ImportApi.visibleOf d)) as [v|e].
  - unfold bind.
    destruct (stored (bookmarks wa) uuid) eqn:Ea.
    + assert (Eb : stored (bookmarks wb) uuid = true) by (now rewrite <- Hsame).
      rewrite !createBookmark_run_stored by assumption.
      eexists; eexists; eexists. split; [reflexivity|]. split; [reflexivity|].
      now rewrite !initTables_bookmarks.
    + assert (Eb : stored (bookmarks wb) uuid = false) by (now rewrite <- Hsame).
      match goal with
      | |- context [createBookmark bw uuid now ?data wa] =>
          destruct (createBookmark_run bw uuid now data wa Ea) as [wa' [Ha [Hba _]]];
          destruct (createBookmark_run bw uuid now data wb Eb) as [wb' [Hb [Hbb _]]]
      end.
      rewrite Ha, Hb. exists None, wa', wb'.
      split; [reflexivity|]. split; [reflexivity|].
      simpl in Hba, Hbb. now rewrite Hba, Hbb, Hsame.
  - rewrite !createBookmark_param_throws.
    eexists; eexists; eexists. split; [reflexivity|]. split; [reflexivity|].
    now rewrite !initTables_bookmarks.
Qed.

Lemma importBookmarks_same_table (uuidAt : nat -> jsstring) (nowAt : nat -> Z)
    (items : list ImportApi.BookmarkData) :
  forall (i n : nat) (errs : list ImportApi.ImportError) (wa wb : World),
    bookmarks wa = bookmarks wb ->
    exists res wa' wb',
      ImportApi.importBookmarks bw uuidAt nowAt i items n errs wa
        = (Returned res, wa') /\
      ImportApi.importBookmarks bw uuidAt nowAt i items n errs wb
        = (Returned res, wb') /\
      bookmarks wa' = bookmarks wb'.
Proof.
  induction items as [|d rest IH]; intros i n errs wa wb Hsame.
  - eexists; eexists; eexists. split; [reflexivity|]. split; [reflexivity|].
    exact Hsame.
  - cbn [ImportApi.importBookmarks]. unfold bind.
    destruct (importOne_same_table (uuidAt i) (nowAt i) d wa wb Hsame)
      as [r [wa1 [wb1 [Ha [Hb Hsame1]]]]].
    rewrite Ha, Hb. destruct r as [e|]; now apply IH.
Qed.

(** Every row the loop adds is made of the item of its turn. *)
Lemma importBookmarks_made (uuidAt : nat -> jsstring) (nowAt : nat -> Z)
    (items : list ImportApi.BookmarkData) :
  forall (i n : nat) (errs : list ImportApi.ImportError) (w : World),
  exists n' errs' w' added,
    ImportApi.importBookmarks bw uuidAt nowAt i items n errs w
      = (Returned (n', errs'), w') /\
    bookmarks w' = bookmarks w ++ added /\
    n' = (n + List.length added)%nat /\
    Forall (fun row =>
              exists k d v,
                nth_error items k = Some d /\
                row = itemRow (uuidAt (i + k)) (nowAt (i + k)) (row_order row) d v)
           added.
Proof.
  induction items as [|d rest IH]; intros i n errs w.
  - exists n, errs, w, []. simpl. rewrite app_nil_r.
    repeat split; auto.
  - cbn [ImportApi.importBookmarks]. unfold bind at 1.
    destruct (importOne_returns bw (uuidAt i) (nowAt i) d w) as [r [w1 [Hrun Hrows]]].
    rewrite Hrun.
    assert (Hshift : forall added,
      Forall (fun row =>
                exists k d0 v,
                  nth_error rest k = Some d0 /\
                  row = itemRow (uuidAt (S i + k)) (nowAt (S i + k))
                          (row_order row) d0 v) added ->
      Forall (fun row =>
                exists k d0 v,
                  nth_error (d :: rest) k = Some d0 /\
                  row = itemRow (uuidAt (i + k)) (nowAt (i + k))
                          (row_order row) d0 v) added).
    { intros added H. eapply Forall_impl; [|exact H].
      intros row [k [d0 [v [Hk Hrow]]]]. exists (S k), d0, v.
      split; [exact Hk|]. now replace (i + S k)%nat with (S i + k)%nat by lia. }
    destruct r as [e|].
    + destruct (IH (S i) n (errs ++ [e]) w1)
        as [n' [errs' [w' [added [H1 [H2 [H3 H4]]]]]]].
      exists n', errs', w', added. split; [exact H1|].
      split; [now rewrite H2, Hrows|]. split; [exact H3|]. now apply Hshift.
    + destruct Hrows as [v [_ [_ Hrows]]]. rewrite newRowOf_item in Hrows.
      destruct (IH (S i) (S n) errs w1)
        as [n' [errs' [w' [added [H1 [H2 [H3 H4]]]]]]].
      eexists n', errs', w', (_ :: added). split; [exact H1|].
      split; [rewrite H2, Hrows, <- app_assoc; reflexivity|].
      split; [simpl; lia|].
      constructor; [|now apply Hshift].
      exists 0%nat, d, v. split; [reflexivity|].
      now rewrite Nat.add_0_r.
Qed.

End RunsOverwrite.

(** X28: an import with [overwrite] replaces the collection.  The
    handler first deletes every stored bookmark, so that the table
    afterwards is the same whatever it held before: its rows are the ones
    this import made, each of the item of its turn under the id
    [randomUUID] gave then, as many as [importedBookmarks] reports.  When
    every item is one the import takes, of the declared type, and the
    ids are different from each other, the table afterwards is the items
    in their order, on the orders 0, 1, ..., and no error is reported. *)
Theorem import_overwrite_replaces :
  forall bw (uuidAt : nat -> jsstring) (nowAt : nat -> Z)
         (body : ImportApi.ImportRequestBody) (items : list ImportApi.BookmarkData)
         (w : World),
    ImportApi.r_bookmarks body = Some items ->
    ImportApi.r_overwrite body = Some true ->
    exists r w',
      ImportApi.importData bw uuidAt nowAt body w
        = (Returned (ImportApi.Reply200 r, []), w') /\
      ImportApi.importedBookmarks r = List.length (bookmarks w') /\
      ImportApi.totalBookmarks r = List.length items /\
      (forall w2,
         bookmarks (snd (ImportApi.importData bw uuidAt nowAt body w2))
         = bookmarks w') /\
      Forall (fun row =>
                exists k d v,
                  nth_error items k = Some d /\
                  row = itemRow (uuidAt k) (nowAt k) (row_order row) d v)
             (bookmarks w') /\
      ((forall d, In d items -> importable d /\ typedVisible d /\ itemText d) ->
       (forall k, (k < List.length items)%nat -> pgText (uuidAt k) = true) ->
       (forall j k, (j < List.length items)%nat -> (k < List.length items)%nat ->
                    uuidAt j = uuidAt k -> j = k) ->
       (Z.of_nat (List.length items) <= INT4_MAX + 1)%Z ->
       bookmarks w' = itemRows uuidAt nowAt givenOrTrue 0 0 items /\
       ImportApi.importedBookmarks r = List.length items /\
       ImportApi.errors r = None).
Proof.
  intros bw uuidAt nowAt body items w Hbm Ho.
  assert (Hov : overwrites body = true)
    by (unfold overwrites; now rewrite Hbm, Ho).
  assert (Hsteps : forall w0,
    exists n ierrs w1 w2 w3 added,
      bookmarks w1 = [] /\
      ImportApi.importBookmarks bw uuidAt nowAt 0 items 0 [] w1
        = (Returned (n, ierrs), w2) /\
      bookmarks w2 = added /\ n = List.length added /\
      Forall (fun row =>
                exists k d v,
                  nth_error items k = Some d /\
                  row = itemRow (uuidAt k) (nowAt k) (row_order row) d v) added /\
      bookmarks w3 = added /\
      ImportApi.importData bw uuidAt nowAt body w0 =
        (Returned
           (ImportApi.Reply200
              {| ImportApi.success := true;
                 ImportApi.importedBookmarks := n;
                 ImportApi.updatedSettings :=
                   match importedSettings body with
                   | Some _ => true
                   | None => false
                   end;
                 ImportApi.totalBookmarks := List.length items;
                 ImportApi.errors :=
                   match List.map ImportApi.ItemError ierrs with
                   | [] => None
                   | _ :: _ => Some (List.map ImportApi.ItemError ierrs)
                   end |}, []), w3)).
  { intro w0.
    destruct (clearExisting_run bw body w0) as [w1 [Hrun1 Hb1]].
    rewrite Hov in Hb1.
    destruct (importBookmarks_made bw uuidAt nowAt items 0 0 [] w1)
      as [n [ierrs [w2 [added [Hrun2 [Hb2 [Hn Hmade]]]]]]].
    rewrite Hb1 in Hb2. simpl in Hb2, Hn.
    destruct (importSettings_run bw body
                ([] ++ List.map ImportApi.ItemError ierrs) w2)
      as [w3 [Hrun3 [Hb3 _]]].
    exists n, ierrs, w1, w2, w3, added.
    split; [exact Hb1|]. split; [exact Hrun2|]. split; [exact Hb2|].
    split; [exact Hn|]. split; [exact Hmade|].
    split; [now rewrite Hb3|].
    exact (importData_steps bw uuidAt nowAt body items w0 w1 w2 w3 [] [] n ierrs
             _ _ Hbm Hrun1 Hrun2 Hrun3). }
  destruct (Hsteps w)
    as [n [ierrs [w1 [w2 [w3 [added [Hb1 [Hrun2 [Hb2 [Hn [Hmade [Hb3 Hrun]]]]]]]]]]]].
  eexists; exists w3. split; [exact Hrun|].
  cbn [ImportApi.importedBookmarks ImportApi.totalBookmarks ImportApi.errors].
  split; [now rewrite Hb3|]. split; [reflexivity|]. split; [|split].
  - intro w0.
    destruct (Hsteps w0)
      as [n' [ierrs' [w1' [w2' [w3' [added' [Hb1' [Hrun2' [Hb2' [_ [_ [Hb3' Hrun']]]]]]]]]]]].
    rewrite Hrun'. cbn [snd]. rewrite Hb3', Hb3.
    destruct (importBookmarks_same_table bw uuidAt nowAt items 0 0 [] w1' w1)
      as [res [wa [wb [Ha [Hb Hsame]]]]].
    { now rewrite Hb1, Hb1'. }
    rewrite Hrun2' in Ha. rewrite Hrun2 in Hb.
    inversion Ha; subst res wa. inversion Hb; subst wb.
    now rewrite <- Hb2', <- Hb2.
  - now rewrite Hb3.
  - intros Hok Hids Hinj _.
    destruct (importBookmarks_items bw uuidAt nowAt givenOrTrue items 0 0 [] w1)
      as [w2' [Hrun2' Hrows]].
    + intros d Hd. destruct (Hok d Hd) as [Hi [Ht _]]. split; [exact Hi|].
      unfold typedVisible in Ht. unfold ImportApi.visibleOf, givenOrTrue.
      destruct (ImportApi.d_visible d) as [[|v|text|s| |]|];
        try contradiction; reflexivity.
    + intros k _. now rewrite Hb1.
    + intros j k Hj Hk. apply Hinj; lia.
    + rewrite Hrun2 in Hrun2'. inversion Hrun2'; subst n ierrs w2'.
      rewrite Hb1 in Hrows. simpl in Hrows.
      split; [now rewrite Hb3, <- Hb2|]. split; reflexivity.
Qed.

Lemma sampleItems_ok (d : ImportApi.BookmarkData) :
  In d [sampleData; sampleDataWith (ImportApi.JBool false)] ->
  importable d /\ typedVisible d /\ itemText d.
Proof.
  intros [E|[E|[]]]; subst d;
    (split; [apply sampleData_importable | split; [exact I | repeat split]]).
Qed.

Lemma import_overwrite_replaces_witness :
  exists r w',
    ImportApi.importData backupOk sampleIdAt sampleNowAt
      (bookmarksBody [sampleData; sampleDataWith (ImportApi.JBool false)] (Some true))
      sampleWorld
      = (Returned (ImportApi.Reply200 r, []), w') /\
    ImportApi.importedBookmarks r = 2%nat /\
    ImportApi.errors r = None /\
    List.map row_id (bookmarks w') = [lit "id-a"; lit "id-b"] /\
    List.map row_order (bookmarks w') = [0%Z; 1%Z] /\
    List.map row_visible (bookmarks w') = [true; false].
Proof.
  destruct (import_overwrite_replaces backupOk sampleIdAt sampleNowAt
              (bookmarksBody [sampleData; sampleDataWith (ImportApi.JBool false)]
                 (Some true))
              [sampleData; sampleDataWith (ImportApi.JBool false)] sampleWorld
              eq_refl eq_refl)
    as [r [w' [H1 [_ [_ [_ [_ H6]]]]]]].
  destruct H6 as [Hrows [Hn He]].
  - exact sampleItems_ok.
  - intros k Hk. simpl in Hk. destruct k as [|[|k]]; [reflexivity | reflexivity | lia].
  - intros j k _ _. apply sampleIdAt_inj.
  - vm_compute. discriminate.
  - exists r, w'. split; [exact H1|]. split; [exact Hn|]. split; [exact He|].
    rewrite Hrows. repeat split.
Defined.

(** X10: export, then import with [overwrite], of a collection whose
    bookmarks are clean (title and description trimmed and not empty, url
    with its scheme, as the import itself stores them) gives back the same
    bookmarks in the same order under the new ids, reports each of them
    imported and no error, and leaves the settings as they were. *)
Theorem export_then_import :
  forall bw (uuidAt : nat -> jsstring) (nowAt : nat -> Z) (w : World),
    forall before w0,
      listBookmarks w = (Returned before, w0) ->
      (forall b, In b before -> importClean b) ->
      (forall j k, (j < List.length before)%nat -> (k < List.length before)%nat ->
                   uuidAt j = uuidAt k -> j = k) ->
      exists d w1 r w2,
        ExportApi.exportData w0 = (Returned d, w1) /\
        ExportApi.e_bookmarks d = before /\
        ExportApi.e_settings d = currentSettings w /\
        ImportApi.importData bw uuidAt nowAt (ExportApi.asImportBody d true) w1
          = (Returned (ImportApi.Reply200 r, []), w2) /\
        ImportApi.importedBookmarks r = List.length before /\
        ImportApi.errors r = None /\
        fst (listBookmarks w2) = Returned (reidentified uuidAt 0 before) /\
        fst (getSettings w2) = Returned (currentSettings w).
Proof.
  intros bw uuidAt nowAt w before w0 Hlist Hclean Hinj.
  unfold listBookmarks in Hlist. rewrite readBookmarksFromDb_run in Hlist.
  inversion Hlist; subst before w0; clear Hlist.
  set (before := List.map rowToRecord (orderBy (bookmarks w))) in *.
  assert (Hbefore : List.map rowToRecord (orderBy (bookmarks w)) = before)
    by reflexivity.
  assert (Hnorm : forall b, In b before ->
            normalizeCategoryValue (category b) = category b).
  { intros b Hb. apply in_map_iff in Hb.
    destruct Hb as [r [Hr _]]. subst b. simpl.
    apply normalizeCategoryValue_idem. }
  assert (Hexp : List.map (fun bookmark =>
                    {| id := id bookmark; title := title bookmark;
                       url := url bookmark;
                       category := ExportApi.orUndefined (category bookmark);
                       description := ExportApi.orUndefined (description bookmark);
                       visible := visible bookmark |}) before = before).
  { rewrite <- (map_id before) at 2. apply map_ext_in. intros b Hb.
    apply export_clean_same; [now apply Hnorm | now apply Hclean]. }
  set (d := {| ExportApi.e_bookmarks := before;
               ExportApi.e_settings := currentSettings w |}).
  assert (Hexport : ExportApi.exportData (initTables w) = (Returned d, initTables w)).
  { unfold ExportApi.exportData. unfold bind at 1. unfold listBookmarks.
    rewrite readBookmarksFromDb_run, initTables_idem, initTables_bookmarks.
    unfold bind at 1. unfold getSettings.
    rewrite readSettingsFromDb_run, initTables_idem, currentSettings_initTables.
    unfold ret. rewrite Hbefore, Hexp. unfold d.
    destruct (currentSettings w); reflexivity. }
  set (body := ExportApi.asImportBody d true).
  pose proof (clearExisting_settings bw body (initTables w)) as Hs1.
  destruct (clearExisting_run bw body (initTables w)) as [w1 [Hrun1 Hb1]].
  rewrite Hrun1 in Hs1. simpl in Hs1, Hb1.
  rewrite currentSettings_initTables in Hs1.
  destruct (importBookmarks_clean bw uuidAt nowAt before 0 0 [] w1)
    as [w2 [rows [Hrun2 [Ho2 [Hrec2 Hs2]]]]].
  { intros b Hb. split; [now apply Hclean | now apply Hnorm]. }
  { intros k _. rewrite Hb1. reflexivity. }
  { intros j k Hj Hk. apply Hinj; lia. }
  destruct (importSettings_run bw body ([] ++ List.map ImportApi.ItemError []) w2)
    as [w3 [Hrun3 [Hb3 Hset3]]].
  assert (Himp : importedSettings body <> None -> 
                 importedSettings body
                 = Some (ImportApi.settingsUpdates
                           {| ImportApi.s_theme := Some (theme (currentSettings w));
                              ImportApi.s_siteTitle :=
                                Some (siteTitle (currentSettings w));
                              ImportApi.s_siteIcon :=
                                Some (siteIcon (currentSettings w)) |})).
  { unfold importedSettings, body. simpl.
    destruct (ImportApi.hasKeys _); [reflexivity | congruence]. }
  exists d, (initTables w), 
    {| ImportApi.success := true;
       ImportApi.importedBookmarks := (0 + List.length before)%nat;
       ImportApi.updatedSettings :=
         match importedSettings body with Some _ => true | None => false end;
       ImportApi.totalBookmarks := List.length (List.map dataOf before);
       ImportApi.errors := None |}, w3.
  split; [exact Hexport|]. split; [reflexivity|]. split; [reflexivity|].
  split.
  { apply (importData_steps bw uuidAt nowAt body (List.map dataOf before)
             (initTables w) w1 w2 w3 [] [] (0 + List.length before)%nat []
             (match importedSettings body with Some _ => true | None => false end)
             ([] ++ List.map ImportApi.ItemError []));
      [reflexivity | exact Hrun1 | exact Hrun2 | exact Hrun3]. }
  split; [reflexivity|]. split; [reflexivity|]. split.
  - unfold listBookmarks. rewrite readBookmarksFromDb_run. simpl.
    rewrite Hb3, Ho2, Hb1. simpl. now rewrite Hrec2.
  - destruct (importedSettings body) as [partial|] eqn:E.
    + rewrite Hset3, Hs2, Hs1. f_equal.
      assert (Hp : Some partial
                   = Some (ImportApi.settingsUpdates
                             {| ImportApi.s_theme := Some (theme (currentSettings w));
                                ImportApi.s_siteTitle :=
                                  Some (siteTitle (currentSettings w));
                                ImportApi.s_siteIcon :=
                                  Some (siteIcon (currentSettings w)) |}))
        by (apply Himp; discriminate).
      inversion Hp. apply merge_own_settings.
    + subst w3. unfold getSettings. rewrite readSettingsFromDb_run. simpl.
      now rewrite Hs2, Hs1.
Qed.

Lemma sampleUuidAt_inj (j k : nat) : sampleUuidAt j = sampleUuidAt k -> j = k.
Proof.
  unfold sampleUuidAt. intro H. apply app_inv_head in H.
  assert (E : (48 + N.of_nat j = 48 + N.of_nat k)%N) by congruence.
  apply N.add_cancel_l in E. now apply Nat2N.inj.
Qed.

Lemma cleanList_clean (b : BookmarkRecord) : In b cleanList -> importClean b.
Proof.
  intros [E|[E|[]]]; subst b; unfold importClean; simpl;
    repeat split; try discriminate; vm_compute; reflexivity.
Qed.

Lemma export_then_import_witness :
  listBookmarks cleanWorld = (Returned cleanList, initTables cleanWorld) /\
  (forall b, In b cleanList -> importClean b) /\
  (forall j k, (j < List.length cleanList)%nat -> (k < List.length cleanList)%nat ->
               sampleUuidAt j = sampleUuidAt k -> j = k) /\
  exists d w1 r w2,
    ExportApi.exportData (initTables cleanWorld) = (Returned d, w1) /\
    ExportApi.e_bookmarks d = cleanList /\
    ExportApi.e_settings d = currentSettings cleanWorld /\
    ImportApi.importData backupOk sampleUuidAt sampleNowAt
      (ExportApi.asImportBody d true) w1
      = (Returned (ImportApi.Reply200 r, []), w2) /\
    ImportApi.importedBookmarks r = List.length cleanList /\
    ImportApi.errors r = None /\
    fst (listBookmarks w2) = Returned (reidentified sampleUuidAt 0 cleanList) /\
    fst (getSettings w2) = Returned (currentSettings cleanWorld).
Proof.
  assert (Hinj : forall j k, (j < List.length cleanList)%nat ->
                             (k < List.length cleanList)%nat ->
                             sampleUuidAt j = sampleUuidAt k -> j = k)
    by (intros j k _ _; apply sampleUuidAt_inj).
  split; [reflexivity|]. split; [exact cleanList_clean|]. split; [exact Hinj|].
  exact (export_then_import backupOk sampleUuidAt sampleNowAt cleanWorld
           cleanList (initTables cleanWorld) eq_refl cleanList_clean Hinj).
Defined.
